(** * Port Event & State Controller (SONiCInterruptController)

    A shallow embedding of [sonic_interrupt_controller.h] and
    [sonic_interrupt_controller.cpp]: the data model, the event simulator,
    the event bus, the state store queries, the bulk refresh and the
    verifier, followed by the properties of the specification.

    C++ member functions become computations in a small monad [M] that
    threads the controller object and the outside world, can end in a C++
    exception, and records the observable actions of the call (console
    lines, mutex operations, shell commands, sleeps, handler calls). One
    call is followed from entry to exit on one thread; the interleaving of
    calls made from several threads is outside the model, the mutex
    operations of each call are in its trace. *)

From stdpp Require Import gmap strings list fin_maps pretty sorting.
From Stdlib Require Import ZArith Ascii String.

Open Scope string_scope.
Open Scope list_scope.

(** ** Data model (sonic_interrupt_controller.h) *)

Inductive LinkStatus := UP | DOWN | UNKNOWN.

Inductive CableEvent :=
  | CABLE_INSERTED | CABLE_REMOVED | LINK_UP | LINK_DOWN
  | SFP_INSERTED | SFP_REMOVED | SPEED_CHANGE | DUPLEX_CHANGE.

#[global] Instance LinkStatus_eq_dec : EqDecision LinkStatus.
Proof. solve_decision. Defined.

#[global] Instance CableEvent_eq_dec : EqDecision CableEvent.
Proof. solve_decision. Defined.

Definition CableEvent_to_nat (e : CableEvent) : nat :=
  match e with
  | CABLE_INSERTED => 0 | CABLE_REMOVED => 1 | LINK_UP => 2 | LINK_DOWN => 3
  | SFP_INSERTED => 4 | SFP_REMOVED => 5 | SPEED_CHANGE => 6 | DUPLEX_CHANGE => 7
  end.

Definition CableEvent_of_nat (n : nat) : option CableEvent :=
  match n with
  | 0 => Some CABLE_INSERTED | 1 => Some CABLE_REMOVED | 2 => Some LINK_UP
  | 3 => Some LINK_DOWN | 4 => Some SFP_INSERTED | 5 => Some SFP_REMOVED
  | 6 => Some SPEED_CHANGE | 7 => Some DUPLEX_CHANGE | _ => None
  end.

#[global] Program Instance CableEvent_countable : Countable CableEvent :=
  inj_countable CableEvent_to_nat CableEvent_of_nat _.
Next Obligation. by intros []. Qed.

(** [std::chrono::system_clock::time_point], as a tick count. *)
Definition time_point := Z.

(** [uint32_t] and [uint64_t] values are naturals below the modulus; the
    arithmetic the code performs on them wraps. *)
Definition UINT32_MOD : N := 2 ^ 32.
Definition UINT64_MOD : N := 2 ^ 64.

Definition incr_u64 (x : N) : N := ((x + 1) mod UINT64_MOD)%N.

Record PortEvent := mkPortEvent {
  ev_port_name : string;
  event_type : CableEvent;
  old_status : LinkStatus;
  new_status : LinkStatus;
  ev_speed_mbps : N;
  ev_duplex : string;
  timestamp : time_point;
  additional_info : string
}.

Record SFPInfo := mkSFPInfo {
  sfp_port_name : string;
  is_present : bool;
  vendor_name : string;
  part_number : string;
  serial_number : string;
  connector_type : string;
  cable_length : string;
  supported_speeds : list N;
  status : string
}.

Record LinkState := mkLinkState {
  port_name : string;
  admin_status : LinkStatus;
  oper_status : LinkStatus;
  speed_mbps : N;
  duplex : string;
  auto_neg : bool;
  mtu : N;
  mac_address : string;
  last_change : time_point;
  link_up_count : N;
  link_down_count : N
}.

(** ** Exceptions, mutexes and observable actions *)

(** What a C++ [throw] can raise: an object derived from [std::exception]
    (with its [what()] text), or anything else. *)
Inductive exn :=
  | StdException (what : string)
  | NonStdException.

Inductive Mutex := m_state_mutex | m_event_mutex | m_handler_mutex.

#[global] Instance Mutex_eq_dec : EqDecision Mutex.
Proof. solve_decision. Defined.

(** A position in the handler registries: the [i]-th element of
    [m_event_handlers[k]], or the [i]-th element of [m_global_handlers]. *)
Inductive HandlerSlot :=
  | SpecificSlot (k : CableEvent) (i : nat)
  | GlobalSlot (i : nat).

#[global] Instance HandlerSlot_eq_dec : EqDecision HandlerSlot.
Proof. solve_decision. Defined.

Inductive Action :=
  | Cout (line : string)
  | Cerr (line : string)
  | Lock (m : Mutex)
  | Unlock (m : Mutex)
  | Popen (full_command : string) (result : option (string * Z))
  | SleepFor (ms : Z)
  | Invoke (slot : HandlerSlot) (ev : PortEvent) (thrown : option exn).

(** How a member function ends: it returns a value or throws. *)
Inductive Outcome (A : Type) :=
  | Ret (a : A)
  | Throw (e : exn).
Arguments Ret {A} a.
Arguments Throw {A} e.

(** ** The platform the controller runs on

    Everything outside the controller object: the shell reached through
    [popen]/[pclose] (and, behind it, docker and the Redis databases of the
    system of record), the wall clock, the variables captured by
    subscriber callbacks, and two values the C++ code leaves to the
    platform. *)
Class Platform := {
  World : Type;
  (** [popen(cmd, "r")], reading the whole output, then [pclose]: [None]
      when [popen] returns a null pipe, else the output and the status. *)
  popen_pclose : string -> World -> option (string * Z) * World;
  (** [std::chrono::system_clock::now()] *)
  system_clock_now : World -> time_point * World;
  (** [std::put_time(std::localtime(&t), "%Y-%m-%d %H:%M:%S")] *)
  put_time_localtime : time_point -> string;
  (** the content of a default-initialised [uint32_t] member that the code
      never assigns ([PortEvent::speed_mbps] of the SFP events) *)
  indeterminate_u32 : N
}.

Section Controller.
Context `{Platform}.

(** [std::function<void(const PortEvent&)>]: a callback acts on the world
    (the variables it captured) and either returns or throws. It does not
    call back into the controller: [triggerEvent] runs it with
    [m_event_mutex] and [m_handler_mutex] held, and neither is recursive. *)
Definition InterruptHandler : Type := PortEvent -> World -> option exn * World.

Record Controller := mkController {
  m_initialized : bool;
  m_monitoring : bool;
  m_sonic_container_name : string;
  m_verbose_debug : bool;
  m_event_handlers : gmap CableEvent (list InterruptHandler);
  m_global_handlers : list InterruptHandler;
  m_port_states : gmap string LinkState;
  m_sfp_info : gmap string SFPInfo;
  m_event_history : list PortEvent;
  m_event_statistics : gmap string N;
  m_last_poll_time : time_point
}.

(** The constructor: container "sonic-vs-official", verbose debugging on,
    every registry empty. *)
Definition SONiCInterruptController_new : Controller :=
  {| m_initialized := false; m_monitoring := false;
     m_sonic_container_name := "sonic-vs-official"; m_verbose_debug := true;
     m_event_handlers := ∅; m_global_handlers := [];
     m_port_states := ∅; m_sfp_info := ∅;
     m_event_history := []; m_event_statistics := ∅;
     m_last_poll_time := 0%Z |}.

Definition set_port_states (f : gmap string LinkState -> gmap string LinkState)
    (c : Controller) : Controller :=
  {| m_initialized := m_initialized c; m_monitoring := m_monitoring c;
     m_sonic_container_name := m_sonic_container_name c;
     m_verbose_debug := m_verbose_debug c;
     m_event_handlers := m_event_handlers c;
     m_global_handlers := m_global_handlers c;
     m_port_states := f (m_port_states c); m_sfp_info := m_sfp_info c;
     m_event_history := m_event_history c;
     m_event_statistics := m_event_statistics c;
     m_last_poll_time := m_last_poll_time c |}.

Definition set_sfp_info (f : gmap string SFPInfo -> gmap string SFPInfo)
    (c : Controller) : Controller :=
  {| m_initialized := m_initialized c; m_monitoring := m_monitoring c;
     m_sonic_container_name := m_sonic_container_name c;
     m_verbose_debug := m_verbose_debug c;
     m_event_handlers := m_event_handlers c;
     m_global_handlers := m_global_handlers c;
     m_port_states := m_port_states c; m_sfp_info := f (m_sfp_info c);
     m_event_history := m_event_history c;
     m_event_statistics := m_event_statistics c;
     m_last_poll_time := m_last_poll_time c |}.

Definition set_event_log (f : list PortEvent -> list PortEvent)
    (g : gmap string N -> gmap string N) (c : Controller) : Controller :=
  {| m_initialized := m_initialized c; m_monitoring := m_monitoring c;
     m_sonic_container_name := m_sonic_container_name c;
     m_verbose_debug := m_verbose_debug c;
     m_event_handlers := m_event_handlers c;
     m_global_handlers := m_global_handlers c;
     m_port_states := m_port_states c; m_sfp_info := m_sfp_info c;
     m_event_history := f (m_event_history c);
     m_event_statistics := g (m_event_statistics c);
     m_last_poll_time := m_last_poll_time c |}.

Definition set_handlers
    (f : gmap CableEvent (list InterruptHandler) -> gmap CableEvent (list InterruptHandler))
    (g : list InterruptHandler -> list InterruptHandler) (c : Controller) : Controller :=
  {| m_initialized := m_initialized c; m_monitoring := m_monitoring c;
     m_sonic_container_name := m_sonic_container_name c;
     m_verbose_debug := m_verbose_debug c;
     m_event_handlers := f (m_event_handlers c);
     m_global_handlers := g (m_global_handlers c);
     m_port_states := m_port_states c; m_sfp_info := m_sfp_info c;
     m_event_history := m_event_history c;
     m_event_statistics := m_event_statistics c;
     m_last_poll_time := m_last_poll_time c |}.

Definition set_ready (t : time_point) (c : Controller) : Controller :=
  {| m_initialized := true; m_monitoring := m_monitoring c;
     m_sonic_container_name := m_sonic_container_name c;
     m_verbose_debug := m_verbose_debug c;
     m_event_handlers := m_event_handlers c;
     m_global_handlers := m_global_handlers c;
     m_port_states := m_port_states c; m_sfp_info := m_sfp_info c;
     m_event_history := m_event_history c;
     m_event_statistics := m_event_statistics c;
     m_last_poll_time := t |}.

(** ** The monad of member functions *)

Record State := mkState { ctl : Controller; world : World }.

Definition M (A : Type) : Type := State -> Outcome A * State * list Action.

Definition run {A} (m : M A) (s : State) : Outcome A * State * list Action := m s.

(** The three components of a run. *)
Definition outcome {A} (r : Outcome A * State * list Action) : Outcome A :=
  fst (fst r).
Definition final {A} (r : Outcome A * State * list Action) : State :=
  snd (fst r).
Definition trace {A} (r : Outcome A * State * list Action) : list Action :=
  snd r.

Definition ret {A} (a : A) : M A := fun s => (Ret a, s, []).

Definition bind {A B} (m : M A) (f : A -> M B) : M B := fun s =>
  match m s with
  | (Ret a, s1, t1) =>
      match f a s1 with (o, s2, t2) => (o, s2, t1 ++ t2) end
  | (Throw e, s1, t1) => (Throw e, s1, t1)
  end.

Definition throw {A} (e : exn) : M A := fun s => (Throw e, s, []).

Definition emit (a : Action) : M unit := fun s => (Ret tt, s, [a]).

Definition get_ctl : M Controller := fun s => (Ret (ctl s), s, []).

Definition modify_ctl (f : Controller -> Controller) : M unit := fun s =>
  (Ret tt, {| ctl := f (ctl s); world := world s |}, []).

Definition when (b : bool) (m : M unit) : M unit := if b then m else ret tt.

#[global] Instance M_ret : MRet M := @ret.
#[global] Instance M_bind : MBind M := fun A B f m => bind m f.

(** Console output: one action per [<< std::endl]-terminated line. *)
Definition cout (line : string) : M unit := emit (Cout line).
Definition cerr (line : string) : M unit := emit (Cerr line).

(** [std::this_thread::sleep_for(std::chrono::milliseconds(ms))] *)
Definition sleep_for (ms : Z) : M unit := emit (SleepFor ms).

Definition now : M time_point := fun s =>
  let '(t, w) := system_clock_now (world s) in
  (Ret t, {| ctl := ctl s; world := w |}, []).

Definition popen (full_command : string) : M (option (string * Z)) := fun s =>
  let '(r, w) := popen_pclose full_command (world s) in
  (Ret r, {| ctl := ctl s; world := w |}, [Popen full_command r]).

(** [std::lock_guard<std::mutex> lock(mu);] followed by the rest of the
    enclosing block: the mutex is released when the block is left, by a
    [return] or by an exception passing through. *)
Definition lock_guard {A} (mu : Mutex) (body : M A) : M A := fun s =>
  match body s with
  | (o, s1, t) => (o, s1, Lock mu :: t ++ [Unlock mu])
  end.

(** [try { body } catch (const std::exception& e) { handler(e.what()) }]:
    an exception that is not a [std::exception] passes through. *)
Definition try_catch_std (body : M unit) (handler : string -> M unit) : M unit :=
  fun s =>
  match body s with
  | (Throw (StdException what), s1, t1) =>
      match handler what s1 with (o, s2, t2) => (o, s2, t1 ++ t2) end
  | r => r
  end.

(** Calling the callback stored in a registry slot. *)
Definition call_handler (slot : HandlerSlot) (handler : InterruptHandler)
    (event : PortEvent) : M unit := fun s =>
  let '(thrown, w) := handler event (world s) in
  (match thrown with None => Ret tt | Some e => Throw e end,
   {| ctl := ctl s; world := w |}, [Invoke slot event thrown]).

(** ** String helpers of the C++ standard library *)

Definition dquote : string := String "034"%char EmptyString.
Definition newline : ascii := "010"%char.
Definition nul : ascii := "000"%char.

(** A [std::string] or a [char] array read as a C string ([c_str()],
    [output += buffer]): the bytes before the first NUL. *)
Fixpoint c_str (s : string) : string :=
  match s with
  | EmptyString => EmptyString
  | String b rest => if Ascii.eqb b nul then EmptyString else String b (c_str rest)
  end.

(** [fgets(buffer, size, pipe)] on a pipe that still holds [pipe], with
    [room = size - 1]: it stores at most [room] bytes, up to and
    including the first newline; the result is what it stored and what
    is left in the pipe. *)
Fixpoint fgets (room : nat) (pipe : string) : string * string :=
  match room, pipe with
  | S room', String b rest =>
      if Ascii.eqb b newline then (String b EmptyString, rest)
      else let '(buffer, rest') := fgets room' rest in (String b buffer, rest')
  | _, _ => (EmptyString, pipe)
  end.

(** [char buffer[256];
     while (fgets(buffer, sizeof(buffer), pipe) != nullptr) output += buffer;]
    Each call of [fgets] takes at least one byte, so as many rounds as
    the pipe holds bytes are enough. *)
Fixpoint read_pipe_loop (fuel : nat) (pipe output : string) : string :=
  match fuel with
  | O => output
  | S fuel' =>
      match pipe with
      | EmptyString => output
      | String _ _ =>
          let '(buffer, rest) := fgets 255 pipe in
          read_pipe_loop fuel' rest (output +:+ c_str buffer)
      end
  end.

Definition read_pipe (pipe : string) : string :=
  read_pipe_loop (String.length pipe) pipe EmptyString.

(** No byte of the string is NUL. *)
Fixpoint nul_free (s : string) : bool :=
  match s with
  | EmptyString => true
  | String b rest => negb (Ascii.eqb b nul) && nul_free rest
  end.

(** No byte of the string is a newline. *)
Fixpoint newline_free (s : string) : bool :=
  match s with
  | EmptyString => true
  | String b rest => negb (Ascii.eqb b newline) && newline_free rest
  end.

Definition is_digit (c : ascii) : bool :=
  let n := nat_of_ascii c in (48 <=? n)%nat && (n <=? 57)%nat.

(** [s.find(pre) == 0] together with [s.substr(length pre)] *)
Fixpoint strip_prefix (pre s : string) : option string :=
  match pre with
  | EmptyString => Some s
  | String a pre' =>
      match s with
      | EmptyString => None
      | String b s' => if Ascii.eqb a b then strip_prefix pre' s' else None
      end
  end.

(** The last character ([output.back()]) and all but the last
    ([output.pop_back()]). *)
Fixpoint back (s : string) : option ascii :=
  match s with
  | EmptyString => None
  | String a EmptyString => Some a
  | String _ s' => back s'
  end.

Fixpoint pop_back (s : string) : string :=
  match s with
  | EmptyString => EmptyString
  | String a EmptyString => EmptyString
  | String a s' => String a (pop_back s')
  end.

(** The lines [std::getline] reads from an [istringstream] over [s], most
    recent line accumulated in [cur] (reversed): a final line without its
    newline is still delivered unless it is empty. *)
Fixpoint getlines_from (cur : list ascii) (s : string) : list string :=
  match s with
  | EmptyString =>
      match cur with [] => [] | _ => [string_of_list_ascii (rev cur)] end
  | String a s' =>
      if Ascii.eqb a newline
      then string_of_list_ascii (rev cur) :: getlines_from [] s'
      else getlines_from (a :: cur) s'
  end.

Definition getlines (s : string) : list string := getlines_from [] s.

(** [std::stoul(str)] on an LP64 platform, base 10, as [strtoul] does it:
    leading white space is skipped, one sign is accepted, the longest run
    of digits is converted; no digit raises [std::invalid_argument], a
    magnitude above [ULONG_MAX] raises [std::out_of_range], and a minus
    sign negates in [unsigned long]. *)
Definition is_space (c : ascii) : bool :=
  let n := nat_of_ascii c in (n =? 32)%nat || ((9 <=? n)%nat && (n <=? 13)%nat).

Fixpoint skip_spaces (s : string) : string :=
  match s with
  | String a s' => if is_space a then skip_spaces s' else s
  | EmptyString => EmptyString
  end.

Fixpoint digits_value (acc : N) (seen : bool) (s : string) : option N :=
  match s with
  | String a s' =>
      if is_digit a
      then digits_value (acc * 10 + (N_of_ascii a - 48))%N true s'
      else if seen then Some acc else None
  | EmptyString => if seen then Some acc else None
  end.

Definition stoul (str : string) : M N :=
  let s := skip_spaces str in
  let '(neg, body) :=
    match s with
    | String a s' =>
        if Ascii.eqb a "-"%char then (true, s')
        else if Ascii.eqb a "+"%char then (false, s') else (false, s)
    | EmptyString => (false, s)
    end in
  match digits_value 0 false body with
  | None => throw (StdException "stoul")
  | Some v =>
      if (UINT64_MOD <=? v)%N then throw (StdException "stoul")
      else mret (if neg then ((UINT64_MOD - v) mod UINT64_MOD)%N else v)
  end.

(** ** Helper functions of the controller *)

(** [std::regex_match(port_name, std::regex("^Ethernet[0-9]+$"))] *)
Definition validatePortName (port_name : string) : bool :=
  match strip_prefix "Ethernet" port_name with
  | Some rest =>
      negb (String.eqb rest EmptyString) && forallb is_digit (list_ascii_of_string rest)
  | None => false
  end.

Definition parseSONiCLinkStatus (status_str : string) : LinkStatus :=
  if String.eqb status_str "up" then UP
  else if String.eqb status_str "down" then DOWN
  else UNKNOWN.

Definition linkStatusToString (st : LinkStatus) : string :=
  match st with
  | UP => "UP"
  | DOWN => "DOWN"
  | UNKNOWN => "UNKNOWN"
  end.

Definition cableEventToString (event : CableEvent) : string :=
  match event with
  | CABLE_INSERTED => "CABLE_INSERTED"
  | CABLE_REMOVED => "CABLE_REMOVED"
  | LINK_UP => "LINK_UP"
  | LINK_DOWN => "LINK_DOWN"
  | SFP_INSERTED => "SFP_INSERTED"
  | SFP_REMOVED => "SFP_REMOVED"
  | SPEED_CHANGE => "SPEED_CHANGE"
  | DUPLEX_CHANGE => "DUPLEX_CHANGE"
  end.

(** [m_event_statistics[event_name]++] *)
Definition updateEventStatistics (event : CableEvent)
    (stats : gmap string N) : gmap string N :=
  let event_name := cableEventToString event in
  <[event_name := incr_u64 (default 0%N (stats !! event_name))]> stats.

Definition logEvent (event : PortEvent) : M unit :=
  cout ("[INTERRUPT] Event logged: " +:+ put_time_localtime (timestamp event)
        +:+ " - " +:+ ev_port_name event +:+ " - "
        +:+ cableEventToString (event_type event)
        +:+ " (" +:+ linkStatusToString (old_status event) +:+ " -> "
        +:+ linkStatusToString (new_status event) +:+ ")").

(** ** Talking to the system of record *)

(** [output] is the caller's string: it is only cleared once the pipe is
    open. *)
Definition executeSONiCCommand (command output : string) : M (bool * string) :=
  c ← get_ctl;
  let full_command :=
    "docker exec " +:+ m_sonic_container_name c +:+ " " +:+ command in
  when (m_verbose_debug c) (cout ("[INTERRUPT] Executing: " +:+ full_command));;
  pipe ← popen (c_str full_command);
  match pipe with
  | None =>
      cerr ("[INTERRUPT] Failed to execute command: " +:+ full_command);;
      mret (false, output)
  | Some (written, result) =>
      let output := read_pipe written in
      when (negb (result =? 0)%Z && m_verbose_debug c)
        (cerr ("[INTERRUPT] Command failed with exit code: " +:+ pretty result);;
         cerr ("[INTERRUPT] Output: " +:+ output));;
      mret ((result =? 0)%Z, output)
  end.

Definition executeRedisCommand (command : string) (db_id : Z) (output : string)
    : M (bool * string) :=
  executeSONiCCommand ("redis-cli -n " +:+ pretty db_id +:+ " " +:+ command) output.

Definition setRedisHashField (key field value : string) (db_id : Z) : M bool :=
  r ← executeRedisCommand
        ("HSET " +:+ dquote +:+ key +:+ dquote +:+ " " +:+ dquote +:+ field
         +:+ dquote +:+ " " +:+ dquote +:+ value +:+ dquote) db_id EmptyString;
  mret (fst r).

Definition getRedisHashField (key field : string) (db_id : Z) : M string :=
  '(ok, output) ← executeRedisCommand
        ("HGET " +:+ dquote +:+ key +:+ dquote +:+ " " +:+ dquote +:+ field
         +:+ dquote) db_id EmptyString;
  if ok : bool
  then mret (if negb (String.eqb output EmptyString)
                && bool_decide (back output = Some newline)
             then pop_back output else output)
  else mret EmptyString.

(** ** Event bus *)

(** [m_event_handlers[event_type].push_back(handler)] *)
Definition registerEventHandler (event_type : CableEvent)
    (handler : InterruptHandler) : M unit :=
  lock_guard m_handler_mutex
    (modify_ctl (set_handlers
       (fun hs => <[event_type := default [] (hs !! event_type) ++ [handler]]> hs)
       (fun g => g));;
     cout ("[INTERRUPT] Registered handler for event: "
           +:+ cableEventToString event_type)).

Definition registerGlobalEventHandler (handler : InterruptHandler) : M unit :=
  lock_guard m_handler_mutex
    (modify_ctl (set_handlers (fun hs => hs) (fun g => g ++ [handler]));;
     cout "[INTERRUPT] Registered global event handler").

(** One of the two [for (const auto& handler : ...)] loops of
    [triggerEvent]; [i] is the index of the first handler of [handlers] in
    its registry and [label] the text printed before [e.what()]. *)
Fixpoint dispatch (slot_of : nat -> HandlerSlot) (label : string) (i : nat)
    (handlers : list InterruptHandler) (event : PortEvent) : M unit :=
  match handlers with
  | [] => mret tt
  | handler :: rest =>
      try_catch_std (call_handler (slot_of i) handler event)
                    (fun what => cerr (label +:+ what));;
      dispatch slot_of label (S i) rest event
  end.

Definition specific_label : string := "[INTERRUPT] Event handler exception: ".
Definition global_label : string := "[INTERRUPT] Global event handler exception: ".

Definition triggerEvent (event : PortEvent) : M unit :=
  lock_guard m_event_mutex
    (modify_ctl (set_event_log (fun h => h ++ [event]) (fun st => st));;
     modify_ctl (set_event_log (fun h => h)
                   (updateEventStatistics (event_type event)));;
     logEvent event;;
     lock_guard m_handler_mutex
       (c ← get_ctl;
        match m_event_handlers c !! event_type event with
        | Some handlers =>
            dispatch (SpecificSlot (event_type event)) specific_label 0
                     handlers event
        | None => mret tt
        end;;
        dispatch GlobalSlot global_label 0 (m_global_handlers c) event)).

(** ** State store queries *)

Definition default_state (name : string) (t : time_point) : LinkState :=
  {| port_name := name; admin_status := UNKNOWN; oper_status := UNKNOWN;
     speed_mbps := 0; duplex := "unknown"; auto_neg := false; mtu := 1500;
     mac_address := "00:00:00:00:00:00"; last_change := t;
     link_up_count := 0; link_down_count := 0 |}.

Definition getPortLinkStateUnsafe (name : string) : M LinkState :=
  c ← get_ctl;
  match m_port_states c !! name with
  | Some st => mret st
  | None => t ← now; mret (default_state name t)
  end.

Definition getPortLinkState (name : string) : M LinkState :=
  lock_guard m_state_mutex (getPortLinkStateUnsafe name).

Definition default_sfp (name : string) : SFPInfo :=
  {| sfp_port_name := name; is_present := false; vendor_name := EmptyString;
     part_number := EmptyString; serial_number := EmptyString;
     connector_type := EmptyString; cable_length := EmptyString;
     supported_speeds := []; status := "not_present" |}.

Definition getSFPInfo (name : string) : M SFPInfo :=
  lock_guard m_state_mutex
    (c ← get_ctl;
     match m_sfp_info c !! name with
     | Some info => mret info
     | None => mret (default_sfp name)
     end).

(** ** Event simulator *)

Definition with_link_up (st : LinkState) (t : time_point) : LinkState :=
  {| port_name := port_name st; admin_status := admin_status st;
     oper_status := UP; speed_mbps := speed_mbps st; duplex := duplex st;
     auto_neg := auto_neg st; mtu := mtu st; mac_address := mac_address st;
     last_change := t; link_up_count := incr_u64 (link_up_count st);
     link_down_count := link_down_count st |}.

Definition with_link_down (st : LinkState) (t : time_point) : LinkState :=
  {| port_name := port_name st; admin_status := admin_status st;
     oper_status := DOWN; speed_mbps := speed_mbps st; duplex := duplex st;
     auto_neg := auto_neg st; mtu := mtu st; mac_address := mac_address st;
     last_change := t; link_up_count := link_up_count st;
     link_down_count := incr_u64 (link_down_count st) |}.

Definition simulateCableInsertion (name : string) : M bool :=
  cout ("[INTERRUPT] Simulating cable insertion on " +:+ name);;
  if negb (validatePortName name)
  then cerr ("[INTERRUPT] Invalid port name: " +:+ name);; mret false
  else
    lock_guard m_state_mutex
      (current_state ← getPortLinkStateUnsafe name;
       let old := oper_status current_state in
       result ← setRedisHashField ("PORT_TABLE:" +:+ name) "oper_status" "up" 0;
       if negb result
       then cerr ("[INTERRUPT] Failed to update APPL_DB for " +:+ name);;
            mret false
       else
         result ← setRedisHashField ("TRANSCEIVER_INFO|" +:+ name) "present" "true" 6;
         if negb result
         then cerr ("[INTERRUPT] Failed to update transceiver info for " +:+ name);;
              mret false
         else
           sleep_for 50;;
           t ← now;
           let current_state := with_link_up current_state t in
           modify_ctl (set_port_states <[name := current_state]>);;
           t' ← now;
           triggerEvent
             {| ev_port_name := name; event_type := CABLE_INSERTED;
                old_status := old; new_status := UP;
                ev_speed_mbps := speed_mbps current_state;
                ev_duplex := duplex current_state; timestamp := t';
                additional_info := "Cable insertion simulated" |};;
           cout ("[INTERRUPT] Cable insertion simulated successfully on " +:+ name);;
           mret true).

Definition simulateCableRemoval (name : string) : M bool :=
  cout ("[INTERRUPT] Simulating cable removal on " +:+ name);;
  if negb (validatePortName name)
  then cerr ("[INTERRUPT] Invalid port name: " +:+ name);; mret false
  else
    lock_guard m_state_mutex
      (current_state ← getPortLinkStateUnsafe name;
       let old := oper_status current_state in
       result ← setRedisHashField ("PORT_TABLE:" +:+ name) "oper_status" "down" 0;
       if negb result
       then cerr ("[INTERRUPT] Failed to update APPL_DB for " +:+ name);;
            mret false
       else
         result ← setRedisHashField ("TRANSCEIVER_INFO|" +:+ name) "present" "false" 6;
         if negb result
         then cerr ("[INTERRUPT] Failed to update transceiver info for " +:+ name);;
              mret false
         else
           t ← now;
           let current_state := with_link_down current_state t in
           modify_ctl (set_port_states <[name := current_state]>);;
           t' ← now;
           triggerEvent
             {| ev_port_name := name; event_type := CABLE_REMOVED;
                old_status := old; new_status := DOWN;
                ev_speed_mbps := speed_mbps current_state;
                ev_duplex := duplex current_state; timestamp := t';
                additional_info := "Cable removal simulated" |};;
           cout ("[INTERRUPT] Cable removal simulated successfully on " +:+ name);;
           mret true).

(** The body of the [for (int i = 0; i < flap_count; i++)] loop, run for
    the [remaining] iterations that are left; [false] is the early
    [return false], [true] is falling out of the loop. *)
Fixpoint link_flap_loop (name : string) (flap_count : Z) (remaining : nat)
    (i : Z) : M bool :=
  match remaining with
  | O => mret true
  | S remaining' =>
      cout ("[INTERRUPT] Flap " +:+ pretty (i + 1)%Z +:+ "/" +:+ pretty flap_count);;
      down ← simulateCableRemoval name;
      if negb down
      then cerr ("[INTERRUPT] Failed to simulate link down in flap "
                 +:+ pretty (i + 1)%Z);;
           mret false
      else
        sleep_for 50;;
        up ← simulateCableInsertion name;
        if negb up
        then cerr ("[INTERRUPT] Failed to simulate link up in flap "
                   +:+ pretty (i + 1)%Z);;
             mret false
        else
          when (i <? flap_count - 1)%Z (sleep_for 100);;
          link_flap_loop name flap_count remaining' (i + 1)%Z
  end.

Definition simulateLinkFlap (name : string) (flap_count : Z) : M bool :=
  cout ("[INTERRUPT] Simulating link flap on " +:+ name +:+ " (count: "
        +:+ pretty flap_count +:+ ")");;
  completed ← link_flap_loop name flap_count (Z.to_nat flap_count) 0%Z;
  if completed : bool
  then cout ("[INTERRUPT] Link flap simulation completed on " +:+ name);;
       mret true
  else mret false.

Definition simulateSFPInsertion (name : string) (sfp_info : SFPInfo) : M bool :=
  cout ("[INTERRUPT] Simulating SFP insertion on " +:+ name);;
  if negb (validatePortName name)
  then cerr ("[INTERRUPT] Invalid port name: " +:+ name);; mret false
  else
    let sfp_key := "TRANSCEIVER_INFO|" +:+ name in
    r1 ← setRedisHashField sfp_key "present" "true" 6;
    r2 ← setRedisHashField sfp_key "vendor_name" (vendor_name sfp_info) 6;
    r3 ← setRedisHashField sfp_key "part_number" (part_number sfp_info) 6;
    r4 ← setRedisHashField sfp_key "serial_number" (serial_number sfp_info) 6;
    let result := r1 && r2 && r3 && r4 in
    if negb result
    then cerr ("[INTERRUPT] Failed to update SFP info for " +:+ name);;
         mret false
    else
      lock_guard m_state_mutex
        (modify_ctl (set_sfp_info <[name := sfp_info]>);;
         t ← now;
         triggerEvent
           {| ev_port_name := name; event_type := SFP_INSERTED;
              old_status := DOWN; new_status := UP;
              ev_speed_mbps := indeterminate_u32; ev_duplex := EmptyString;
              timestamp := t; additional_info := "SFP insertion simulated" |};;
         cout ("[INTERRUPT] SFP insertion simulated successfully on " +:+ name);;
         mret true).

Definition mark_absent (info : SFPInfo) : SFPInfo :=
  {| sfp_port_name := sfp_port_name info; is_present := false;
     vendor_name := vendor_name info; part_number := part_number info;
     serial_number := serial_number info;
     connector_type := connector_type info; cable_length := cable_length info;
     supported_speeds := supported_speeds info; status := status info |}.

Definition simulateSFPRemoval (name : string) : M bool :=
  cout ("[INTERRUPT] Simulating SFP removal on " +:+ name);;
  if negb (validatePortName name)
  then cerr ("[INTERRUPT] Invalid port name: " +:+ name);; mret false
  else
    let sfp_key := "TRANSCEIVER_INFO|" +:+ name in
    result ← setRedisHashField sfp_key "present" "false" 6;
    if negb result
    then cerr ("[INTERRUPT] Failed to update SFP removal for " +:+ name);;
         mret false
    else
      lock_guard m_state_mutex
        (modify_ctl (set_sfp_info (fun infos =>
           match infos !! name with
           | Some info => <[name := mark_absent info]> infos
           | None => infos
           end));;
         t ← now;
         triggerEvent
           {| ev_port_name := name; event_type := SFP_REMOVED;
              old_status := UP; new_status := DOWN;
              ev_speed_mbps := indeterminate_u32; ev_duplex := EmptyString;
              timestamp := t; additional_info := "SFP removal simulated" |};;
         cout ("[INTERRUPT] SFP removal simulated successfully on " +:+ name);;
         mret true).

(** ** Bulk refresh, initialisation and the verifier *)

(** The [while (std::getline(iss, line))] loop of
    [refreshPortStatusFromSONiC]. *)
Fixpoint refresh_lines (lines : list string) : M unit :=
  match lines with
  | [] => mret tt
  | line :: rest =>
      match strip_prefix "PORT|" line with
      | Some name =>
          admin ← getRedisHashField ("PORT|" +:+ name) "admin_status" 4;
          oper ← getRedisHashField ("PORT_TABLE:" +:+ name) "oper_status" 0;
          speed_str ← getRedisHashField ("PORT|" +:+ name) "speed" 4;
          speed ← (if String.eqb speed_str EmptyString
                   then mret 100000%N else stoul speed_str);
          mtu_str ← getRedisHashField ("PORT|" +:+ name) "mtu" 4;
          mtu_val ← (if String.eqb mtu_str EmptyString
                     then mret 9100%N else stoul mtu_str);
          t ← now;
          modify_ctl (set_port_states
            <[name := {| port_name := name;
                         admin_status := parseSONiCLinkStatus admin;
                         oper_status := parseSONiCLinkStatus oper;
                         speed_mbps := (speed mod UINT32_MOD)%N;
                         duplex := "full"; auto_neg := true;
                         mtu := (mtu_val mod UINT32_MOD)%N;
                         mac_address := "02:42:ac:19:00:0a";
                         last_change := t;
                         link_up_count := 0; link_down_count := 0 |}]>)
      | None => mret tt
      end;;
      refresh_lines rest
  end.

Definition refreshPortStatusFromSONiC : M bool :=
  cout "[INTERRUPT] Refreshing port status from SONiC...";;
  lock_guard m_state_mutex
    (modify_ctl (set_port_states (fun _ => ∅));;
     '(ok, output) ← executeRedisCommand
                        ("KEYS " +:+ dquote +:+ "PORT|*" +:+ dquote) 4 EmptyString;
     if negb ok
     then cerr "[INTERRUPT] Failed to get port list from CONFIG_DB";;
          mret false
     else
       refresh_lines (getlines output);;
       c ← get_ctl;
       cout ("[INTERRUPT] Refreshed " +:+ pretty (size (m_port_states c))
             +:+ " port states");;
       mret true).

Definition initialize : M bool :=
  cout "[INTERRUPT] Initializing SONiC Interrupt Controller...";;
  '(ok, _) ← executeSONiCCommand "echo 'INTERRUPT_TEST'" EmptyString;
  if negb ok
  then cerr "[INTERRUPT] Failed to connect to SONiC container";; mret false
  else
    refreshed ← refreshPortStatusFromSONiC;
    if negb refreshed
    then cerr "[INTERRUPT] Failed to initialize port states";; mret false
    else
      t ← now;
      modify_ctl (set_ready t);;
      cout "[INTERRUPT] SONiC Interrupt Controller initialized successfully";;
      c ← get_ctl;
      cout ("[INTERRUPT] Monitoring " +:+ pretty (size (m_port_states c))
            +:+ " ports");;
      mret true.

Definition verifySONiCPortStatus (name : string) (expected_status : LinkStatus)
    : M bool :=
  cout ("[INTERRUPT] Verifying SONiC port status for " +:+ name
        +:+ " (expected: " +:+ linkStatusToString expected_status +:+ ")");;
  oper ← getRedisHashField ("PORT_TABLE:" +:+ name) "oper_status" 0;
  let actual_status := parseSONiCLinkStatus oper in
  let status_matches := bool_decide (actual_status = expected_status) in
  cout ("[INTERRUPT] SONiC status verification: "
        +:+ (if status_matches then "PASSED" else "FAILED"));;
  cout ("[INTERRUPT] Expected: " +:+ linkStatusToString expected_status
        +:+ ", Actual: " +:+ linkStatusToString actual_status
        +:+ " (from Redis: '" +:+ oper +:+ "')");;
  mret status_matches.

(** ** The simulate operations, as one family *)

Inductive SimulateOp :=
  | CableInsertion (name : string)
  | CableRemoval (name : string)
  | SFPInsertion (name : string) (sfp_info : SFPInfo)
  | SFPRemoval (name : string).

Definition op_port (op : SimulateOp) : string :=
  match op with
  | CableInsertion name | CableRemoval name
  | SFPInsertion name _ | SFPRemoval name => name
  end.

(** The kind of the event an operation publishes. *)
Definition op_kind (op : SimulateOp) : CableEvent :=
  match op with
  | CableInsertion _ => CABLE_INSERTED
  | CableRemoval _ => CABLE_REMOVED
  | SFPInsertion _ _ => SFP_INSERTED
  | SFPRemoval _ => SFP_REMOVED
  end.

Definition simulate (op : SimulateOp) : M bool :=
  match op with
  | CableInsertion name => simulateCableInsertion name
  | CableRemoval name => simulateCableRemoval name
  | SFPInsertion name sfp_info => simulateSFPInsertion name sfp_info
  | SFPRemoval name => simulateSFPRemoval name
  end.

(** ** Observations on a controller and on a trace *)

(** The counters and status a reader of port [name] sees: those of its
    entry, or those of the default state. *)
Definition up_count (c : Controller) (name : string) : N :=
  from_option link_up_count 0%N (m_port_states c !! name).

Definition down_count (c : Controller) (name : string) : N :=
  from_option link_down_count 0%N (m_port_states c !! name).

Definition oper_of (c : Controller) (name : string) : LinkStatus :=
  from_option oper_status UNKNOWN (m_port_states c !! name).

(** A shell command succeeded: the pipe opened and the status is 0. *)
Definition popen_ok (r : option (string * Z)) : bool :=
  match r with
  | Some (_, z) => (z =? 0)%Z
  | None => false
  end.

(** The results of the external commands of a trace, in order. *)
Fixpoint popens (tr : list Action) : list (option (string * Z)) :=
  match tr with
  | [] => []
  | Popen _ r :: tr' => r :: popens tr'
  | _ :: tr' => popens tr'
  end.

(** Some external command of the trace failed. *)
Definition write_failed (tr : list Action) : bool :=
  existsb (fun r => negb (popen_ok r)) (popens tr).

(** The handler calls of a trace, in order. *)
Fixpoint invocations (tr : list Action)
    : list (HandlerSlot * PortEvent * option exn) :=
  match tr with
  | [] => []
  | Invoke slot ev thrown :: tr' => (slot, ev, thrown) :: invocations tr'
  | _ :: tr' => invocations tr'
  end.

Definition invoked_slots (tr : list Action) : list HandlerSlot :=
  (fun x => fst (fst x)) <$> invocations tr.

(** The slots of a registry of [n] handlers, in registration order. *)
Definition slots_of (slot_of : nat -> HandlerSlot) (n : nat) : list HandlerSlot :=
  slot_of <$> seq 0 n.

(** All slots an event of kind [k] is dispatched to: the kind-specific
    ones, then the global ones. *)
Definition dispatch_order (c : Controller) (k : CableEvent) : list HandlerSlot :=
  slots_of (SpecificSlot k) (List.length (default [] (m_event_handlers c !! k)))
  ++ slots_of GlobalSlot (List.length (m_global_handlers c)).

(** The text [triggerEvent] prints before [e.what()] for a slot. *)
Definition slot_label (slot : HandlerSlot) : string :=
  match slot with
  | SpecificSlot _ _ => specific_label
  | GlobalSlot _ => global_label
  end.

(** A handler call that threw a [std::exception] is immediately followed
    by the [std::cerr] line reporting [what()]. *)
Fixpoint errors_logged (tr : list Action) : bool :=
  match tr with
  | [] => true
  | Invoke slot _ (Some (StdException what)) :: tr' =>
      match tr' with
      | Cerr line :: _ =>
          bool_decide (line = slot_label slot +:+ what) && errors_logged tr'
      | _ => false
      end
  | _ :: tr' => errors_logged tr'
  end.

(** The mutexes held after a trace, given those held before it. *)
Fixpoint held_after (held : list Mutex) (tr : list Action) : list Mutex :=
  match tr with
  | [] => held
  | Lock mu :: tr' => held_after (mu :: held) tr'
  | Unlock mu :: tr' => held_after (filter (fun x => x ≠ mu) held) tr'
  | _ :: tr' => held_after held tr'
  end.

(** For each external command of a trace, the mutexes held while it
    runs. *)
Fixpoint held_at_io (held : list Mutex) (tr : list Action) : list (list Mutex) :=
  match tr with
  | [] => []
  | Lock mu :: tr' => held_at_io (mu :: held) tr'
  | Unlock mu :: tr' => held_at_io (filter (fun x => x ≠ mu) held) tr'
  | Popen _ _ :: tr' => held :: held_at_io held tr'
  | _ :: tr' => held_at_io held tr'
  end.

(** The counters of port [name] once [op] has committed, from their
    values [x] before: a cable insertion counts one more link-up on its
    port, a cable removal one more link-down, nothing else changes. *)
Definition up_count_after (op : SimulateOp) (name : string) (x : N) : N :=
  match op with
  | CableInsertion n => if bool_decide (n = name) then incr_u64 x else x
  | _ => x
  end.

Definition down_count_after (op : SimulateOp) (name : string) (x : N) : N :=
  match op with
  | CableRemoval n => if bool_decide (n = name) then incr_u64 x else x
  | _ => x
  end.

(** The operational status of port [name] once [op] has committed, from
    its value [x] before. *)
Definition oper_after (op : SimulateOp) (name : string) (x : LinkStatus)
    : LinkStatus :=
  match op with
  | CableInsertion n => if bool_decide (n = name) then UP else x
  | CableRemoval n => if bool_decide (n = name) then DOWN else x
  | _ => x
  end.

(** The kinds of the events of [n] flaps, and the slots they reach. *)
Definition flap_kinds (n : nat) : list CableEvent :=
  List.concat (replicate n [CABLE_REMOVED; CABLE_INSERTED]).

Definition flap_slots (c : Controller) (n : nat) : list HandlerSlot :=
  List.concat (replicate n (dispatch_order c CABLE_REMOVED
                       ++ dispatch_order c CABLE_INSERTED)).

(** The mutexes an operation holds while it writes through. *)
Definition op_locks (op : SimulateOp) : list Mutex :=
  match op with
  | CableInsertion _ | CableRemoval _ => [m_state_mutex]
  | SFPInsertion _ _ | SFPRemoval _ => []
  end.

(** The LinkState a cable operation works on: the entry of the port, or
    the default state made at time [t]. *)
Definition current_state (c : Controller) (name : string) (t : time_point)
    : LinkState :=
  default (default_state name t) (m_port_states c !! name).

(** [commits op c c' ev]: once its write-through has succeeded, [op] turns
    the controller [c] into [c'] and hands the event [ev] to
    [triggerEvent]. *)
Inductive commits : SimulateOp -> Controller -> Controller -> PortEvent -> Prop :=
  | commits_cable_insertion name c t0 t t' :
      commits (CableInsertion name) c
        (set_port_states <[name := with_link_up (current_state c name t0) t]> c)
        {| ev_port_name := name; event_type := CABLE_INSERTED;
           old_status := oper_status (current_state c name t0);
           new_status := UP;
           ev_speed_mbps := speed_mbps (current_state c name t0);
           ev_duplex := duplex (current_state c name t0); timestamp := t';
           additional_info := "Cable insertion simulated" |}
  | commits_cable_removal name c t0 t t' :
      commits (CableRemoval name) c
        (set_port_states <[name := with_link_down (current_state c name t0) t]> c)
        {| ev_port_name := name; event_type := CABLE_REMOVED;
           old_status := oper_status (current_state c name t0);
           new_status := DOWN;
           ev_speed_mbps := speed_mbps (current_state c name t0);
           ev_duplex := duplex (current_state c name t0); timestamp := t';
           additional_info := "Cable removal simulated" |}
  | commits_sfp_insertion name sfp_info c t :
      commits (SFPInsertion name sfp_info) c
        (set_sfp_info <[name := sfp_info]> c)
        {| ev_port_name := name; event_type := SFP_INSERTED;
           old_status := DOWN; new_status := UP;
           ev_speed_mbps := indeterminate_u32; ev_duplex := EmptyString;
           timestamp := t; additional_info := "SFP insertion simulated" |}
  | commits_sfp_removal name c t :
      commits (SFPRemoval name) c
        (set_sfp_info (fun infos =>
           match infos !! name with
           | Some info => <[name := mark_absent info]> infos
           | None => infos
           end) c)
        {| ev_port_name := name; event_type := SFP_REMOVED;
           old_status := UP; new_status := DOWN;
           ev_speed_mbps := indeterminate_u32; ev_duplex := EmptyString;
           timestamp := t; additional_info := "SFP removal simulated" |}.

(** No handler of the registries can raise anything but a
    [std::exception]. *)
Definition std_only (handler : InterruptHandler) : Prop :=
  forall ev w, fst (handler ev w) ≠ Some NonStdException.

(** The controller after [triggerEvent] has recorded an event: appended
    to the history and counted in the statistics. *)
Definition publish (event : PortEvent) (c : Controller) : Controller :=
  set_event_log (fun h => h ++ [event])
                (updateEventStatistics (event_type event)) c.

(** The line [logEvent] prints. *)
Definition log_line (event : PortEvent) : string :=
  "[INTERRUPT] Event logged: " +:+ put_time_localtime (timestamp event)
  +:+ " - " +:+ ev_port_name event +:+ " - "
  +:+ cableEventToString (event_type event)
  +:+ " (" +:+ linkStatusToString (old_status event) +:+ " -> "
  +:+ linkStatusToString (new_status event) +:+ ")".

Definition handlers_std_only (c : Controller) : Prop :=
  (forall k hs, m_event_handlers c !! k = Some hs -> Forall std_only hs)
  /\ Forall std_only (m_global_handlers c).

(** ** Specification-level descriptions of a run *)

(** What the caller of [executeSONiCCommand] gets to see of the result
    [r] of the command: the output as the read loop accumulated it. *)
Definition answer_of (r : option (string * Z)) : string :=
  match r with Some (written, _) => read_pipe written | None => EmptyString end.

(** The console lines around one shell command; the shell is handed the
    command as a C string. *)
Definition exec_trace (c : Controller) (full_command : string)
    (r : option (string * Z)) : list Action :=
  (if m_verbose_debug c
   then [Cout ("[INTERRUPT] Executing: " +:+ full_command)] else [])
  ++ Popen (c_str full_command) r ::
  match r with
  | None => [Cerr ("[INTERRUPT] Failed to execute command: " +:+ full_command)]
  | Some (written, result) =>
      if negb (result =? 0)%Z && m_verbose_debug c
      then [Cerr ("[INTERRUPT] Command failed with exit code: " +:+ pretty result);
            Cerr ("[INTERRUPT] Output: " +:+ read_pipe written)]
      else []
  end.

Definition docker_exec (c : Controller) (command : string) : string :=
  "docker exec " +:+ m_sonic_container_name c +:+ " " +:+ command.

Definition redis_cli (c : Controller) (command : string) (db_id : Z) : string :=
  docker_exec c ("redis-cli -n " +:+ pretty db_id +:+ " " +:+ command).

Definition hset_command (c : Controller) (key field value : string) (db_id : Z)
    : string :=
  redis_cli c ("HSET " +:+ dquote +:+ key +:+ dquote +:+ " " +:+ dquote +:+ field
               +:+ dquote +:+ " " +:+ dquote +:+ value +:+ dquote) db_id.

Definition hget_command (c : Controller) (key field : string) (db_id : Z) : string :=
  redis_cli c ("HGET " +:+ dquote +:+ key +:+ dquote +:+ " " +:+ dquote +:+ field
               +:+ dquote) db_id.

(** What [getRedisHashField] makes of the result of its command. *)
Definition hget_value (r : option (string * Z)) : string :=
  match r with
  | Some (written, z) =>
      let output := read_pipe written in
      if (z =? 0)%Z
      then if negb (String.eqb output EmptyString)
              && bool_decide (back output = Some newline)
           then pop_back output else output
      else EmptyString
  | None => EmptyString
  end.

(** What holds of the outcome [o] and trace [tr] of dispatching [ev] to
    the handlers [hs] sitting in [slots]. *)
Definition dispatch_facts (slots : list HandlerSlot) (hs : list InterruptHandler)
    (ev : PortEvent) (o : Outcome unit) (tr : list Action) : Prop :=
  popens tr = []
  /\ (o = Ret tt \/ o = Throw NonStdException)
  /\ (o = Ret tt -> invoked_slots tr = slots)
  /\ invoked_slots tr `prefix_of` slots
  /\ (Forall std_only hs -> o = Ret tt)
  /\ (forall rest, errors_logged (tr ++ rest) = errors_logged rest)
  /\ Forall (fun x => snd (fst x) = ev) (invocations tr).

(** The kind-specific handlers and then the global ones. *)
Definition all_handlers (c : Controller) (k : CableEvent) : list InterruptHandler :=
  default [] (m_event_handlers c !! k) ++ m_global_handlers c.

(** What a simulate operation returns when [triggerEvent] ends in [o]. *)
Definition after_publish (o : Outcome unit) : Outcome bool :=
  match o with
  | Ret _ => Ret true
  | Throw e => Throw e
  end.

(** The three ways a simulate operation can go. *)
Inductive sim_result (op : SimulateOp) (c : Controller) (w : World)
    : Outcome bool * State * list Action -> Prop :=
  | sim_rejected tr :
      validatePortName (op_port op) = false ->
      popens tr = [] ->
      invocations tr = [] ->
      sim_result op c w (Ret false, mkState c w, tr)
  | sim_write_failed w' tr :
      validatePortName (op_port op) = true ->
      write_failed tr = true ->
      invocations tr = [] ->
      held_at_io [] tr = (fun _ => op_locks op) <$> popens tr ->
      sim_result op c w (Ret false, mkState c w', tr)
  | sim_committed c' ev w' o dtr tr :
      validatePortName (op_port op) = true ->
      commits op c c' ev ->
      dispatch_facts (dispatch_order c (op_kind op))
                     (all_handlers c (op_kind op)) ev o dtr ->
      write_failed tr = false ->
      popens tr <> [] ->
      invocations tr = invocations dtr ->
      errors_logged tr = true ->
      held_at_io [] tr = (fun _ => op_locks op) <$> popens tr ->
      sim_result op c w (after_publish o, mkState (publish ev c') w', tr).

(** Every entry of the table has both counters at zero. *)
Definition zeroed (c : Controller) : Prop :=
  forall name st, m_port_states c !! name = Some st ->
                  link_up_count st = 0%N /\ link_down_count st = 0%N.

(** ** InterruptUtils and TestUtils *)

(** The loop [for (int i = 0; i < count && i < 32; ++i)] of
    [InterruptUtils::getTestPorts], [fuel] bounding the iterations that
    are left. *)
Fixpoint test_ports_loop (fuel : nat) (count i : Z) (ports : list string)
    : list string :=
  match fuel with
  | O => ports
  | S fuel' =>
      if (i <? count)%Z && (i <? 32)%Z
      then test_ports_loop fuel' count (i + 1)%Z
                           (ports ++ ["Ethernet" +:+ pretty (i * 4)%Z])
      else ports
  end.

Definition getTestPorts (count : Z) : list string :=
  test_ports_loop 32 count 0 [].

(** [TestUtils::getAvailablePorts] of the functional tests. *)
Fixpoint available_ports_loop (fuel : nat) (count i : Z) (ports : list string)
    : list string :=
  match fuel with
  | O => ports
  | S fuel' =>
      if (i <? count)%Z && (i <? 32)%Z
      then available_ports_loop fuel' count (i + 1)%Z
                                (ports ++ ["Ethernet" +:+ pretty (i * 4)%Z])
      else ports
  end.

Definition getAvailablePorts (count : Z) : list string :=
  available_ports_loop 32 count 0 [].

Fixpoint string_drop (n : nat) (s : string) : string :=
  match n, s with
  | O, _ => s
  | S n', String _ s' => string_drop n' s'
  | S _, EmptyString => EmptyString
  end.

(** [s.substr(pos)]: [std::out_of_range] when [pos > s.size()]. *)
Definition substr_from (pos : nat) (s : string) : M string :=
  if (pos <=? String.length s)%nat
  then mret (string_drop pos s)
  else throw (StdException
                ("basic_string::substr: __pos (which is " +:+ pretty pos
                 +:+ ") > this->size() (which is " +:+ pretty (String.length s)
                 +:+ ")")).

Definition generateTestSFPInfo (name : string) : M SFPInfo :=
  rest ← substr_from 8 name;
  mret {| sfp_port_name := name; is_present := true;
          vendor_name := "Test Vendor"; part_number := "TEST-SFP-001";
          serial_number := "TST" +:+ rest; connector_type := "LC";
          cable_length := "1m";
          supported_speeds := [1000; 10000; 25000; 100000]%N;
          status := "OK" |}.

(** ** The remaining queries *)

(** The order in which a [std::map<std::string, LinkState>] is
    traversed: ascending keys, strings compared byte by byte. *)
Definition key_le (p q : string * LinkState) : Prop :=
  String.leb (fst p) (fst q) = true.

#[global] Instance key_le_dec p q : Decision (key_le p q).
Proof. unfold key_le. apply _. Defined.

Definition getAllPortStates : M (list LinkState) :=
  lock_guard m_state_mutex
    (c ← get_ctl;
     mret (snd <$> merge_sort key_le (map_to_list (m_port_states c)))).

Definition nl : string := String newline EmptyString.

Definition getSONiCInterfaceStatus (name : string) : M string :=
  admin ← getRedisHashField ("PORT|" +:+ name) "admin_status" 4;
  oper ← getRedisHashField ("PORT_TABLE:" +:+ name) "oper_status" 0;
  mret ("Interface " +:+ name +:+ ":" +:+ nl
        +:+ "  Admin Status: " +:+ admin +:+ nl
        +:+ "  Oper Status: " +:+ oper +:+ nl).

Definition getSONiCTransceiverInfo (name : string) : M string :=
  present ← getRedisHashField ("TRANSCEIVER_INFO|" +:+ name) "present" 6;
  vendor ← getRedisHashField ("TRANSCEIVER_INFO|" +:+ name) "vendor_name" 6;
  mret ("Transceiver " +:+ name +:+ ":" +:+ nl
        +:+ "  Present: " +:+ present +:+ nl
        +:+ "  Vendor: " +:+ vendor +:+ nl).

(** ** Sequences of calls *)

(** The public member functions modelled here, with their arguments. *)
Inductive ApiCall :=
  | CallSimulate (op : SimulateOp)
  | CallLinkFlap (name : string) (flap_count : Z)
  | CallRefresh
  | CallInitialize
  | CallRegister (event_type : CableEvent) (handler : InterruptHandler)
  | CallRegisterGlobal (handler : InterruptHandler)
  | CallGetPortLinkState (name : string)
  | CallGetAllPortStates
  | CallGetSFPInfo (name : string)
  | CallVerify (name : string) (expected_status : LinkStatus)
  | CallInterfaceStatus (name : string)
  | CallTransceiverInfo (name : string).

(** A run with its result forgotten: whether it returned, where it left
    the state, what it did. *)
Definition forget {A} (r : Outcome A * State * list Action)
    : bool * State * list Action :=
  (match outcome r with Ret _ => true | Throw _ => false end, final r, trace r).

Definition api_run (a : ApiCall) (s : State) : bool * State * list Action :=
  match a with
  | CallSimulate op => forget (run (simulate op) s)
  | CallLinkFlap name n => forget (run (simulateLinkFlap name n) s)
  | CallRefresh => forget (run refreshPortStatusFromSONiC s)
  | CallInitialize => forget (run initialize s)
  | CallRegister k h => forget (run (registerEventHandler k h) s)
  | CallRegisterGlobal h => forget (run (registerGlobalEventHandler h) s)
  | CallGetPortLinkState name => forget (run (getPortLinkState name) s)
  | CallGetAllPortStates => forget (run getAllPortStates s)
  | CallGetSFPInfo name => forget (run (getSFPInfo name) s)
  | CallVerify name expected => forget (run (verifySONiCPortStatus name expected) s)
  | CallInterfaceStatus name => forget (run (getSONiCInterfaceStatus name) s)
  | CallTransceiverInfo name => forget (run (getSONiCTransceiverInfo name) s)
  end.

Definition api_final (a : ApiCall) (s : State) : State := snd (fst (api_run a s)).
Definition api_trace (a : ApiCall) (s : State) : list Action := snd (api_run a s).

(** The states a controller can be in: freshly constructed, or after a
    call from such a state; between two calls the world may have
    changed. *)
Inductive reachable : State -> Prop :=
  | reachable_new w : reachable (mkState SONiCInterruptController_new w)
  | reachable_call a s : reachable s -> reachable (api_final a s)
  | reachable_world c w w' : reachable (mkState c w) -> reachable (mkState c w').

(** The final state of a list of simulate operations run one after the
    other, and whether all of them returned [true]. *)
Fixpoint simulate_all (ops : list SimulateOp) (s : State) : bool * State :=
  match ops with
  | [] => (true, s)
  | op :: ops' =>
      match outcome (run (simulate op) s) with
      | Ret true => simulate_all ops' (final (run (simulate op) s))
      | _ => (false, final (run (simulate op) s))
      end
  end.

(** The elementary updates of the controller object: an operation
    commits an event, a refresh installs a new port table, the controller
    is marked initialised, a handler is appended to a registry. *)
Definition refreshed (name : string) (st : LinkState) : Prop :=
  port_name st = name /\ duplex st = "full" /\ auto_neg st = true
  /\ mac_address st = "02:42:ac:19:00:0a"
  /\ link_up_count st = 0%N /\ link_down_count st = 0%N
  /\ (speed_mbps st < UINT32_MOD)%N /\ (mtu st < UINT32_MOD)%N.

Inductive ctl_step : Controller -> Controller -> Prop :=
  | step_commit op c c1 ev :
      validatePortName (op_port op) = true ->
      commits op c c1 ev ->
      ctl_step c (publish ev c1)
  | step_refresh c table :
      (forall name st, table !! name = Some st -> refreshed name st) ->
      ctl_step c (set_port_states (fun _ => table) c)
  | step_ready c t : ctl_step c (set_ready t c)
  | step_register c k h :
      ctl_step c (set_handlers
                    (fun hs => <[k := default [] (hs !! k) ++ [h]]> hs)
                    (fun g => g) c)
  | step_register_global c h :
      ctl_step c (set_handlers (fun hs => hs) (fun g => g ++ [h]) c).

(** The number of events of kind [k] in a history. *)
Definition count_kind (k : CableEvent) (history : list PortEvent) : nat :=
  List.length (filter (fun ev => event_type ev = k) history).

(** The statistics say, for every kind, how many events of that kind
    the history holds (modulo the width of the counter), and have no
    other entry. *)
Definition stats_agree (c : Controller) : Prop :=
  (forall k, default 0%N (m_event_statistics c !! cableEventToString k)
             = (N.of_nat (count_kind k (m_event_history c)) mod UINT64_MOD)%N)
  /\ (forall key, is_Some (m_event_statistics c !! key) ->
                  exists k, key = cableEventToString k
                            /\ 0 < count_kind k (m_event_history c)).

(** An event the simulator can have published. *)
Definition well_formed_event (ev : PortEvent) : Prop :=
  validatePortName (ev_port_name ev) = true
  /\ ((event_type ev = CABLE_INSERTED \/ event_type ev = SFP_INSERTED)
      /\ new_status ev = UP
      \/ (event_type ev = CABLE_REMOVED \/ event_type ev = SFP_REMOVED)
         /\ new_status ev = DOWN).

(** The entries of the two maps sit under the right keys. *)
Definition keys_consistent (c : Controller) : Prop :=
  (forall name st, m_port_states c !! name = Some st -> port_name st = name)
  /\ (forall name info, m_sfp_info c !! name = Some info ->
                        validatePortName name = true).

(** The mutex operations of a trace, in order: [true] for a lock. *)
Fixpoint lock_actions (tr : list Action) : list (bool * Mutex) :=
  match tr with
  | [] => []
  | Lock mu :: tr' => (true, mu) :: lock_actions tr'
  | Unlock mu :: tr' => (false, mu) :: lock_actions tr'
  | _ :: tr' => lock_actions tr'
  end.

(** Only console lines. *)
Definition console_only (tr : list Action) : bool :=
  forallb (fun a => match a with Cout _ | Cerr _ => true | _ => false end) tr.

(** Nothing is taken away: the history and every registry of [c] are
    prefixes of those of [c']. *)
Definition grows (c c' : Controller) : Prop :=
  m_event_history c `prefix_of` m_event_history c'
  /\ m_global_handlers c `prefix_of` m_global_handlers c'
  /\ forall k, default [] (m_event_handlers c !! k)
               `prefix_of` default [] (m_event_handlers c' !! k).

(** The calls that only read. *)
Definition is_query (a : ApiCall) : bool :=
  match a with
  | CallGetPortLinkState _ | CallGetAllPortStates | CallGetSFPInfo _
  | CallVerify _ _ | CallInterfaceStatus _ | CallTransceiverInfo _ => true
  | _ => false
  end.

(** The connection test of [initialize]. *)
Definition echo_command (c : Controller) : string :=
  docker_exec c "echo 'INTERRUPT_TEST'".

(** What a trace shows of synchronisation: the mutex operations and the
    handler calls, in order. *)
Inductive SyncEvent :=
  | Acquire (mu : Mutex)
  | Release (mu : Mutex)
  | Call (slot : HandlerSlot).

Fixpoint sync_view (tr : list Action) : list SyncEvent :=
  match tr with
  | [] => []
  | Lock mu :: tr' => Acquire mu :: sync_view tr'
  | Unlock mu :: tr' => Release mu :: sync_view tr'
  | Invoke slot _ _ :: tr' => Call slot :: sync_view tr'
  | _ :: tr' => sync_view tr'
  end.

(** [body] run with [locks] taken in order and released in reverse
    order. *)
Definition bracket (locks : list Mutex) (body : list SyncEvent) : list SyncEvent :=
  (Acquire <$> locks) ++ body ++ (Release <$> reverse locks).

(** The two shapes of a run of a simulate operation: given up before
    any event, or gone through to the handlers. *)
Definition sync_shape (r : Outcome bool * State * list Action) : Prop :=
  (outcome r = Ret false
   /\ invocations (trace r) = []
   /\ (sync_view (trace r) = [] \/ sync_view (trace r) = bracket [m_state_mutex] []))
  \/ (outcome r <> Ret false
      /\ sync_view (trace r)
         = bracket [m_state_mutex; m_event_mutex; m_handler_mutex]
                   (Call <$> invoked_slots (trace r))).

(** A string of decimal digits. *)
Definition all_digits (s : string) : bool :=
  forallb is_digit (list_ascii_of_string s).

(** The name of the i-th test port. *)
Definition test_port_name (i : Z) : string := "Ethernet" +:+ pretty (i * 4)%Z.

(** The command that lists the ports, and what it printed. *)
Definition keys_command (c : Controller) : string :=
  redis_cli c ("KEYS " +:+ dquote +:+ "PORT|*" +:+ dquote) 4.

(** ** Counters and recorded transitions *)

(** The one elementary update that counts a transition: an operation
    commits its event. *)
Inductive commit_step : Controller -> Controller -> Prop :=
  | commit_step_intro op c c1 ev :
      validatePortName (op_port op) = true ->
      commits op c c1 ev ->
      commit_step c (publish ev c1).

(** The number of events of kind [k] for port [name] in a list. *)
Definition transitions (k : CableEvent) (name : string) (evs : list PortEvent)
    : nat :=
  List.length (filter (fun ev => event_type ev = k /\ ev_port_name ev = name) evs).

(** From [c] to [c'] the history has gained the events [evs], and the
    counters of port [name] have been incremented once per cable
    insertion, respectively cable removal, among them. *)
Definition counted (name : string) (evs : list PortEvent) (c c' : Controller)
    : Prop :=
  m_event_history c' = m_event_history c ++ evs
  /\ up_count c' name
     = Nat.iter (transitions CABLE_INSERTED name evs) incr_u64 (up_count c name)
  /\ down_count c' name
     = Nat.iter (transitions CABLE_REMOVED name evs) incr_u64 (down_count c name).

(** The calls that rebuild the port table. *)
Definition resets_counters (a : ApiCall) : bool :=
  match a with
  | CallRefresh | CallInitialize => true
  | _ => false
  end.

(** The most transitions of one kind a call can make on a port. *)
Definition max_transitions (a : ApiCall) : nat :=
  match a with
  | CallSimulate _ => 1
  | CallLinkFlap _ n => Z.to_nat n
  | _ => 0
  end.

(** ** What a dispatch does, handler by handler *)

(** Something that is not a [std::exception] was thrown. *)
Definition foreign (thrown : option exn) : bool :=
  match thrown with
  | Some NonStdException => true
  | _ => false
  end.

(** The calls of a dispatch of [ev] to the handlers [hs] sitting in
    [slots], from the world [w]: the handlers are called in list order,
    each once, each on the world the one before it left; a handler that
    throws a [std::exception] is followed by the next one; one that
    throws anything else is the last one called. The result is the list
    of calls, with what each threw, and the world after the last one. *)
Fixpoint handler_calls (slots : list HandlerSlot) (hs : list InterruptHandler)
    (ev : PortEvent) (w : World)
    : list (HandlerSlot * PortEvent * option exn) * World :=
  match slots, hs with
  | slot :: slots', h :: hs' =>
      if foreign (fst (h ev w))
      then ([(slot, ev, fst (h ev w))], snd (h ev w))
      else ((slot, ev, fst (h ev w)) :: fst (handler_calls slots' hs' ev (snd (h ev w))),
            snd (handler_calls slots' hs' ev (snd (h ev w))))
  | _, _ => ([], w)
  end.

(** A call of the list threw something that is not a
    [std::exception]. *)
Definition cut_short (calls : list (HandlerSlot * PortEvent * option exn)) : bool :=
  existsb (fun x => foreign (snd x)) calls.

(** The commands of the write-through of an operation, in order. *)
Definition write_commands (op : SimulateOp) (c : Controller) : list string :=
  match op with
  | CableInsertion name =>
      [hset_command c ("PORT_TABLE:" +:+ name) "oper_status" "up" 0;
       hset_command c ("TRANSCEIVER_INFO|" +:+ name) "present" "true" 6]
  | CableRemoval name =>
      [hset_command c ("PORT_TABLE:" +:+ name) "oper_status" "down" 0;
       hset_command c ("TRANSCEIVER_INFO|" +:+ name) "present" "false" 6]
  | SFPInsertion name sfp_info =>
      [hset_command c ("TRANSCEIVER_INFO|" +:+ name) "present" "true" 6;
       hset_command c ("TRANSCEIVER_INFO|" +:+ name) "vendor_name"
                    (vendor_name sfp_info) 6;
       hset_command c ("TRANSCEIVER_INFO|" +:+ name) "part_number"
                    (part_number sfp_info) 6;
       hset_command c ("TRANSCEIVER_INFO|" +:+ name) "serial_number"
                    (serial_number sfp_info) 6]
  | SFPRemoval name =>
      [hset_command c ("TRANSCEIVER_INFO|" +:+ name) "present" "false" 6]
  end.

(** The world once the commands [cmds] have run, and once the clock has
    been read. *)
Definition after_writes (cmds : list string) (w : World) : World :=
  foldl (fun w cmd => snd (popen_pclose (c_str cmd) w)) w cmds.

Definition tick (w : World) : World := snd (system_clock_now w).

(** The world in which an operation whose write-through succeeds calls
    its first handler: a cable operation reads the clock for the default
    state of a port without an entry, runs its commands and reads the
    clock for the state and for the event; an SFP operation runs its
    commands and reads the clock for the event. *)
Definition world_before_dispatch (op : SimulateOp) (c : Controller) (w : World)
    : World :=
  match op with
  | CableInsertion name | CableRemoval name =>
      tick (tick (after_writes (write_commands op c)
                    (match m_port_states c !! name with
                     | Some _ => w
                     | None => tick w
                     end)))
  | SFPInsertion _ _ | SFPRemoval _ => tick (after_writes (write_commands op c) w)
  end.

(** What a run [r] of the operation [op] from controller [c] and world
    [w] has done when it published an event: the event is the last one
    of the history, the handler calls are those of [handler_calls] over
    the registries as they were, and the run ends with [true] unless a
    call threw something that is not a [std::exception]. *)
Definition dispatched (op : SimulateOp) (c : Controller) (w : World)
    (r : Outcome bool * State * list Action) : Prop :=
  exists ev,
    last (m_event_history (ctl (final r))) = Some ev
    /\ event_type ev = op_kind op
    /\ ev_port_name ev = op_port op
    /\ invocations (trace r)
       = fst (handler_calls (dispatch_order c (op_kind op))
                            (all_handlers c (op_kind op)) ev
                            (world_before_dispatch op c w))
    /\ world (final r)
       = snd (handler_calls (dispatch_order c (op_kind op))
                            (all_handlers c (op_kind op)) ev
                            (world_before_dispatch op c w))
    /\ outcome r = (if cut_short (invocations (trace r))
                    then Throw NonStdException else Ret true).

Definition refused_or_dispatched (op : SimulateOp) (c : Controller) (w : World)
    (r : Outcome bool * State * list Action) : Prop :=
  outcome r = Ret false \/ dispatched op c w r.

End Controller.

(** ** A scripted platform for concrete runs

    The shell answers from a script, one entry per command, and succeeds
    with empty output once the script is exhausted; the clock ticks once
    per reading; callbacks append to a log. *)
Record TestWorld := mkTestWorld {
  tw_clock : Z;
  tw_script : list (option (string * Z));
  tw_log : list string
}.

Definition test_platform : Platform :=
  {| World := TestWorld;
     popen_pclose := fun _ w =>
       match tw_script w with
       | [] => (Some (EmptyString, 0%Z), w)
       | r :: rest =>
           (r, {| tw_clock := tw_clock w; tw_script := rest; tw_log := tw_log w |})
       end;
     system_clock_now := fun w =>
       (tw_clock w,
        {| tw_clock := (tw_clock w + 1)%Z; tw_script := tw_script w;
           tw_log := tw_log w |});
     put_time_localtime := fun t => pretty t;
     indeterminate_u32 := 0%N |}.


Section Scenario.
#[local] Existing Instance test_platform.

Definition quiet_world : TestWorld :=
  {| tw_clock := 100; tw_script := []; tw_log := [] |}.

(** A freshly constructed controller in front of a system of record that
    accepts every command. *)
Definition s_fresh : State :=
  {| ctl := SONiCInterruptController_new; world := quiet_world |}.

(** The same controller when the first command cannot be run. *)
Definition s_fail : State :=
  {| ctl := SONiCInterruptController_new;
     world := {| tw_clock := 100; tw_script := [None]; tw_log := [] |} |}.

(** The first two commands succeed and the third one, the KEYS of a
    refresh, lists one port. *)
Definition s_listing : State :=
  {| ctl := SONiCInterruptController_new;
     world := {| tw_clock := 100;
                 tw_script := [Some (EmptyString, 0%Z); Some (EmptyString, 0%Z);
                               Some ("PORT|Ethernet0" +:+ String newline EmptyString,
                                     0%Z)];
                 tw_log := [] |} |}.

(** The system of record answers the first command with "up". *)
Definition s_reads_up : State :=
  {| ctl := SONiCInterruptController_new;
     world := {| tw_clock := 100;
                 tw_script := [Some ("up" +:+ String newline EmptyString, 0%Z)];
                 tw_log := [] |} |}.

Definition line (text : string) : string := text +:+ String newline EmptyString.

(** CONFIG_DB lists two ports and a stray key; the first port is
    administratively up, operationally down, at 40000 Mb/s with the
    default MTU, the second one has no field set. *)
Definition s_two_ports : State :=
  {| ctl := SONiCInterruptController_new;
     world := {| tw_clock := 100;
                 tw_script :=
                   [Some (line "PORT|Ethernet0" +:+ line "VLAN|Vlan10"
                          +:+ "PORT|Ethernet4", 0%Z);
                    Some (line "up", 0%Z); Some (line "down", 0%Z);
                    Some (line "40000", 0%Z); Some (EmptyString, 0%Z)];
                 tw_log := [] |} |}.

(** The same, behind the connection test of [initialize]. *)
Definition s_echo_two_ports : State :=
  {| ctl := SONiCInterruptController_new;
     world := {| tw_clock := 100;
                 tw_script := Some (line "INTERRUPT_TEST", 0%Z)
                              :: tw_script (world s_two_ports);
                 tw_log := [] |} |}.

Definition log_call (tag : string) (w : TestWorld) : TestWorld :=
  {| tw_clock := tw_clock w; tw_script := tw_script w;
     tw_log := tw_log w ++ [tag] |}.

(** Three subscribers: one that returns, one that throws a
    [std::runtime_error], one that throws an [int]. *)
Definition logging_handler (tag : string) : InterruptHandler :=
  fun _ w => (None, log_call tag w).

Definition std_throwing_handler (tag : string) : InterruptHandler :=
  fun _ w => (Some (StdException "boom"), log_call tag w).

Definition nonstd_throwing_handler (tag : string) : InterruptHandler :=
  fun _ w => (Some NonStdException, log_call tag w).

(** A fresh controller with [specific] registered for CABLE_INSERTED
    and [global] registered for every event. *)
Definition subscribed (specific global : InterruptHandler) : State :=
  final (run (registerEventHandler CABLE_INSERTED specific;;
              registerGlobalEventHandler global) s_fresh).

Definition test_sfp : SFPInfo :=
  {| sfp_port_name := "Ethernet0"; is_present := true;
     vendor_name := "Test Vendor"; part_number := "TEST-SFP-001";
     serial_number := "TST0"; connector_type := "LC"; cable_length := "1m";
     supported_speeds := [1000; 10000; 25000; 100000]%N; status := "OK" |}.

(** The port counted one link-up; a refresh that finds it in CONFIG_DB
    puts the counter back to zero. *)
Definition s_counted : State :=
  final (run (simulateCableInsertion "Ethernet0") s_listing).

(** The first three commands succeed and the fourth cannot be run: of
    a link flap, the removal goes through and the insertion fails at
    its second write. *)
Definition s_flap_fails : State :=
  {| ctl := SONiCInterruptController_new;
     world := {| tw_clock := 100;
                 tw_script := [Some (EmptyString, 0%Z); Some (EmptyString, 0%Z);
                               Some (EmptyString, 0%Z); None];
                 tw_log := [] |} |}.

(** A port brought up on a fresh controller. *)
Definition s_one_up : State :=
  api_final (CallSimulate (CableInsertion "Ethernet0")) s_fresh.


(** A subscriber for CABLE_INSERTED that throws a [std::runtime_error],
    one for CABLE_REMOVED that throws an [int], and a global one that
    logs. *)
Definition s_mixed : State :=
  final (run (registerEventHandler CABLE_REMOVED (nonstd_throwing_handler "removed"))
             (subscribed (std_throwing_handler "specific") (logging_handler "global"))).

(** The system of record answers the first command with the bytes
    u, NUL, p, newline. *)
Definition s_nul : State :=
  {| ctl := SONiCInterruptController_new;
     world := {| tw_clock := 100;
                 tw_script := [Some (("u" +:+ String nul "p")
                                     +:+ String newline EmptyString, 0%Z)];
                 tw_log := [] |} |}.

(** The connection test succeeds and the KEYS command that follows
    cannot be run. *)
Definition s_keys_fail : State :=
  {| ctl := SONiCInterruptController_new;
     world := {| tw_clock := 100;
                 tw_script := [Some (line "INTERRUPT_TEST", 0%Z); None];
                 tw_log := [] |} |}.


End Scenario.

(** ** Run equations *)

Section Theory.
Context `{Platform}.

Lemma run_bind {A B} (m : M A) (f : A -> M B) (s : State) :
  (m ≫= f) s =
  match m s with
  | (Ret a, s1, t1) => match f a s1 with (o, s2, t2) => (o, s2, t1 ++ t2) end
  | (Throw e, s1, t1) => (Throw e, s1, t1)
  end.
Proof. reflexivity. Qed.

(** Unfolding the monad, leaving the member functions folded. *)
Ltac mred :=
  cbv beta iota zeta delta
    [mbind M_bind bind mret M_ret ret throw emit get_ctl modify_ctl when
     cout cerr sleep_for now popen lock_guard try_catch_std call_handler
     ctl world fst snd negb andb outcome final trace]; cbn [app].

(** Equal traces, up to the bracketing of concatenations. *)
Ltac trace_eq :=
  rewrite ?app_nil_r; rewrite <- ?app_assoc; cbn [app]; reflexivity.

(** *** Reading the pipe *)

Lemma string_app_cons a s t : String a s +:+ t = String a (s +:+ t).
Proof. reflexivity. Qed.

Lemma string_app_nil_r s : s +:+ EmptyString = s.
Proof. induction s as [|a s IH]; [done|]. by rewrite string_app_cons, IH. Qed.

Lemma string_app_assoc s t u : (s +:+ t) +:+ u = s +:+ (t +:+ u).
Proof. induction s as [|a s IH]; [done|]. by rewrite !string_app_cons, IH. Qed.

Lemma string_length_app s t :
  String.length (s +:+ t) = String.length s + String.length t.
Proof. induction s as [|a s IH]; [done|]. rewrite string_app_cons. cbn. by rewrite IH. Qed.

Lemma nul_free_app s t : nul_free (s +:+ t) = nul_free s && nul_free t.
Proof.
  induction s as [|a s IH]; [done|]. rewrite string_app_cons. cbn.
  by rewrite IH, andb_assoc.
Qed.

Lemma c_str_nul_free s : nul_free s = true -> c_str s = s.
Proof.
  induction s as [|a s IH]; [done|]. cbn. intros [Ha Hs]%andb_true_iff.
  apply negb_true_iff in Ha. rewrite Ha. by rewrite IH.
Qed.

Lemma nul_free_c_str s : nul_free (c_str s) = true.
Proof.
  induction s as [|a s IH]; [done|]. cbn.
  destruct (Ascii.eqb a nul) eqn:E; [done|]. cbn. by rewrite E, IH.
Qed.

(** What [fgets] stores and what it leaves make up the pipe, and it
    takes at least one byte when there is one and room for it. *)
Lemma fgets_spec room : forall pipe,
  pipe = fst (fgets room pipe) +:+ snd (fgets room pipe)
  /\ (0 < room -> pipe <> EmptyString ->
      String.length (snd (fgets room pipe)) < String.length pipe).
Proof.
  induction room as [|room IH]; intros pipe; [split; [done|lia]|].
  destruct pipe as [|b rest]; [done|]. cbn [fgets].
  destruct (Ascii.eqb b newline).
  - cbn. split; [done|]. intros _ _. lia.
  - destruct (IH rest) as [Heq Hlen].
    destruct (fgets room rest) as [buffer rest']. cbn [fst snd] in *.
    rewrite string_app_cons. split; [by rewrite <- Heq|].
    intros _ _. cbn [String.length].
    pose proof (f_equal String.length Heq) as Hl.
    rewrite string_length_app in Hl. lia.
Qed.

(** The rounds [read_pipe] allows are all the loop can make. *)
Lemma read_pipe_loop_fuel fuel : forall pipe output,
  String.length pipe <= fuel ->
  read_pipe_loop fuel pipe output = read_pipe_loop (String.length pipe) pipe output.
Proof.
  induction (lt_wf fuel) as [fuel _ IH]. intros pipe output Hf.
  destruct pipe as [|b rest]; [by destruct fuel|].
  destruct fuel as [|fuel]; [cbn in Hf; lia|].
  cbn [String.length read_pipe_loop].
  destruct (fgets_spec 255 (String b rest)) as [_ Hlen].
  destruct (fgets 255 (String b rest)) as [buffer rest']. cbn [fst snd] in Hlen.
  specialize (Hlen ltac:(lia) ltac:(done)). cbn [String.length] in *.
  rewrite (IH fuel) by lia. by rewrite (IH (String.length rest)) by lia.
Qed.

(** Output without a NUL byte is accumulated as it was written. *)
Lemma read_pipe_loop_nul_free fuel : forall pipe output,
  String.length pipe <= fuel -> nul_free pipe = true ->
  read_pipe_loop fuel pipe output = output +:+ pipe.
Proof.
  induction fuel as [|fuel IH]; intros pipe output Hf Hn.
  { destruct pipe; [|cbn in Hf; lia]. by rewrite string_app_nil_r. }
  destruct pipe as [|b rest]; [by rewrite string_app_nil_r|].
  cbn [read_pipe_loop].
  destruct (fgets_spec 255 (String b rest)) as [Heq Hlen].
  destruct (fgets 255 (String b rest)) as [buffer rest']. cbn [fst snd] in *.
  specialize (Hlen ltac:(lia) ltac:(done)).
  rewrite Heq, nul_free_app in Hn. apply andb_true_iff in Hn as [Hb Hr].
  rewrite IH; [|cbn [String.length] in *; lia|done].
  by rewrite c_str_nul_free, string_app_assoc, <- Heq.
Qed.

Lemma read_pipe_nul_free pipe : nul_free pipe = true -> read_pipe pipe = pipe.
Proof. intros Hn. unfold read_pipe. by rewrite read_pipe_loop_nul_free. Qed.

(** Whatever was written, what is accumulated holds no NUL byte. *)
Lemma nul_free_read_pipe_loop fuel : forall pipe output,
  nul_free output = true -> nul_free (read_pipe_loop fuel pipe output) = true.
Proof.
  induction fuel as [|fuel IH]; intros pipe output Ho; [done|].
  destruct pipe as [|b rest]; [done|]. cbn [read_pipe_loop].
  destruct (fgets 255 (String b rest)) as [buffer rest'].
  apply IH. by rewrite nul_free_app, Ho, nul_free_c_str.
Qed.

Lemma nul_free_read_pipe pipe : nul_free (read_pipe pipe) = true.
Proof. by apply nul_free_read_pipe_loop. Qed.

(** A line that fits the buffer is read by one call of [fgets], and
    what follows a NUL byte in it is lost with its newline. *)
Lemma fgets_line room : forall line,
  newline_free line = true -> String.length line < room ->
  fgets room (line +:+ String newline EmptyString)
  = (line +:+ String newline EmptyString, EmptyString).
Proof.
  induction room as [|room IH]; intros line Hn Hl; [lia|].
  destruct line as [|b line].
  - reflexivity.
  - rewrite string_app_cons. cbn [fgets]. cbn in Hn, Hl.
    apply andb_true_iff in Hn as [Hb Hn]. apply negb_true_iff in Hb.
    rewrite Hb, IH by (done || lia). done.
Qed.

Lemma c_str_app_nul value rest :
  nul_free value = true -> c_str (value +:+ String nul rest) = value.
Proof.
  induction value as [|b value IH]; [done|]. rewrite string_app_cons. cbn.
  intros [Hb Hv]%andb_true_iff. apply negb_true_iff in Hb. by rewrite Hb, IH.
Qed.

Lemma read_pipe_loop_step fuel pipe output :
  pipe <> EmptyString ->
  read_pipe_loop (S fuel) pipe output
  = read_pipe_loop fuel (snd (fgets 255 pipe)) (output +:+ c_str (fst (fgets 255 pipe))).
Proof.
  destruct pipe as [|b rest]; [done|]. intros _. cbn [read_pipe_loop].
  by destruct (fgets 255 (String b rest)).
Qed.

Lemma read_pipe_line_with_nul value rest :
  nul_free value = true -> newline_free (value +:+ String nul rest) = true ->
  String.length (value +:+ String nul rest) < 255 ->
  read_pipe ((value +:+ String nul rest) +:+ String newline EmptyString) = value.
Proof.
  intros Hv Hn Hl. unfold read_pipe.
  destruct (String.length ((value +:+ String nul rest) +:+ String newline EmptyString))
    as [|fuel] eqn:E.
  { rewrite string_length_app in E. cbn in E. lia. }
  rewrite read_pipe_loop_step.
  2:{ intros Ep. apply (f_equal String.length) in Ep.
      rewrite string_length_app in Ep. cbn in Ep. lia. }
  rewrite fgets_line by done. cbn [fst snd].
  rewrite string_app_assoc, string_app_cons, c_str_app_nul by done.
  by destruct fuel.
Qed.

Lemma executeSONiCCommand_run command output c w :
  executeSONiCCommand command output (mkState c w) =
  let full_command := docker_exec c command in
  let rw := popen_pclose (c_str full_command) w in
  (Ret (popen_ok (fst rw),
        match fst rw with Some _ => answer_of (fst rw) | None => output end),
   mkState c (snd rw), exec_trace c full_command (fst rw)).
Proof.
  unfold executeSONiCCommand, exec_trace, docker_exec, popen_ok. mred.
  destruct (m_verbose_debug c); mred;
    destruct (popen_pclose _ w) as [[[out z]|] w']; mred;
    try destruct (z =? 0)%Z; reflexivity.
Qed.

Lemma executeRedisCommand_run command db_id output c w :
  executeRedisCommand command db_id output (mkState c w) =
  let rw := popen_pclose (c_str (redis_cli c command db_id)) w in
  (Ret (popen_ok (fst rw),
        match fst rw with Some _ => answer_of (fst rw) | None => output end),
   mkState c (snd rw), exec_trace c (redis_cli c command db_id) (fst rw)).
Proof. unfold executeRedisCommand. by rewrite executeSONiCCommand_run. Qed.

Lemma setRedisHashField_run key field value db_id c w :
  setRedisHashField key field value db_id (mkState c w) =
  let rw := popen_pclose (c_str (hset_command c key field value db_id)) w in
  (Ret (popen_ok (fst rw)), mkState c (snd rw),
   exec_trace c (hset_command c key field value db_id) (fst rw)).
Proof.
  unfold setRedisHashField. rewrite run_bind, executeRedisCommand_run.
  unfold hset_command. cbn zeta. mred. by rewrite app_nil_r.
Qed.

Lemma getRedisHashField_run key field db_id c w :
  getRedisHashField key field db_id (mkState c w) =
  let rw := popen_pclose (c_str (hget_command c key field db_id)) w in
  (Ret (hget_value (fst rw)), mkState c (snd rw),
   exec_trace c (hget_command c key field db_id) (fst rw)).
Proof.
  unfold getRedisHashField. rewrite run_bind, executeRedisCommand_run.
  unfold hget_command, hget_value, popen_ok. cbn zeta.
  destruct (popen_pclose _ w) as [[[out z]|] w']; mred;
    try destruct (z =? 0)%Z; mred; by rewrite ?app_nil_r.
Qed.

(** The state a simulate operation starts from: the entry of the port,
    or the default state stamped with the current time. *)
Lemma getPortLinkStateUnsafe_run name c w :
  getPortLinkStateUnsafe name (mkState c w) =
  match m_port_states c !! name with
  | Some st => (Ret st, mkState c w, [])
  | None =>
      (Ret (default_state name (fst (system_clock_now w))),
       mkState c (snd (system_clock_now w)), [])
  end.
Proof.
  unfold getPortLinkStateUnsafe. mred.
  destruct (m_port_states c !! name); [reflexivity|].
  mred. by destruct (system_clock_now w).
Qed.

(** *** Observers and concatenation *)

Lemma popens_app t1 t2 : popens (t1 ++ t2) = popens t1 ++ popens t2.
Proof.
  induction t1 as [|a t1 IH]; [reflexivity|].
  destruct a; cbn; rewrite ?IH; reflexivity.
Qed.

Lemma invocations_app t1 t2 :
  invocations (t1 ++ t2) = invocations t1 ++ invocations t2.
Proof.
  induction t1 as [|a t1 IH]; [reflexivity|].
  destruct a; cbn; rewrite ?IH; reflexivity.
Qed.

Lemma invoked_slots_app t1 t2 :
  invoked_slots (t1 ++ t2) = invoked_slots t1 ++ invoked_slots t2.
Proof. unfold invoked_slots. by rewrite invocations_app, fmap_app. Qed.

Lemma write_failed_app t1 t2 :
  write_failed (t1 ++ t2) = write_failed t1 || write_failed t2.
Proof. unfold write_failed. by rewrite popens_app, existsb_app. Qed.

Lemma held_at_io_app held t1 t2 :
  held_at_io held (t1 ++ t2) =
  held_at_io held t1 ++ held_at_io (held_after held t1) t2.
Proof.
  revert held. induction t1 as [|a t1 IH]; intros held; [reflexivity|].
  destruct a; cbn; rewrite ?IH; reflexivity.
Qed.

Lemma held_after_app held t1 t2 :
  held_after held (t1 ++ t2) = held_after (held_after held t1) t2.
Proof.
  revert held. induction t1 as [|a t1 IH]; intros held; [reflexivity|].
  destruct a; cbn; rewrite ?IH; reflexivity.
Qed.

Lemma held_at_io_no_popen held tr : popens tr = [] -> held_at_io held tr = [].
Proof.
  revert held. induction tr as [|a tr IH]; intros held Hp; [reflexivity|].
  destruct a; cbn in *; try discriminate; auto.
Qed.

Lemma errors_logged_skip t1 t2 :
  invocations t1 = [] -> errors_logged (t1 ++ t2) = errors_logged t2.
Proof.
  induction t1 as [|a t1 IH]; intros Hi; [reflexivity|].
  destruct a; cbn in *; try discriminate; auto.
Qed.

(** *** One shell command *)

Lemma popens_exec_trace c cmd r : popens (exec_trace c cmd r) = [r].
Proof.
  unfold exec_trace.
  destruct (m_verbose_debug c), r as [[out z]|]; cbn;
    try destruct (z =? 0)%Z; reflexivity.
Qed.

Lemma invocations_exec_trace c cmd r : invocations (exec_trace c cmd r) = [].
Proof.
  unfold exec_trace.
  destruct (m_verbose_debug c), r as [[out z]|]; cbn;
    try destruct (z =? 0)%Z; reflexivity.
Qed.

Lemma held_after_exec_trace held c cmd r :
  held_after held (exec_trace c cmd r) = held.
Proof.
  unfold exec_trace.
  destruct (m_verbose_debug c), r as [[out z]|]; cbn;
    try destruct (z =? 0)%Z; reflexivity.
Qed.

Lemma held_at_io_exec_trace held c cmd r :
  held_at_io held (exec_trace c cmd r) = [held].
Proof.
  unfold exec_trace.
  destruct (m_verbose_debug c), r as [[out z]|]; cbn;
    try destruct (z =? 0)%Z; reflexivity.
Qed.

Lemma write_failed_exec_trace c cmd r :
  write_failed (exec_trace c cmd r) = negb (popen_ok r).
Proof.
  unfold write_failed. rewrite popens_exec_trace. cbn. by rewrite orb_false_r.
Qed.

(** *** Dispatch *)

Lemma dispatch_run slot_of label ev hs : forall i c w,
  (forall j, slot_label (slot_of j) = label) ->
  exists o w' tr,
    dispatch slot_of label i hs ev (mkState c w) = (o, mkState c w', tr)
    /\ dispatch_facts (slot_of <$> seq i (List.length hs)) hs ev o tr.
Proof.
  induction hs as [|h hs IH]; intros i c w Hl.
  - exists (Ret tt), w, []. split; [reflexivity|].
    repeat split; cbn; auto.
  - destruct (IH (S i) c (snd (h ev w)) Hl) as (o & w' & tr & Hrun & Hf).
    destruct Hf as (Hp & Ho & Hall & Hpre & Hstd & Hlog & Hev).
    cbn [dispatch]. rewrite run_bind.
    unfold try_catch_std, call_handler. cbn [ctl world].
    destruct (h ev w) as [[[what|]|] w1] eqn:Hh; cbn [snd] in *.
    + (* a std::exception: caught and reported *)
      mred. rewrite Hrun. exists o, w', (Invoke (slot_of i) ev (Some (StdException what))
                              :: Cerr (label +:+ what) :: tr).
      split; [reflexivity|]. repeat split; cbn; auto.
      * intros Hr. unfold invoked_slots in *. cbn. f_equal. auto.
      * unfold invoked_slots in *. cbn. by apply prefix_cons.
      * intros Hs. apply Hstd. by inversion Hs.
      * intros rest. rewrite Hl. rewrite bool_decide_eq_true_2 by reflexivity.
        cbn. apply Hlog.
    + (* anything else: passes through, the loop is abandoned *)
      mred. exists (Throw NonStdException), w1, [Invoke (slot_of i) ev (Some NonStdException)].
      split; [reflexivity|]. repeat split; cbn; auto.
      * discriminate.
      * unfold invoked_slots. cbn. apply prefix_cons, prefix_nil.
      * intros Hs. inversion Hs as [|? ? Hh' _]; subst.
        specialize (Hh' ev w). rewrite Hh in Hh'. by destruct Hh'.
    + (* the handler returned *)
      mred. rewrite Hrun. exists o, w', (Invoke (slot_of i) ev None :: tr).
      split; [reflexivity|]. repeat split; cbn; auto.
      * intros Hr. unfold invoked_slots in *. cbn. f_equal. auto.
      * unfold invoked_slots in *. cbn. by apply prefix_cons.
      * intros Hs. apply Hstd. by inversion Hs.
Qed.

Lemma handlers_std_only_all c k :
  handlers_std_only c -> Forall std_only (all_handlers c k).
Proof.
  intros [Hs Hg]. unfold all_handlers. apply Forall_app. split; [|done].
  destruct (m_event_handlers c !! k) eqn:E; cbn; eauto.
Qed.

Lemma triggerEvent_run ev c w :
  exists o w' dtr,
    triggerEvent ev (mkState c w) =
      (o, mkState (publish ev c) w',
       Lock m_event_mutex :: Cout (log_line ev) :: Lock m_handler_mutex
       :: dtr ++ [Unlock m_handler_mutex; Unlock m_event_mutex])
    /\ dispatch_facts (dispatch_order c (event_type ev))
                      (all_handlers c (event_type ev)) ev o dtr.
Proof.
  unfold triggerEvent, logEvent, dispatch_order, all_handlers. fold (log_line ev).
  destruct (dispatch_run GlobalSlot global_label ev (m_global_handlers c) 0
              (publish ev c)) with (w := w) as (og0 & wg0 & tg0 & _); [done|].
  clear og0 wg0 tg0.
  destruct (m_event_handlers c !! event_type ev) as [hs|] eqn:Ehs.
  - destruct (dispatch_run (SpecificSlot (event_type ev)) specific_label ev hs 0 (publish ev c) w)
      as (o1 & w1 & t1 & Hrun1 & Hf1); [done|].
    destruct (dispatch_run GlobalSlot global_label ev (m_global_handlers c) 0
                (publish ev c) w1) as (o2 & w2 & t2 & Hrun2 & Hf2); [done|].
    destruct Hf1 as (Hp1 & Ho1 & Hall1 & Hpre1 & Hstd1 & Hlog1 & Hev1).
    destruct Hf2 as (Hp2 & Ho2 & Hall2 & Hpre2 & Hstd2 & Hlog2 & Hev2).
    mred. unfold publish, set_event_log in *. cbn. rewrite Ehs.
    mred. rewrite Hrun1.
    destruct Ho1 as [-> | ->].
    + mred. rewrite Hrun2. exists o2, w2, (t1 ++ t2).
      split; [destruct o2; mred; trace_eq|].
      unfold slots_of. cbn.
      repeat split.
      * by rewrite popens_app, Hp1, Hp2.
      * done.
      * intros Hr. rewrite invoked_slots_app, Hall1, Hall2; auto.
      * rewrite invoked_slots_app, Hall1 by done. by apply prefix_app.
      * intros Hs. apply Forall_app in Hs as [_ Hs]. auto.
      * intros rest. by rewrite <- app_assoc, Hlog1, Hlog2.
      * rewrite invocations_app. by apply Forall_app.
    + exists (Throw NonStdException), w1, t1.
      split; [mred; trace_eq|].
      unfold slots_of. cbn.
      repeat split; auto.
      * discriminate.
      * by apply prefix_app_r.
      * intros Hs. apply Forall_app in Hs as [Hs _]. auto.
  - destruct (dispatch_run GlobalSlot global_label ev (m_global_handlers c) 0
                (publish ev c) w) as (o2 & w2 & t2 & Hrun2 & Hf2); [done|].
    mred. unfold publish, set_event_log in *. cbn. rewrite Ehs.
    mred. rewrite Hrun2. exists o2, w2, t2.
    split; [destruct o2; mred; trace_eq|].
    exact Hf2.
Qed.

(** *** The simulate operations *)

(** Evaluating the observers on a trace built from known pieces. *)
Ltac obs :=
  unfold write_failed, invoked_slots;
  repeat first
    [ progress cbn [popens invocations held_at_io held_after app existsb
                    fmap list_fmap filter list_filter negb orb andb]
    | rewrite popens_app | rewrite invocations_app
    | rewrite held_at_io_app | rewrite held_after_app
    | rewrite popens_exec_trace | rewrite invocations_exec_trace
    | rewrite held_at_io_exec_trace | rewrite held_after_exec_trace
    | rewrite existsb_app ].

Lemma current_state_some c name st t :
  m_port_states c !! name = Some st -> current_state c name t = st.
Proof. unfold current_state. by intros ->. Qed.

Lemma current_state_none c name t :
  m_port_states c !! name = None -> current_state c name t = default_state name t.
Proof. unfold current_state. by intros ->. Qed.

(** One step of running a simulate operation. *)
Ltac sim_step :=
  mred;
  first
    [ rewrite getPortLinkStateUnsafe_run
    | rewrite setRedisHashField_run; cbn zeta
    | match goal with
      | |- context [m_port_states ?c !! ?n] =>
          destruct (m_port_states c !! n) eqn:?
      | |- context [popen_pclose ?cmd ?w] =>
          let r := fresh "r" in
          let w' := fresh "w" in
          destruct (popen_pclose cmd w) as [r w'] eqn:?; cbn [fst snd]
      | |- context [popen_ok ?r] => is_var r; destruct (popen_ok r) eqn:?
      | |- context [system_clock_now ?w] =>
          let t := fresh "t" in
          let w' := fresh "w" in
          destruct (system_clock_now w) as [t w'] eqn:?; cbn [fst snd]
      | |- context [triggerEvent ?ev (mkState ?c ?w)] =>
          let o := fresh "o" in
          let w' := fresh "w" in
          let dtr := fresh "dtr" in
          let Hf := fresh "Hf" in
          destruct (triggerEvent_run ev c w) as (o & w' & dtr & -> & Hf)
      end ].

Ltac use_popen_ok :=
  repeat match goal with H : popen_ok _ = _ |- _ => rewrite H end.

(** The operation stopped at a failed external command. *)
Ltac sim_failed :=
  eapply sim_write_failed;
  [ done | obs; use_popen_ok; reflexivity | obs; reflexivity | obs; reflexivity ].

Ltac sim_commits :=
  match goal with
  | Ho : m_port_states ?c !! ?n = Some ?l |- commits _ _ _ _ =>
      rewrite <- (current_state_some c n l 0%Z Ho); constructor
  | Ho : m_port_states ?c !! ?n = None |- context [default_state ?n ?t] =>
      rewrite <- (current_state_none c n t Ho); constructor
  | |- _ => constructor
  end.

(** The operation went through to [triggerEvent]. *)
Ltac sim_done Hf :=
  let Hp := fresh "Hp" in
  let Hl := fresh "Hl" in
  pose proof Hf as (Hp & [-> | ->] & _ & _ & _ & Hl & _);
  (mred;
   (eapply (sim_committed _ _ _ _ _ _ (Ret tt)) ||
    eapply (sim_committed _ _ _ _ _ _ (Throw NonStdException)));
  [ done
  | sim_commits
  | exact Hf
  | obs; use_popen_ok; rewrite ?Hp; reflexivity
  | obs; discriminate
  | obs; rewrite ?Hp, ?app_nil_r; reflexivity
  | repeat first
      [ rewrite <- app_assoc
      | progress cbn [errors_logged app]
      | rewrite errors_logged_skip by apply invocations_exec_trace ];
    rewrite Hl; reflexivity
  | obs; rewrite ?Hp, ?(held_at_io_no_popen _ _ Hp); reflexivity ]).

Lemma simulateCableInsertion_cases name c w :
  sim_result (CableInsertion name) c w (simulateCableInsertion name (mkState c w)).
Proof.
  unfold simulateCableInsertion.
  destruct (validatePortName name) eqn:Hv.
  2:{ mred. by apply sim_rejected. }
  repeat sim_step; try sim_failed; sim_done Hf.
Qed.

Lemma simulateCableRemoval_cases name c w :
  sim_result (CableRemoval name) c w (simulateCableRemoval name (mkState c w)).
Proof.
  unfold simulateCableRemoval.
  destruct (validatePortName name) eqn:Hv.
  2:{ mred. by apply sim_rejected. }
  repeat sim_step; try sim_failed; sim_done Hf.
Qed.

Lemma simulateSFPInsertion_cases name sfp_info c w :
  sim_result (SFPInsertion name sfp_info) c w
             (simulateSFPInsertion name sfp_info (mkState c w)).
Proof.
  unfold simulateSFPInsertion.
  destruct (validatePortName name) eqn:Hv.
  2:{ mred. by apply sim_rejected. }
  repeat sim_step; try sim_failed; sim_done Hf.
Qed.

Lemma simulateSFPRemoval_cases name c w :
  sim_result (SFPRemoval name) c w (simulateSFPRemoval name (mkState c w)).
Proof.
  unfold simulateSFPRemoval.
  destruct (validatePortName name) eqn:Hv.
  2:{ mred. by apply sim_rejected. }
  repeat sim_step; try sim_failed; sim_done Hf.
Qed.

(** Every run of a simulate operation is of one of the three kinds. *)
Lemma simulate_cases op c w : sim_result op c w (simulate op (mkState c w)).
Proof.
  destruct op; cbn [simulate].
  - apply simulateCableInsertion_cases.
  - apply simulateCableRemoval_cases.
  - apply simulateSFPInsertion_cases.
  - apply simulateSFPRemoval_cases.
Qed.

(** ** Properties of the simulate operations *)

Lemma write_failed_no_popen tr : popens tr = [] -> write_failed tr = false.
Proof. unfold write_failed. by intros ->. Qed.

(** C1. Atomicity on external failure: when a command of the write-through
    fails, the simulate operation returns [false], the controller object is
    exactly what it was (so the port's LinkState and SFP entry, the event
    history and the statistics are unchanged) and no handler is called. *)
Theorem write_failure_is_atomic (op : SimulateOp) (s : State) :
  write_failed (trace (run (simulate op) s)) = true ->
  outcome (run (simulate op) s) = Ret false
  /\ ctl (final (run (simulate op) s)) = ctl s
  /\ m_port_states (ctl (final (run (simulate op) s))) !! op_port op
     = m_port_states (ctl s) !! op_port op
  /\ m_sfp_info (ctl (final (run (simulate op) s))) !! op_port op
     = m_sfp_info (ctl s) !! op_port op
  /\ m_event_history (ctl (final (run (simulate op) s))) = m_event_history (ctl s)
  /\ m_event_statistics (ctl (final (run (simulate op) s)))
     = m_event_statistics (ctl s)
  /\ invocations (trace (run (simulate op) s)) = [].
Proof.
  destruct s as [c w]. unfold run.
  destruct (simulate_cases op c w) as [tr Hv Hp Hi | w' tr Hv Hw Hi Hh
                                      | c' ev w' o dtr tr Hv Hc Hf Hw Hn Hi Hl Hh];
    cbn [outcome final trace ctl fst snd]; intros Hfail.
  - by rewrite (write_failed_no_popen _ Hp) in Hfail.
  - by repeat split.
  - congruence.
Qed.


(** A simulate operation that returns [true] has committed: it has
    updated the controller as [commits] says, recorded the event, and run
    the whole dispatch. *)
Lemma simulate_success op c w :
  outcome (simulate op (mkState c w)) = Ret true ->
  exists c' ev dtr,
    commits op c c' ev
    /\ ctl (final (simulate op (mkState c w))) = publish ev c'
    /\ dispatch_facts (dispatch_order c (op_kind op))
                      (all_handlers c (op_kind op)) ev (Ret tt) dtr
    /\ invocations (trace (simulate op (mkState c w))) = invocations dtr.
Proof.
  destruct (simulate_cases op c w) as [tr Hv Hp Hi | w' tr Hv Hw Hi Hh
                                      | c' ev w' o dtr tr Hv Hc Hf Hw Hn Hi Hl Hh];
    cbn [outcome final trace ctl fst snd]; intros Ho; try discriminate.
  exists c', ev, dtr. pose proof Hf as (_ & [-> | ->] & _); [|discriminate].
  done.
Qed.

Lemma commits_kind op c c' ev : commits op c c' ev -> event_type ev = op_kind op.
Proof. by destruct 1. Qed.

Lemma commits_port op c c' ev : commits op c c' ev -> ev_port_name ev = op_port op.
Proof. by destruct 1. Qed.



(** C3, as the code has it: the event a successful SFP insertion records
    carries the fixed statuses DOWN -> UP, and the one a successful SFP
    removal records carries UP -> DOWN, whatever the State Store says about
    the port. *)
Theorem sfp_event_statuses_are_fixed (name : string) (sfp_info : SFPInfo) (s : State) :
  (outcome (run (simulateSFPInsertion name sfp_info) s) = Ret true ->
   exists t,
     m_event_history (ctl (final (run (simulateSFPInsertion name sfp_info) s)))
     = m_event_history (ctl s)
       ++ [{| ev_port_name := name; event_type := SFP_INSERTED;
              old_status := DOWN; new_status := UP;
              ev_speed_mbps := indeterminate_u32; ev_duplex := EmptyString;
              timestamp := t; additional_info := "SFP insertion simulated" |}])
  /\ (outcome (run (simulateSFPRemoval name) s) = Ret true ->
      exists t,
        m_event_history (ctl (final (run (simulateSFPRemoval name) s)))
        = m_event_history (ctl s)
          ++ [{| ev_port_name := name; event_type := SFP_REMOVED;
                 old_status := UP; new_status := DOWN;
                 ev_speed_mbps := indeterminate_u32; ev_duplex := EmptyString;
                 timestamp := t; additional_info := "SFP removal simulated" |}]).
Proof.
  destruct s as [c w]. unfold run. split; intros Ho.
  - destruct (simulate_success (SFPInsertion name sfp_info) c w Ho)
      as (c' & ev & dtr & Hc & Hctl & _).
    cbn [simulate] in Hctl. rewrite Hctl. inversion Hc; subst. by eexists.
  - destruct (simulate_success (SFPRemoval name) c w Ho)
      as (c' & ev & dtr & Hc & Hctl & _).
    cbn [simulate] in Hctl. rewrite Hctl. inversion Hc; subst. by eexists.
Qed.

(** *** The handler calls of a dispatch *)

Lemma handler_calls_app ev (s1 s2 : list HandlerSlot) (h2 : list InterruptHandler) :
  forall (h1 : list InterruptHandler) w,
  List.length s1 = List.length h1 ->
  handler_calls (s1 ++ s2) (h1 ++ h2) ev w
  = if cut_short (fst (handler_calls s1 h1 ev w))
    then handler_calls s1 h1 ev w
    else (fst (handler_calls s1 h1 ev w)
            ++ fst (handler_calls s2 h2 ev (snd (handler_calls s1 h1 ev w))),
          snd (handler_calls s2 h2 ev (snd (handler_calls s1 h1 ev w)))).
Proof.
  induction s1 as [|slot s1 IH]; intros [|h h1] w Hlen; try discriminate.
  { cbn. by destruct (handler_calls s2 h2 ev w). }
  cbn [app handler_calls]. injection Hlen as Hlen.
  destruct (foreign (fst (h ev w))) eqn:Hf.
  - cbn. by rewrite Hf.
  - rewrite (IH h1 (snd (h ev w)) Hlen). cbn [fst snd cut_short existsb]. rewrite Hf.
    cbn [orb]. fold (cut_short (fst (handler_calls s1 h1 ev (snd (h ev w))))).
    by destruct (cut_short _).
Qed.

Lemma dispatch_calls slot_of label ev hs : forall i c w,
  exists tr,
    dispatch slot_of label i hs ev (mkState c w)
    = (if cut_short (fst (handler_calls (slot_of <$> seq i (List.length hs)) hs ev w))
       then Throw NonStdException else Ret tt,
       mkState c (snd (handler_calls (slot_of <$> seq i (List.length hs)) hs ev w)),
       tr)
    /\ invocations tr
       = fst (handler_calls (slot_of <$> seq i (List.length hs)) hs ev w).
Proof.
  induction hs as [|h hs IH]; intros i c w.
  { exists []. by cbn. }
  destruct (IH (S i) c (snd (h ev w))) as (tr & Hrun & Hinv).
  cbn [dispatch List.length seq fmap list_fmap handler_calls]. rewrite run_bind.
  unfold try_catch_std, call_handler. cbn [ctl world].
  destruct (h ev w) as [[[what|]|] w1]; cbn [fst snd foreign] in *.
  - mred. rewrite Hrun. eexists. split; [reflexivity|]. cbn. by rewrite Hinv.
  - mred. eexists. split; reflexivity.
  - mred. rewrite Hrun. eexists. split; [reflexivity|]. cbn. by rewrite Hinv.
Qed.

Lemma length_slots_of slot_of n : List.length (slots_of slot_of n) = n.
Proof. unfold slots_of. by rewrite length_fmap, length_seq. Qed.

Lemma length_dispatch_order c k :
  List.length (dispatch_order c k) = List.length (all_handlers c k).
Proof.
  unfold dispatch_order, all_handlers. by rewrite !length_app, !length_slots_of.
Qed.

(** [triggerEvent] records the event and then makes the calls of
    [handler_calls] over the kind-specific handlers followed by the
    global ones. *)
Lemma triggerEvent_calls ev c w :
  exists tr,
    triggerEvent ev (mkState c w)
    = (if cut_short (fst (handler_calls (dispatch_order c (event_type ev))
                                        (all_handlers c (event_type ev)) ev w))
       then Throw NonStdException else Ret tt,
       mkState (publish ev c)
               (snd (handler_calls (dispatch_order c (event_type ev))
                                   (all_handlers c (event_type ev)) ev w)),
       tr)
    /\ invocations tr
       = fst (handler_calls (dispatch_order c (event_type ev))
                            (all_handlers c (event_type ev)) ev w).
Proof.
  unfold dispatch_order, all_handlers.
  rewrite handler_calls_app by apply length_slots_of.
  unfold slots_of.
  destruct (dispatch_calls (SpecificSlot (event_type ev)) specific_label ev
              (default [] (m_event_handlers c !! event_type ev)) 0
              (publish ev c) w) as (t1 & Hrun1 & Hinv1).
  destruct (handler_calls (SpecificSlot (event_type ev) <$> _) _ ev w)
    as [calls1 w1] eqn:E1.
  cbn [fst snd] in *.
  destruct (dispatch_calls GlobalSlot global_label ev (m_global_handlers c) 0
              (publish ev c) w1) as (t2 & Hrun2 & Hinv2).
  destruct (handler_calls (GlobalSlot <$> _) _ ev w1) as [calls2 w2] eqn:E2.
  cbn [fst snd] in *.
  assert (Hnone : m_event_handlers c !! event_type ev = None ->
                  calls1 = [] /\ w1 = w).
  { intros Hn. rewrite Hn in E1. cbn in E1. by injection E1 as <- <-. }
  unfold triggerEvent, logEvent. mred.
  unfold publish, set_event_log in *. cbn.
  destruct (m_event_handlers c !! event_type ev) as [hs|] eqn:Ehs;
    cbn [default from_option id] in *; mred.
  - rewrite Hrun1. destruct (cut_short calls1) eqn:Hcut; mred.
    + rewrite Hcut. eexists. split; [reflexivity|].
      cbn [invocations]. rewrite !invocations_app, Hinv1. cbn [invocations].
      by rewrite !app_nil_r.
    + rewrite Hrun2. unfold cut_short in *. rewrite existsb_app, Hcut. cbn [orb].
      destruct (existsb _ calls2); mred.
      all: eexists; split; [reflexivity|]; cbn [invocations].
      all: rewrite !invocations_app, Hinv1, Hinv2; cbn [invocations].
      all: by rewrite !app_nil_r.
  - destruct (Hnone eq_refl) as [-> ->]. rewrite Hrun2.
    unfold cut_short in *. cbn [existsb app].
    destruct (existsb _ calls2); mred.
    all: eexists; split; [reflexivity|]; cbn [invocations].
    all: rewrite !invocations_app, Hinv2; cbn [invocations].
    all: by rewrite !app_nil_r.
Qed.

(** One step of running a simulate operation, keeping the handler calls
    of [triggerEvent]. *)
Ltac calls_step :=
  mred;
  first
    [ rewrite getPortLinkStateUnsafe_run
    | rewrite setRedisHashField_run; cbn zeta
    | match goal with
      | |- context [m_port_states ?c !! ?n] =>
          destruct (m_port_states c !! n) eqn:?
      | |- context [popen_pclose ?cmd ?w] =>
          let r := fresh "r" in
          let w' := fresh "w" in
          destruct (popen_pclose cmd w) as [r w'] eqn:?; cbn [fst snd]
      | |- context [popen_ok ?r] => is_var r; destruct (popen_ok r) eqn:?
      | |- context [system_clock_now ?w] =>
          let t := fresh "t" in
          let w' := fresh "w" in
          destruct (system_clock_now w) as [t w'] eqn:?; cbn [fst snd]
      | |- context [triggerEvent ?ev (mkState ?c ?w)] =>
          let tr := fresh "tr" in
          let Hinv := fresh "Hinv" in
          destruct (triggerEvent_calls ev c w) as (tr & -> & Hinv);
          match goal with
          | |- context [cut_short ?x] => destruct (cut_short x) eqn:?
          end
      end ].

(** Replaying the write-through in [world_before_dispatch]. *)
Ltac replay :=
  unfold world_before_dispatch, after_writes, tick, write_commands;
  cbn [foldl fst snd];
  repeat first
    [ progress cbn [fst snd]
    | match goal with
      | H : popen_pclose _ _ = _ |- _ => rewrite H
      | H : system_clock_now _ = _ |- _ => rewrite H
      | H : m_port_states _ !! _ = _ |- _ => rewrite H
      end ].

Ltac calls_done :=
  mred; unfold refused_or_dispatched;
  first
    [ left; reflexivity
    | right; unfold dispatched;
      cbn [outcome final trace ctl world fst snd];
      eexists;
      split; [unfold publish, set_event_log; cbn [m_event_history]; apply last_snoc|];
      split; [reflexivity|]; split; [reflexivity|];
      repeat first [ progress cbn [invocations app]
                   | rewrite invocations_app
                   | rewrite invocations_exec_trace ];
      match goal with H : invocations _ = _ |- _ => rewrite ?H end;
      rewrite ?app_nil_r;
      split; [replay; reflexivity|];
      split; [replay; reflexivity|];
      match goal with
      | H : cut_short _ = _ |- _ => rewrite H; reflexivity
      end ].

(** Every run of a simulate operation either returns [false] or has
    made the handler calls of its event, from the world its
    write-through left. *)
Lemma simulate_dispatched op c w :
  refused_or_dispatched op c w (simulate op (mkState c w)).
Proof.
  destruct op as [name|name|name sfp_info|name]; cbn [simulate].
  - unfold simulateCableInsertion.
    destruct (validatePortName name); [|calls_done].
    repeat calls_step; calls_done.
  - unfold simulateCableRemoval.
    destruct (validatePortName name); [|calls_done].
    repeat calls_step; calls_done.
  - unfold simulateSFPInsertion.
    destruct (validatePortName name); [|calls_done].
    repeat calls_step; calls_done.
  - unfold simulateSFPRemoval.
    destruct (validatePortName name); [|calls_done].
    repeat calls_step; calls_done.
Qed.


(** What a published run has done, in the terms of [dispatch_facts] and
    of [dispatched] together. *)
Lemma simulate_published op c w :
  outcome (simulate op (mkState c w)) <> Ret false ->
  validatePortName (op_port op) = true
  /\ write_failed (trace (simulate op (mkState c w))) = false
  /\ errors_logged (trace (simulate op (mkState c w))) = true
  /\ invoked_slots (trace (simulate op (mkState c w)))
     `prefix_of` dispatch_order c (op_kind op)
  /\ (outcome (simulate op (mkState c w)) = Ret true ->
      invoked_slots (trace (simulate op (mkState c w))) = dispatch_order c (op_kind op))
  /\ dispatched op c w (simulate op (mkState c w)).
Proof.
  intros Ho.
  destruct (simulate_dispatched op c w) as [?|Hd]; [done|].
  destruct (simulate_cases op c w) as [tr Hv Hp Hi | w' tr Hv Hw Hi Hh
                                      | c' ev w' o dtr tr Hv Hc Hf Hw Hn Hi Hl Hh];
    cbn [outcome final trace ctl fst snd] in *; try done.
  destruct Hf as (_ & Hor & Hall & Hpre & _).
  split; [done|]. split; [done|]. split; [done|].
  unfold invoked_slots. rewrite Hi. split; [exact Hpre|]. split; [|done].
  intros Hr. apply Hall. destruct Hor as [-> | ->]; [done|discriminate].
Qed.

Lemma published_iff op c w :
  outcome (simulate op (mkState c w)) <> Ret false
  <-> validatePortName (op_port op) = true
      /\ write_failed (trace (simulate op (mkState c w))) = false.
Proof.
  split.
  - intros Ho. by destruct (simulate_published op c w Ho) as (? & ? & _).
  - intros [Hv Hw].
    destruct (simulate_cases op c w) as [tr Hv' Hp Hi | w' tr Hv' Hw' Hi Hh
                                        | c' ev w' o dtr tr Hv' Hc Hf Hw' Hn Hi Hl Hh];
      cbn [outcome final trace ctl fst snd] in *; try congruence.
    by destruct o.
Qed.


(** C5, as the code has it. In a run of a simulate operation whose port
    is valid and whose write-through succeeded, the handlers are called
    one after the other as [handler_calls] says, every
    [std::exception] is reported on [std::cerr] right after the call
    that raised it, and dispatch goes on to the next handler. When no
    call of the run raised anything but a [std::exception] the
    operation returns [true] after calling every handler, kind-specific
    and global; otherwise the run ends in that exception. In particular,
    when no registered handler can raise anything but a
    [std::exception], a simulate operation never ends in an exception,
    and returns [true] whenever its write-through succeeded. *)
Theorem std_exceptions_are_isolated (op : SimulateOp) (s : State) :
  (validatePortName (op_port op) = true ->
   write_failed (trace (run (simulate op) s)) = false ->
   errors_logged (trace (run (simulate op) s)) = true
   /\ (exists ev,
         invocations (trace (run (simulate op) s))
         = fst (handler_calls (dispatch_order (ctl s) (op_kind op))
                              (all_handlers (ctl s) (op_kind op)) ev
                              (world_before_dispatch op (ctl s) (world s))))
   /\ (cut_short (invocations (trace (run (simulate op) s))) = false ->
       outcome (run (simulate op) s) = Ret true
       /\ invoked_slots (trace (run (simulate op) s))
          = dispatch_order (ctl s) (op_kind op)
       /\ List.length (invocations (trace (run (simulate op) s)))
          = List.length (all_handlers (ctl s) (op_kind op)))
   /\ (cut_short (invocations (trace (run (simulate op) s))) = true ->
       outcome (run (simulate op) s) = Throw NonStdException))
  /\ (handlers_std_only (ctl s) ->
      (exists b, outcome (run (simulate op) s) = Ret b)
      /\ (validatePortName (op_port op) = true ->
          write_failed (trace (run (simulate op) s)) = false ->
          outcome (run (simulate op) s) = Ret true
          /\ invoked_slots (trace (run (simulate op) s))
             = dispatch_order (ctl s) (op_kind op)
          /\ errors_logged (trace (run (simulate op) s)) = true)).
Proof.
  destruct s as [c w]. unfold run. cbn [ctl world]. split.
  - intros Hv Hw.
    assert (Ho : outcome (simulate op (mkState c w)) <> Ret false)
      by by apply published_iff.
    destruct (simulate_published op c w Ho) as (_ & _ & Hl & Hpre & Hall & Hd).
    destruct Hd as (ev & Hlast & Hk & Hp & Hinv & Hworld & Hout).
    split; [done|]. split; [by exists ev|]. split.
    + intros Hcut. rewrite Hcut in Hout. split; [done|]. split; [by apply Hall|].
      rewrite <- length_dispatch_order, <- (Hall Hout).
      unfold invoked_slots. by rewrite length_fmap.
    + intros Hcut. by rewrite Hcut in Hout.
  - intros Hstd.
    destruct (simulate_cases op c w) as [tr Hv Hp Hi | w' tr Hv Hw Hi Hh
                                        | c' ev w' o dtr tr Hv Hc Hf Hw Hn Hi Hl Hh];
      cbn [outcome final trace ctl fst snd].
    + split; [by eexists|]. congruence.
    + split; [by eexists|]. congruence.
    + destruct Hf as (_ & _ & Hall & _ & Hs & _ & _).
      specialize (Hs (handlers_std_only_all _ _ Hstd)). subst o.
      split; [by eexists|]. intros _ _. split; [done|]. split; [|done].
      unfold invoked_slots. rewrite Hi. by apply Hall.
Qed.

(** *** Counters *)

Lemma up_count_current_state c name t :
  link_up_count (current_state c name t) = up_count c name.
Proof. unfold current_state, up_count. by destruct (m_port_states c !! name). Qed.

Lemma down_count_current_state c name t :
  link_down_count (current_state c name t) = down_count c name.
Proof. unfold current_state, down_count. by destruct (m_port_states c !! name). Qed.

Lemma oper_current_state c name t :
  oper_status (current_state c name t) = oper_of c name.
Proof. unfold current_state, oper_of. by destruct (m_port_states c !! name). Qed.

Lemma commits_counters op c c' ev name :
  commits op c c' ev ->
  up_count (publish ev c') name = up_count_after op name (up_count c name)
  /\ down_count (publish ev c') name = down_count_after op name (down_count c name).
Proof.
  destruct 1; unfold up_count, down_count; cbn; try done.
  - case_bool_decide as Hn.
    + subst. rewrite lookup_insert_eq. cbn.
      by rewrite up_count_current_state, down_count_current_state.
    + by rewrite lookup_insert_ne.
  - case_bool_decide as Hn.
    + subst. rewrite lookup_insert_eq. cbn.
      by rewrite up_count_current_state, down_count_current_state.
    + by rewrite lookup_insert_ne.
Qed.

(** Whatever way a simulate operation ends, the counters of a port are
    those before it or those of a commit. *)
Lemma simulate_counters op c w name :
  (up_count (ctl (final (simulate op (mkState c w)))) name = up_count c name
   /\ down_count (ctl (final (simulate op (mkState c w)))) name = down_count c name)
  \/ (up_count (ctl (final (simulate op (mkState c w)))) name
      = up_count_after op name (up_count c name)
      /\ down_count (ctl (final (simulate op (mkState c w)))) name
         = down_count_after op name (down_count c name)).
Proof.
  destruct (simulate_cases op c w) as [tr Hv Hp Hi | w' tr Hv Hw Hi Hh
                                      | c' ev w' o dtr tr Hv Hc Hf Hw Hn Hi Hl Hh];
    cbn [outcome final trace ctl fst snd]; auto.
  right. by apply commits_counters.
Qed.

Lemma incr_u64_ge x : (x + 1 < UINT64_MOD)%N -> (x <= incr_u64 x)%N.
Proof. intros Hx. unfold incr_u64. rewrite N.mod_small by done. lia. Qed.

Lemma up_count_after_ge op name x :
  (x + 1 < UINT64_MOD)%N -> (x <= up_count_after op name x)%N.
Proof.
  intros Hx. destruct op; cbn; try lia.
  case_bool_decide; [by apply incr_u64_ge | lia].
Qed.

Lemma down_count_after_ge op name x :
  (x + 1 < UINT64_MOD)%N -> (x <= down_count_after op name x)%N.
Proof.
  intros Hx. destruct op; cbn; try lia.
  case_bool_decide; [by apply incr_u64_ge | lia].
Qed.

(** *** The bulk refresh *)

Lemma zeroed_counts c name : zeroed c -> up_count c name = 0%N /\ down_count c name = 0%N.
Proof.
  intros Hz. unfold up_count, down_count.
  destruct (m_port_states c !! name) as [st|] eqn:E; [|done].
  cbn. by destruct (Hz _ _ E) as [-> ->].
Qed.

Lemma stoul_run str s :
  (exists v, stoul str s = (Ret v, s, [])) \/ (exists e, stoul str s = (Throw e, s, [])).
Proof.
  unfold stoul.
  destruct (match skip_spaces str with
            | EmptyString => (false, skip_spaces str)
            | String a s' =>
                if Ascii.eqb a "-" then (true, s')
                else if Ascii.eqb a "+" then (false, s') else (false, skip_spaces str)
            end) as [neg body].
  destruct (digits_value 0 false body) as [v|]; [|right; by eexists].
  destruct (UINT64_MOD <=? v)%N; [right|left]; by eexists.
Qed.

Lemma refresh_lines_zeroed lines : forall c w,
  zeroed c -> zeroed (ctl (final (refresh_lines lines (mkState c w)))).
Proof.
  induction lines as [|line rest IH]; intros c w Hz; [done|].
  cbn [refresh_lines].
  destruct (strip_prefix "PORT|" line) as [name|].
  2:{ mred. specialize (IH c w Hz).
      destruct (refresh_lines rest (mkState c w)) as [[o s'] t]. by destruct o. }
  rewrite !run_bind, getRedisHashField_run. cbn zeta.
  destruct (popen_pclose _ w) as [r1 w1]. cbn [fst snd].
  rewrite !run_bind, getRedisHashField_run. cbn zeta.
  destruct (popen_pclose _ w1) as [r2 w2]. cbn [fst snd].
  rewrite !run_bind, getRedisHashField_run. cbn zeta.
  destruct (popen_pclose _ w2) as [r3 w3]. cbn [fst snd].
  rewrite run_bind.
  assert (Hspeed : (exists v, (if String.eqb (hget_value r3) EmptyString
                               then mret 100000%N else stoul (hget_value r3))
                              (mkState c w3) = (Ret v, mkState c w3, []))
                   \/ (exists e, (if String.eqb (hget_value r3) EmptyString
                                  then mret 100000%N else stoul (hget_value r3))
                                 (mkState c w3) = (Throw e, mkState c w3, []))).
  { destruct (String.eqb (hget_value r3) EmptyString); [left; by eexists|].
    apply stoul_run. }
  destruct Hspeed as [[speed ->] | [e ->]]; [|mred; exact Hz].
  rewrite !run_bind, getRedisHashField_run. cbn zeta.
  destruct (popen_pclose _ w3) as [r4 w4]. cbn [fst snd].
  rewrite run_bind.
  assert (Hmtu : (exists v, (if String.eqb (hget_value r4) EmptyString
                             then mret 9100%N else stoul (hget_value r4))
                            (mkState c w4) = (Ret v, mkState c w4, []))
                 \/ (exists e, (if String.eqb (hget_value r4) EmptyString
                                then mret 9100%N else stoul (hget_value r4))
                               (mkState c w4) = (Throw e, mkState c w4, []))).
  { destruct (String.eqb (hget_value r4) EmptyString); [left; by eexists|].
    apply stoul_run. }
  destruct Hmtu as [[mtu_val ->] | [e ->]]; [|mred; exact Hz].
  mred. destruct (system_clock_now w4) as [t w5].
  match goal with
  | |- context [refresh_lines rest (mkState ?c' ?w')] =>
      assert (Hz' : zeroed c');
      [| specialize (IH c' w' Hz');
         destruct (refresh_lines rest (mkState c' w')) as [[o s'] tr];
         by destruct o ]
  end.
  intros n st. unfold set_port_states. cbn [m_port_states].
  destruct (decide (name = n)) as [->|Hne].
  - rewrite lookup_insert_eq. by intros [= <-].
  - rewrite lookup_insert_ne by done. apply Hz.
Qed.

Lemma refresh_zeroed c w :
  zeroed (ctl (final (refreshPortStatusFromSONiC (mkState c w)))).
Proof.
  unfold refreshPortStatusFromSONiC.
  rewrite run_bind. unfold cout at 1, emit at 1.
  unfold lock_guard. rewrite run_bind.
  unfold modify_ctl at 1. cbn [ctl world].
  rewrite run_bind, executeRedisCommand_run. cbn zeta.
  destruct (popen_pclose _ w) as [r w1]. cbn [fst snd].
  assert (Hz : zeroed (set_port_states (fun _ => ∅) c)).
  { intros n st. unfold set_port_states. cbn. by rewrite lookup_empty. }
  destruct (popen_ok r); [|mred; exact Hz].
  cbn [negb]. rewrite run_bind.
  pose proof (refresh_lines_zeroed
                (getlines match r with Some _ => answer_of r | None => EmptyString end)
                _ w1 Hz) as Hl.
  destruct (refresh_lines _ _) as [[o s'] tr]. cbn [final fst snd] in Hl.
  destruct o; [|exact Hl]. destruct s' as [c' w']. mred. exact Hl.
Qed.

(** *** Sequences of cable operations *)

Lemma commits_oper op c c' ev name :
  commits op c c' ev ->
  oper_of (publish ev c') name = oper_after op name (oper_of c name).
Proof.
  destruct 1; unfold oper_of; cbn; try done.
  - case_bool_decide as Hn.
    + subst. by rewrite lookup_insert_eq.
    + by rewrite lookup_insert_ne.
  - case_bool_decide as Hn.
    + subst. by rewrite lookup_insert_eq.
    + by rewrite lookup_insert_ne.
Qed.

Lemma commits_handlers op c c' ev :
  commits op c c' ev ->
  m_event_handlers (publish ev c') = m_event_handlers c
  /\ m_global_handlers (publish ev c') = m_global_handlers c.
Proof. by destruct 1. Qed.

Lemma commits_history op c c' ev :
  commits op c c' ev ->
  m_event_history (publish ev c') = m_event_history c ++ [ev].
Proof. by destruct 1. Qed.

Lemma dispatch_order_ext c c' k :
  m_event_handlers c' = m_event_handlers c ->
  m_global_handlers c' = m_global_handlers c ->
  dispatch_order c' k = dispatch_order c k.
Proof. unfold dispatch_order. by intros -> ->. Qed.

(** What a successful simulate operation leaves behind. *)
Lemma simulate_success_summary op c w c1 w1 t1 :
  simulate op (mkState c w) = (Ret true, mkState c1 w1, t1) ->
  exists ev,
    m_event_history c1 = m_event_history c ++ [ev]
    /\ event_type ev = op_kind op
    /\ ev_port_name ev = op_port op
    /\ m_event_handlers c1 = m_event_handlers c
    /\ m_global_handlers c1 = m_global_handlers c
    /\ invoked_slots t1 = dispatch_order c (op_kind op)
    /\ (forall name, oper_of c1 name = oper_after op name (oper_of c name))
    /\ (forall name, up_count c1 name = up_count_after op name (up_count c name))
    /\ (forall name,
          down_count c1 name = down_count_after op name (down_count c name)).
Proof.
  intros E.
  assert (Ho : outcome (simulate op (mkState c w)) = Ret true) by by rewrite E.
  destruct (simulate_success op c w Ho) as (c' & ev & dtr & Hc & Hctl & Hf & Hi).
  rewrite E in Hctl, Hi. cbn [final trace ctl fst snd] in Hctl, Hi. subst c1.
  destruct Hf as (_ & _ & Hall & _).
  exists ev. repeat split.
  - by eapply commits_history.
  - by eapply commits_kind.
  - by eapply commits_port.
  - by eapply commits_handlers.
  - by eapply commits_handlers.
  - unfold invoked_slots. rewrite Hi. by apply Hall.
  - intros name. by eapply commits_oper.
  - intros name. by eapply commits_counters.
  - intros name. by eapply commits_counters.
Qed.

(** C8. Round trip: from a state without an entry for the port, a
    successful cable insertion followed by a successful cable removal
    leaves the port DOWN with one link-up and one link-down counted. *)
Theorem insertion_then_removal_round_trip (name : string) (s : State) :
  m_port_states (ctl s) !! name = None ->
  outcome (run (simulateCableInsertion name) s) = Ret true ->
  outcome (run (simulateCableRemoval name)
               (final (run (simulateCableInsertion name) s))) = Ret true ->
  exists st,
    m_port_states (ctl (final (run (simulateCableRemoval name)
                                   (final (run (simulateCableInsertion name) s)))))
      !! name = Some st
    /\ oper_status st = DOWN
    /\ link_up_count st = 1%N
    /\ link_down_count st = 1%N.
Proof.
  destruct s as [c w]. unfold run. cbn [ctl]. intros Hnone Ho1.
  destruct (simulateCableInsertion name (mkState c w)) as [[o1 [c1 w1]] t1] eqn:E1.
  cbn [outcome final fst snd] in *. subst o1. intros Ho2.
  destruct (simulateCableRemoval name (mkState c1 w1)) as [[o2 [c2 w2]] t2] eqn:E2.
  cbn [outcome final fst snd ctl] in *. subst o2.
  destruct (simulate_success_summary (CableInsertion name) _ _ _ _ _ E1)
    as (ev1 & _ & _ & _ & _ & _ & _ & Hoper1 & Hup1 & Hdown1).
  destruct (simulate_success_summary (CableRemoval name) _ _ _ _ _ E2)
    as (ev2 & _ & _ & _ & _ & _ & _ & Hoper2 & Hup2 & Hdown2).
  specialize (Hoper2 name). specialize (Hup2 name). specialize (Hdown2 name).
  specialize (Hup1 name). specialize (Hdown1 name).
  cbn in Hoper2, Hup2, Hdown2, Hup1, Hdown1.
  rewrite bool_decide_eq_true_2 in Hoper2, Hdown2, Hup1 by done.
  rewrite Hup1 in Hup2. rewrite Hdown1 in Hdown2.
  unfold up_count, down_count, oper_of in *. rewrite Hnone in *.
  destruct (m_port_states c2 !! name) as [st|]; [|discriminate].
  exists st. cbn in *. by rewrite Hoper2, Hup2, Hdown2.
Qed.

(** *** Link flap *)

Lemma length_flap_kinds n : List.length (flap_kinds n) = 2 * n.
Proof. unfold flap_kinds. induction n as [|n IH]; cbn in *; lia. Qed.

Lemma link_flap_loop_success name flap_count remaining : forall i c w,
  outcome (link_flap_loop name flap_count remaining i (mkState c w)) = Ret true ->
  exists evs,
    m_event_history
      (ctl (final (link_flap_loop name flap_count remaining i (mkState c w))))
      = m_event_history c ++ evs
    /\ event_type <$> evs = flap_kinds remaining
    /\ Forall (fun ev => ev_port_name ev = name) evs
    /\ m_event_handlers
         (ctl (final (link_flap_loop name flap_count remaining i (mkState c w))))
       = m_event_handlers c
    /\ m_global_handlers
         (ctl (final (link_flap_loop name flap_count remaining i (mkState c w))))
       = m_global_handlers c
    /\ invoked_slots
         (trace (link_flap_loop name flap_count remaining i (mkState c w)))
       = flap_slots c remaining
    /\ (remaining = 0 ->
        ctl (final (link_flap_loop name flap_count remaining i (mkState c w))) = c)
    /\ (0 < remaining ->
        oper_of (ctl (final (link_flap_loop name flap_count remaining i
                                            (mkState c w)))) name = UP).
Proof.
  induction remaining as [|k IH]; intros i c w.
  - intros _. exists []. cbn. rewrite app_nil_r. repeat split; auto. lia.
  - cbn [link_flap_loop]. mred.
    destruct (simulateCableRemoval name (mkState c w)) as [[o1 [c1 w1]] t1] eqn:E1.
    destruct o1 as [[|]|e1]; mred; try discriminate.
    destruct (simulateCableInsertion name (mkState c1 w1))
      as [[o2 [c2 w2]] t2] eqn:E2.
    destruct o2 as [[|]|e2]; mred; try discriminate.
    specialize (IH (i + 1)%Z c2 w2). revert IH.
    destruct (i <? flap_count - 1)%Z; mred;
      destruct (link_flap_loop name flap_count k (i + 1) (mkState c2 w2))
        as [[o3 [c3 w3]] t3] eqn:E3;
      (destruct o3 as [[|]|e3]; mred; intros IH Ho; try discriminate).
    all: destruct (IH eq_refl) as (evs & Hh & Hk & Hn & Hhs & Hg & Hs & Hz & Hup).
    all: destruct (simulate_success_summary (CableRemoval name) _ _ _ _ _ E1)
           as (ev1 & Hh1 & Hk1 & Hn1 & Hhs1 & Hg1 & Hs1 & _).
    all: destruct (simulate_success_summary (CableInsertion name) _ _ _ _ _ E2)
           as (ev2 & Hh2 & Hk2 & Hn2 & Hhs2 & Hg2 & Hs2 & Hoper2 & _).
    all: exists (ev1 :: ev2 :: evs).
    all: repeat split.
    all: try (rewrite Hh, Hh2, Hh1; by rewrite <- !app_assoc).
    all: try (cbn; by rewrite Hk, Hk1, Hk2).
    all: try (by repeat constructor).
    all: try congruence.
    all: try (intros _; destruct k as [|k'];
              [ rewrite (Hz eq_refl); specialize (Hoper2 name); cbn in Hoper2;
                by rewrite bool_decide_eq_true_2 in Hoper2
              | apply Hup; lia ]).
    all: unfold flap_slots in *; cbn [replicate List.concat];
         rewrite <- !app_assoc.
    all: unfold invoked_slots; cbn [invocations];
         repeat (rewrite invocations_app; cbn [invocations]);
         rewrite ?fmap_app, ?app_nil_r.
    all: fold (invoked_slots t1);
         fold (invoked_slots t2); fold (invoked_slots t3).
    all: rewrite Hs1, Hs2, Hs; cbn [op_kind].
    all: rewrite (dispatch_order_ext c c1 CABLE_INSERTED),
           (dispatch_order_ext c c2 CABLE_INSERTED),
           (dispatch_order_ext c c2 CABLE_REMOVED) by congruence.
    all: rewrite <- ?app_assoc; reflexivity.
Qed.

(** C6, as the code has it: a link flap with a count of at least 1 that
    returns [true] has recorded exactly 2n events for the port, a removal
    and an insertion n times over, has dispatched each of them, and
    leaves the port UP; with a count of 0 or less it returns [true]
    without touching anything. *)
Theorem link_flap_publishes_2n_events (name : string) (flap_count : Z) (s : State) :
  ((1 <= flap_count)%Z ->
   outcome (run (simulateLinkFlap name flap_count) s) = Ret true ->
   exists evs,
     m_event_history (ctl (final (run (simulateLinkFlap name flap_count) s)))
     = m_event_history (ctl s) ++ evs
     /\ List.length evs = Z.to_nat (2 * flap_count)
     /\ Forall (fun ev => ev_port_name ev = name) evs
     /\ event_type <$> evs = flap_kinds (Z.to_nat flap_count)
     /\ invoked_slots (trace (run (simulateLinkFlap name flap_count) s))
        = flap_slots (ctl s) (Z.to_nat flap_count)
     /\ oper_of (ctl (final (run (simulateLinkFlap name flap_count) s))) name = UP)
  /\ ((flap_count <= 0)%Z ->
      outcome (run (simulateLinkFlap name flap_count) s) = Ret true
      /\ final (run (simulateLinkFlap name flap_count) s) = s
      /\ invocations (trace (run (simulateLinkFlap name flap_count) s)) = []).
Proof.
  destruct s as [c w]. unfold run, simulateLinkFlap. cbn [ctl]. split.
  - intros Hn. mred.
    pose proof (link_flap_loop_success name flap_count (Z.to_nat flap_count) 0 c w)
      as Hloop. revert Hloop.
    destruct (link_flap_loop name flap_count (Z.to_nat flap_count) 0 (mkState c w))
      as [[o [c' w']] t] eqn:E.
    destruct o as [[|]|e]; mred; intros Hloop Ho; try discriminate.
    destruct (Hloop eq_refl) as (evs & Hh & Hk & Hp & _ & _ & Hs & _ & Hup).
    exists evs. repeat split; try done.
    + rewrite <- (length_fmap event_type), Hk, length_flap_kinds. lia.
    + rewrite <- Hs. unfold invoked_slots. cbn [invocations].
      by rewrite invocations_app, app_nil_r.
    + apply Hup. lia.
  - intros Hn. replace (Z.to_nat flap_count) with 0 by lia. by mred.
Qed.

(** *** Reads of the State Store *)

(** C9, as the code has it: for a port without an entry,
    [getPortLinkState] returns the default state (UNKNOWN statuses, zero
    counters) with [last_change] set to the time of the read, so two reads
    agree in every field but [last_change]; [getSFPInfo] returns the same
    not-present descriptor every time; neither read fails or changes the
    controller. *)
Theorem reads_of_unknown_ports (name : string) (s : State) :
  (m_port_states (ctl s) !! name = None ->
   exists st1 st2,
     outcome (run (getPortLinkState name) s) = Ret st1
     /\ outcome (run (getPortLinkState name) (final (run (getPortLinkState name) s)))
        = Ret st2
     /\ st1 = default_state name (last_change st1)
     /\ st2 = default_state name (last_change st2)
     /\ admin_status st1 = UNKNOWN /\ oper_status st1 = UNKNOWN
     /\ link_up_count st1 = 0%N /\ link_down_count st1 = 0%N
     /\ ctl (final (run (getPortLinkState name)
                        (final (run (getPortLinkState name) s)))) = ctl s)
  /\ (m_sfp_info (ctl s) !! name = None ->
      outcome (run (getSFPInfo name) s) = Ret (default_sfp name)
      /\ is_present (default_sfp name) = false
      /\ final (run (getSFPInfo name) s) = s).
Proof.
  destruct s as [c w]. unfold run, getPortLinkState, getSFPInfo. cbn [ctl].
  split; intros Hnone.
  - unfold lock_guard. rewrite getPortLinkStateUnsafe_run, Hnone.
    cbn [final fst snd]. rewrite getPortLinkStateUnsafe_run, Hnone.
    eexists _, _. repeat split.
  - mred. rewrite Hnone. by mred.
Qed.

(** *** The verifier *)

Lemma last_app_two {A} (l : list A) (a b : A) : last (l ++ [a; b]) = Some b.
Proof.
  replace (l ++ [a; b]) with ((l ++ [a]) ++ [b]) by by rewrite <- app_assoc.
  apply last_snoc.
Qed.

Lemma verifySONiCPortStatus_run name expected c w :
  verifySONiCPortStatus name expected (mkState c w) =
  let rw := popen_pclose
              (c_str (hget_command c ("PORT_TABLE:" +:+ name) "oper_status" 0)) w in
  let raw := hget_value (fst rw) in
  let actual := parseSONiCLinkStatus raw in
  (Ret (bool_decide (actual = expected)), mkState c (snd rw),
   Cout ("[INTERRUPT] Verifying SONiC port status for " +:+ name
         +:+ " (expected: " +:+ linkStatusToString expected +:+ ")")
   :: exec_trace c (hget_command c ("PORT_TABLE:" +:+ name) "oper_status" 0)
                 (fst rw)
   ++ [Cout ("[INTERRUPT] SONiC status verification: "
             +:+ (if bool_decide (actual = expected) then "PASSED" else "FAILED"));
       Cout ("[INTERRUPT] Expected: " +:+ linkStatusToString expected
             +:+ ", Actual: " +:+ linkStatusToString actual
             +:+ " (from Redis: '" +:+ raw +:+ "')")]).
Proof.
  unfold verifySONiCPortStatus.
  rewrite run_bind. unfold cout at 1, emit at 1.
  rewrite run_bind, getRedisHashField_run. cbn zeta.
  destruct (popen_pclose _ w) as [r w1]. cbn [fst snd]. by mred.
Qed.

(** C10. [verifySONiCPortStatus] decides on the value of [oper_status]
    it reads with one HGET from [PORT_TABLE:<port>] in database 0 of the
    system of record. With [raw] the answer as [getRedisHashField]
    returns it, the status read is UP for "up", DOWN for "down" and
    UNKNOWN for anything else, and the call returns [true] exactly when
    the status read is the expected one: so for the answer "up" it
    returns whether UP was expected, for "down" whether DOWN was, and
    for a command that fails whether UNKNOWN was. Its last line prints
    the expected and the actual status as "UP", "DOWN" or "UNKNOWN" and
    the raw value; it leaves the controller alone and behaves the same
    whatever the local State Store holds. *)
Theorem verify_reads_system_of_record (name : string) (expected : LinkStatus)
    (c : Controller) (w : World) :
  let answer := fst (popen_pclose
                  (c_str (hget_command c ("PORT_TABLE:" +:+ name) "oper_status" 0)) w) in
  let raw := hget_value answer in
  let actual := if String.eqb raw "up" then UP
                else if String.eqb raw "down" then DOWN else UNKNOWN in
  let text := fun st => match st with
                        | UP => "UP" | DOWN => "DOWN" | UNKNOWN => "UNKNOWN"
                        end in
  outcome (run (verifySONiCPortStatus name expected) (mkState c w))
  = Ret (bool_decide (actual = expected))
  /\ (outcome (run (verifySONiCPortStatus name expected) (mkState c w)) = Ret true
      <-> actual = expected)
  /\ (answer = Some ("up" +:+ nl, 0%Z) ->
      outcome (run (verifySONiCPortStatus name expected) (mkState c w))
      = Ret (bool_decide (expected = UP)))
  /\ (answer = Some ("down" +:+ nl, 0%Z) ->
      outcome (run (verifySONiCPortStatus name expected) (mkState c w))
      = Ret (bool_decide (expected = DOWN)))
  /\ (popen_ok answer = false ->
      outcome (run (verifySONiCPortStatus name expected) (mkState c w))
      = Ret (bool_decide (expected = UNKNOWN)))
  /\ popens (trace (run (verifySONiCPortStatus name expected) (mkState c w)))
     = [answer]
  /\ ctl (final (run (verifySONiCPortStatus name expected) (mkState c w))) = c
  /\ last (trace (run (verifySONiCPortStatus name expected) (mkState c w)))
     = Some (Cout ("[INTERRUPT] Expected: " +:+ text expected
                   +:+ ", Actual: " +:+ text actual
                   +:+ " (from Redis: '" +:+ raw +:+ "')"))
  /\ (forall states infos,
        let c' := set_sfp_info (fun _ => infos) (set_port_states (fun _ => states) c) in
        outcome (run (verifySONiCPortStatus name expected) (mkState c' w))
        = outcome (run (verifySONiCPortStatus name expected) (mkState c w))
        /\ trace (run (verifySONiCPortStatus name expected) (mkState c' w))
           = trace (run (verifySONiCPortStatus name expected) (mkState c w))
        /\ world (final (run (verifySONiCPortStatus name expected) (mkState c' w)))
           = world (final (run (verifySONiCPortStatus name expected) (mkState c w)))).
Proof.
  intros answer raw actual text. unfold run.
  rewrite verifySONiCPortStatus_run. cbn zeta.
  fold answer. fold raw.
  change (parseSONiCLinkStatus raw) with actual.
  assert (Htext : forall st, linkStatusToString st = text st) by (by intros []).
  rewrite !Htext.
  cbn [outcome final trace ctl world fst snd].
  assert (Hflip : forall st, bool_decide (st = expected) = bool_decide (expected = st)).
  { intros st. apply bool_decide_ext. split; by intros ->. }
  split; [done|]. split.
  { split; [intros [= Hb]; by apply bool_decide_eq_true in Hb
           | intros Hb; by rewrite bool_decide_eq_true_2]. }
  split.
  { intros Ha. subst actual raw. rewrite Ha. by rewrite <- Hflip. }
  split.
  { intros Ha. subst actual raw. rewrite Ha. by rewrite <- Hflip. }
  split.
  { intros Ha. subst actual raw. rewrite <- Hflip. f_equal. f_equal.
    destruct answer as [[written z]|]; [|done].
    cbn [popen_ok] in Ha. cbn [hget_value]. by rewrite Ha. }
  split.
  { cbn [popens]. rewrite popens_app, popens_exec_trace. done. }
  split; [done|]. split.
  { rewrite app_comm_cons. apply last_app_two. }
  intros states infos. rewrite verifySONiCPortStatus_run. done.
Qed.

(** ** Further properties: port names *)

Lemma strip_prefix_app pre s : strip_prefix pre (pre +:+ s) = Some s.
Proof.
  induction pre as [|a pre IH]; [done|].
  change (strip_prefix (String a pre) (String a pre +:+ s))
    with (if Ascii.eqb a a then strip_prefix pre (pre +:+ s) else None).
  by rewrite Ascii.eqb_refl.
Qed.

Lemma strip_prefix_Some pre s r : strip_prefix pre s = Some r -> s = pre +:+ r.
Proof.
  revert s. induction pre as [|a pre IH]; intros s; cbn [strip_prefix].
  - by intros [= ->].
  - destruct s as [|b s]; [done|].
    destruct (Ascii.eqb a b) eqn:E; [|done].
    apply Ascii.eqb_eq in E as ->. intros Hs. by rewrite (IH _ Hs).
Qed.

Lemma forallb_true_Forall {A} (f : A -> bool) (l : list A) :
  forallb f l = true <-> Forall (fun x => f x = true) l.
Proof.
  induction l as [|x l IH]; cbn.
  - split; [constructor|done].
  - rewrite andb_true_iff, IH. split.
    + intros [??]. by constructor.
    + by inversion 1.
Qed.

Lemma validatePortName_inv name :
  validatePortName name = true ->
  exists digits,
    name = "Ethernet" +:+ digits
    /\ digits <> EmptyString
    /\ Forall (fun ch => is_digit ch = true) (list_ascii_of_string digits).
Proof.
  unfold validatePortName.
  destruct (strip_prefix "Ethernet" name) as [rest|] eqn:E; [|done].
  intros [Hne Hd]%andb_true_iff. exists rest.
  split; [by apply strip_prefix_Some|]. split.
  - intros ->. by cbn in Hne.
  - by apply forallb_true_Forall.
Qed.

Lemma validatePortName_digits digits :
  digits <> EmptyString ->
  Forall (fun ch => is_digit ch = true) (list_ascii_of_string digits) ->
  validatePortName ("Ethernet" +:+ digits) = true.
Proof.
  intros Hne Hd. unfold validatePortName. rewrite strip_prefix_app.
  apply andb_true_iff. split.
  - destruct digits; [done|reflexivity].
  - by apply forallb_true_Forall.
Qed.

(** X1. The names [validatePortName] accepts are exactly "Ethernet"
    followed by one or more decimal digits. *)
Theorem validatePortName_accepts_ethernet_digits (name : string) :
  validatePortName name = true
  <-> exists digits,
        name = "Ethernet" +:+ digits
        /\ digits <> EmptyString
        /\ Forall (fun ch => is_digit ch = true) (list_ascii_of_string digits).
Proof.
  split; [apply validatePortName_inv|].
  intros (digits & -> & Hne & Hd). by apply validatePortName_digits.
Qed.

(** X2. A simulate operation on a port name that does not validate
    returns [false] at once: the controller and the world are exactly as
    before (no external command, no clock reading, no mutex), and all it
    did was to print its two lines; a link flap of at least one round on
    such a name fails the same way. *)
Theorem invalid_port_is_rejected_untouched (op : SimulateOp) (s : State) :
  validatePortName (op_port op) = false ->
  outcome (run (simulate op) s) = Ret false
  /\ final (run (simulate op) s) = s
  /\ console_only (trace (run (simulate op) s)) = true
  /\ last (trace (run (simulate op) s))
     = Some (Cerr ("[INTERRUPT] Invalid port name: " +:+ op_port op))
  /\ (forall n, (1 <= n)%Z ->
        outcome (run (simulateLinkFlap (op_port op) n) s) = Ret false
        /\ final (run (simulateLinkFlap (op_port op) n) s) = s
        /\ console_only (trace (run (simulateLinkFlap (op_port op) n) s)) = true).
Proof.
  intros Hv. destruct s as [c w]. unfold run.
  assert (Hrem : simulateCableRemoval (op_port op) (mkState c w)
                 = (Ret false, mkState c w,
                    [Cout ("[INTERRUPT] Simulating cable removal on " +:+ op_port op);
                     Cerr ("[INTERRUPT] Invalid port name: " +:+ op_port op)])).
  { unfold simulateCableRemoval. rewrite Hv. by mred. }
  split; [|split; [|split; [|split]]].
  1-4: destruct op; cbn [simulate op_port] in *;
       unfold simulateCableInsertion, simulateCableRemoval,
              simulateSFPInsertion, simulateSFPRemoval;
       rewrite Hv; by mred.
  intros n Hn. unfold simulateLinkFlap.
  destruct (Z.to_nat n) as [|k] eqn:En; [lia|].
  cbn [link_flap_loop]. mred. rewrite Hrem. by mred.
Qed.

(** *** Decimal numbers *)

Lemma pretty_N_char_digit x :
  (x < 10)%N ->
  is_digit (pretty_N_char x) = true
  /\ (N_of_ascii (pretty_N_char x) - 48)%N = x.
Proof.
  intros Hx.
  assert (x = 0 \/ x = 1 \/ x = 2 \/ x = 3 \/ x = 4 \/ x = 5 \/ x = 6
          \/ x = 7 \/ x = 8 \/ x = 9)%N as Hc by lia.
  repeat destruct Hc as [-> | Hc]; try subst x; by vm_compute.
Qed.

Lemma all_digits_pretty_N_go x : forall s,
  all_digits s = true -> all_digits (pretty_N_go x s) = true.
Proof.
  induction (N.lt_wf_0 x) as [x _ IH]; intros s Hs.
  destruct (decide (x = 0)%N) as [->|Hx]; [by rewrite pretty_N_go_0|].
  rewrite pretty_N_go_step by lia. apply IH.
  - apply N.div_lt; lia.
  - unfold all_digits in *. cbn. rewrite Hs, andb_true_r.
    apply pretty_N_char_digit. by apply N.mod_lt.
Qed.

Lemma pretty_N_go_nonempty x : forall s,
  (0 < x)%N \/ s <> EmptyString -> pretty_N_go x s <> EmptyString.
Proof.
  induction (N.lt_wf_0 x) as [x _ IH]; intros s Hs.
  destruct (decide (x = 0)%N) as [->|Hx].
  - rewrite pretty_N_go_0. destruct Hs; [lia|done].
  - rewrite pretty_N_go_step by lia. apply IH; [apply N.div_lt; lia|].
    by right.
Qed.

Lemma pretty_N_digits (n : N) :
  pretty n <> EmptyString /\ all_digits (pretty n) = true.
Proof.
  unfold pretty, pretty_N. case_decide as Hn; [done|]. split.
  - apply pretty_N_go_nonempty. left. lia.
  - by apply all_digits_pretty_N_go.
Qed.

Lemma pretty_Z_nonneg (z : Z) : (0 <= z)%Z -> pretty z = pretty (Z.to_N z).
Proof. intros Hz. destruct z; [done|done|lia]. Qed.

Lemma validatePortName_pretty (n : N) :
  validatePortName ("Ethernet" +:+ pretty n) = true.
Proof.
  destruct (pretty_N_digits n) as [Hne Hd].
  apply validatePortName_digits; [done|]. by apply forallb_true_Forall.
Qed.

(** *** Test port names *)

Lemma test_ports_loop_run fuel count : forall i ports,
  (0 <= i)%Z -> (32 <= i + Z.of_nat fuel)%Z ->
  test_ports_loop fuel count i ports
  = ports ++ (test_port_name <$> seqZ i (Z.min count 32 - i)).
Proof.
  induction fuel as [|fuel IH]; intros i ports Hi Hf; cbn [test_ports_loop];
    pose proof (Z.min_spec count 32) as Hmin.
  - rewrite seqZ_nil by lia. by rewrite app_nil_r.
  - destruct (Z.ltb_spec i count) as [E1|E1];
      [destruct (Z.ltb_spec i 32) as [E2|E2]|]; cbn [andb].
    + rewrite IH by lia.
      assert (Hpos : (0 < Z.min count 32 - i)%Z) by lia.
      rewrite (seqZ_cons i _ Hpos).
      replace (Z.succ i) with (i + 1)%Z by lia.
      replace (Z.pred (Z.min count 32 - i)) with (Z.min count 32 - (i + 1))%Z by lia.
      by rewrite <- app_assoc.
    + rewrite seqZ_nil by lia. by rewrite app_nil_r.
    + rewrite seqZ_nil by lia. by rewrite app_nil_r.
Qed.

Lemma available_ports_loop_eq fuel count : forall i ports,
  available_ports_loop fuel count i ports = test_ports_loop fuel count i ports.
Proof.
  induction fuel as [|fuel IH]; intros i ports; cbn; [done|].
  by rewrite IH.
Qed.

Lemma string_app_inj (pre s1 s2 : string) : pre +:+ s1 = pre +:+ s2 -> s1 = s2.
Proof.
  intros Heq. assert (Some s1 = Some s2) as [= ->]; [|done].
  by rewrite <- (strip_prefix_app pre s1), Heq, strip_prefix_app.
Qed.

(** X4. [InterruptUtils::getTestPorts(count)] and
    [TestUtils::getAvailablePorts(count)] return the names Ethernet0,
    Ethernet4, ... of the first min(count, 32) ports (none for a count of
    0 or less): the names are pairwise different and each of them passes
    [validatePortName]; the 32 iterations the model allows are all the
    loop can make. *)
Theorem test_ports_are_valid_and_distinct (count : Z) :
  getTestPorts count = test_port_name <$> seqZ 0 (Z.min count 32)
  /\ getAvailablePorts count = getTestPorts count
  /\ List.length (getTestPorts count) = Z.to_nat (Z.min count 32)
  /\ Forall (fun name => validatePortName name = true) (getTestPorts count)
  /\ NoDup (getTestPorts count)
  /\ (forall fuel, 32 <= fuel -> test_ports_loop fuel count 0 [] = getTestPorts count).
Proof.
  assert (Hrun : forall fuel, 32 <= fuel ->
            test_ports_loop fuel count 0 []
            = test_port_name <$> seqZ 0 (Z.min count 32)).
  { intros fuel Hf. rewrite test_ports_loop_run by lia.
    cbn [app]. do 2 f_equal. lia. }
  assert (Hports : getTestPorts count = test_port_name <$> seqZ 0 (Z.min count 32)).
  { unfold getTestPorts. by apply Hrun. }
  split; [done|]. split; [apply available_ports_loop_eq|].
  rewrite Hports. split; [|split; [|split]].
  - by rewrite length_fmap, length_seqZ.
  - apply Forall_fmap, Forall_forall. intros i [Hi _]%elem_of_seqZ. cbn.
    unfold test_port_name. rewrite pretty_Z_nonneg by lia.
    apply validatePortName_pretty.
  - apply NoDup_fmap_2_strong; [|apply NoDup_seqZ].
    intros i j _ _ Heq. unfold test_port_name in Heq.
    apply string_app_inj, (inj pretty) in Heq. lia.
  - intros fuel Hf. by rewrite Hrun.
Qed.

(** X5. [InterruptUtils::generateTestSFPInfo] on a name that
    [validatePortName] accepts returns a descriptor marked present whose
    serial number is "TST" followed by the digits of the name, and
    touches nothing; on a name of fewer than 8 characters its
    [substr(8)] raises [std::out_of_range]. *)
Theorem generateTestSFPInfo_on_port_names (name : string) (s : State) :
  (validatePortName name = true ->
   exists digits,
     name = "Ethernet" +:+ digits
     /\ run (generateTestSFPInfo name) s
        = (Ret {| sfp_port_name := name; is_present := true;
                  vendor_name := "Test Vendor"; part_number := "TEST-SFP-001";
                  serial_number := "TST" +:+ digits; connector_type := "LC";
                  cable_length := "1m";
                  supported_speeds := [1000; 10000; 25000; 100000]%N;
                  status := "OK" |}, s, []))
  /\ (String.length name < 8 ->
      exists what,
        run (generateTestSFPInfo name) s = (Throw (StdException what), s, [])).
Proof.
  unfold run, generateTestSFPInfo, substr_from. split.
  - intros (digits & -> & _)%validatePortName_inv.
    exists digits. split; [done|]. by mred.
  - intros Hlen. destruct (8 <=? String.length name)%nat eqn:E.
    + apply Nat.leb_le in E. lia.
    + eexists. by mred.
Qed.

(** *** Reading a field of the system of record *)

Lemma back_app_newline (v : string) : back (v +:+ nl) = Some newline.
Proof.
  induction v as [|a v IH]; [done|].
  change (String a v +:+ nl) with (String a (v +:+ nl)). cbn [back].
  destruct (v +:+ nl) eqn:E; [|done].
  destruct v; discriminate.
Qed.

Lemma pop_back_app_newline (v : string) : pop_back (v +:+ nl) = v.
Proof.
  induction v as [|a v IH]; [done|].
  change (String a v +:+ nl) with (String a (v +:+ nl)). cbn [pop_back].
  destruct (v +:+ nl) eqn:E; [destruct v; discriminate|].
  by rewrite IH.
Qed.

Lemma newline_free_app s t :
  newline_free (s +:+ t) = newline_free s && newline_free t.
Proof.
  induction s as [|a s IH]; [done|]. rewrite string_app_cons. cbn.
  by rewrite IH, andb_assoc.
Qed.

Lemma newline_free_back s : back s = Some newline -> newline_free s = true -> False.
Proof.
  induction s as [|a s IH]; [done|]. cbn [back newline_free].
  intros Hb [Ha Hs]%andb_true_iff. destruct s as [|a' s'].
  - injection Hb as ->. by rewrite Ascii.eqb_refl in Ha.
  - by apply IH.
Qed.

Lemma nul_free_pop_back s : nul_free s = true -> nul_free (pop_back s) = true.
Proof.
  induction s as [|a s IH]; [done|]. cbn [nul_free pop_back].
  intros [Ha Hs]%andb_true_iff. destruct s as [|a' s']; [done|].
  cbn [nul_free]. rewrite Ha. cbn [andb]. by apply IH.
Qed.

Lemma nul_free_hget_value r : nul_free (hget_value r) = true.
Proof.
  destruct r as [[written z]|]; [|done]. cbn [hget_value].
  destruct (z =? 0)%Z; [|done].
  pose proof (nul_free_read_pipe written) as Hn.
  destruct (_ && _); [by apply nul_free_pop_back|done].
Qed.

(** X6. [getRedisHashField] hands the shell one HGET command, as a C
    string, and never changes the controller. What it returns is what
    the read loop of [executeSONiCCommand] accumulated, less one final
    newline: for an answer without NUL bytes, the value followed by a
    newline, that is the value; a NUL byte in a short line hides the
    rest of the line, its newline included; the result never holds a
    NUL byte. When the command fails it returns the empty string, which
    is also what it returns for an empty answer: a caller cannot tell a
    failed read from an empty field. *)
Theorem getRedisHashField_value (key field : string) (db_id : Z)
    (c : Controller) (w : World) :
  ctl (final (run (getRedisHashField key field db_id) (mkState c w))) = c
  /\ popens (trace (run (getRedisHashField key field db_id) (mkState c w)))
     = [fst (popen_pclose (c_str (hget_command c key field db_id)) w)]
  /\ (forall value,
        nul_free value = true ->
        fst (popen_pclose (c_str (hget_command c key field db_id)) w)
        = Some (value +:+ nl, 0%Z) ->
        outcome (run (getRedisHashField key field db_id) (mkState c w)) = Ret value)
  /\ (forall value rest,
        nul_free value = true ->
        newline_free (value +:+ String nul rest) = true ->
        String.length (value +:+ String nul rest) < 255 ->
        fst (popen_pclose (c_str (hget_command c key field db_id)) w)
        = Some ((value +:+ String nul rest) +:+ nl, 0%Z) ->
        outcome (run (getRedisHashField key field db_id) (mkState c w)) = Ret value)
  /\ (popen_ok (fst (popen_pclose (c_str (hget_command c key field db_id)) w)) = false ->
      outcome (run (getRedisHashField key field db_id) (mkState c w))
      = Ret EmptyString)
  /\ (fst (popen_pclose (c_str (hget_command c key field db_id)) w)
      = Some (EmptyString, 0%Z) ->
      outcome (run (getRedisHashField key field db_id) (mkState c w))
      = Ret EmptyString)
  /\ exists value,
       outcome (run (getRedisHashField key field db_id) (mkState c w)) = Ret value
       /\ nul_free value = true.
Proof.
  unfold run. rewrite getRedisHashField_run. cbn zeta.
  cbn [outcome final trace ctl fst snd].
  split; [done|]. split; [apply popens_exec_trace|].
  destruct (popen_pclose _ w) as [r w']. cbn [fst].
  split; [|split; [|split; [|split]]].
  - intros value Hv ->. cbn [hget_value Z.eqb].
    rewrite read_pipe_nul_free
      by (rewrite nul_free_app, Hv; reflexivity).
    rewrite back_app_newline, pop_back_app_newline.
    rewrite bool_decide_eq_true_2 by done.
    destruct value; reflexivity.
  - intros value rest Hv Hn Hl ->. cbn [hget_value Z.eqb]. unfold nl.
    rewrite read_pipe_line_with_nul by done. f_equal.
    destruct value as [|b value]; [done|].
    cbn [String.eqb negb andb].
    rewrite bool_decide_eq_false_2; [done|].
    intros Hb. apply newline_free_back in Hb; [done|].
    rewrite newline_free_app in Hn. by apply andb_true_iff in Hn as [? _].
  - intros Hr. destruct r as [[out z]|]; [|done]. cbn in *. by rewrite Hr.
  - by intros ->.
  - eexists. split; [reflexivity|]. apply nul_free_hget_value.
Qed.

(** X7. When the HGET of [verifySONiCPortStatus] fails, or when the
    value read from its answer (as the read loop accumulated it, less a
    final newline) is neither "up" nor "down", the status it compares is
    UNKNOWN: the
    verification of an expected UNKNOWN then passes and that of UP or
    DOWN fails. *)
Theorem verify_without_an_answer (name : string) (expected : LinkStatus)
    (c : Controller) (w : World) :
  let raw := hget_value (fst (popen_pclose
               (c_str (hget_command c ("PORT_TABLE:" +:+ name) "oper_status" 0)) w)) in
  (popen_ok (fst (popen_pclose
      (c_str (hget_command c ("PORT_TABLE:" +:+ name) "oper_status" 0)) w)) = false
   \/ (raw <> "up" /\ raw <> "down")) ->
  outcome (run (verifySONiCPortStatus name expected) (mkState c w))
  = Ret (bool_decide (expected = UNKNOWN)).
Proof.
  intros raw Hraw.
  assert (Hp : parseSONiCLinkStatus raw = UNKNOWN).
  { unfold parseSONiCLinkStatus. destruct Hraw as [Hf | [Hu Hd]].
    - subst raw. destruct (popen_pclose _ w) as [[[out z]|] w'];
        cbn [fst hget_value popen_ok] in *; [by rewrite Hf|done].
    - apply String.eqb_neq in Hu, Hd. by rewrite Hu, Hd. }
  unfold run, verifySONiCPortStatus.
  rewrite run_bind. unfold cout at 1, emit at 1.
  rewrite run_bind, getRedisHashField_run. cbn zeta. fold raw.
  destruct (popen_pclose _ w) as [r w1]. cbn [fst snd]. mred.
  rewrite Hp. f_equal. destruct expected; reflexivity.
Qed.

(** ** Further properties: what a simulate operation changes *)

Lemma getSFPInfo_run name c w :
  getSFPInfo name (mkState c w)
  = (Ret (default (default_sfp name) (m_sfp_info c !! name)), mkState c w,
     [Lock m_state_mutex; Unlock m_state_mutex]).
Proof. unfold getSFPInfo. mred. by destruct (m_sfp_info c !! name). Qed.

(** Whatever way a simulate operation ends, the controller is as before
    or as a commit left it. *)
Lemma simulate_final_ctl op c w :
  ctl (final (simulate op (mkState c w))) = c
  \/ exists c' ev,
       validatePortName (op_port op) = true
       /\ commits op c c' ev
       /\ ctl (final (simulate op (mkState c w))) = publish ev c'
       /\ outcome (simulate op (mkState c w)) <> Ret false.
Proof.
  destruct (simulate_cases op c w) as [tr Hv Hp Hi | w' tr Hv Hw Hi Hh
                                      | c' ev w' o dtr tr Hv Hc Hf Hw Hn Hi Hl Hh];
    cbn [outcome final trace ctl fst snd]; auto.
  right. exists c', ev. repeat split; try done. by destruct o.
Qed.

(** X8. Storing and reading back a transceiver: after a successful
    [simulateSFPInsertion(port, info)], [getSFPInfo(port)] returns [info]
    exactly as it was passed, field for field. *)
Theorem sfp_insertion_then_get (name : string) (sfp_info : SFPInfo) (s : State) :
  outcome (run (simulateSFPInsertion name sfp_info) s) = Ret true ->
  outcome (run (getSFPInfo name) (final (run (simulateSFPInsertion name sfp_info) s)))
  = Ret sfp_info.
Proof.
  destruct s as [c w]. unfold run. intros Ho.
  destruct (simulate_success (SFPInsertion name sfp_info) c w Ho)
    as (c' & ev & dtr & Hc & Hctl & _).
  cbn [simulate] in Hctl.
  destruct (final (simulateSFPInsertion name sfp_info (mkState c w))) as [c1 w1].
  cbn [ctl] in Hctl. subst c1. rewrite getSFPInfo_run. cbn [outcome fst].
  inversion Hc; subst. cbn. by rewrite lookup_insert_eq.
Qed.

(** X9. After a successful [simulateSFPRemoval(port)],
    [getSFPInfo(port)] says not present: a descriptor stored before keeps
    all its other fields, and for a port without one no entry is made and
    the default descriptor is returned. *)
Theorem sfp_removal_then_get (name : string) (s : State) :
  outcome (run (simulateSFPRemoval name) s) = Ret true ->
  (forall info, m_sfp_info (ctl s) !! name = Some info ->
     outcome (run (getSFPInfo name) (final (run (simulateSFPRemoval name) s)))
     = Ret (mark_absent info))
  /\ (m_sfp_info (ctl s) !! name = None ->
      outcome (run (getSFPInfo name) (final (run (simulateSFPRemoval name) s)))
      = Ret (default_sfp name)
      /\ m_sfp_info (ctl (final (run (simulateSFPRemoval name) s))) !! name = None)
  /\ exists info,
       outcome (run (getSFPInfo name) (final (run (simulateSFPRemoval name) s)))
       = Ret info
       /\ is_present info = false.
Proof.
  destruct s as [c w]. unfold run. cbn [ctl]. intros Ho.
  destruct (simulate_success (SFPRemoval name) c w Ho)
    as (c' & ev & dtr & Hc & Hctl & _).
  cbn [simulate] in Hctl.
  destruct (final (simulateSFPRemoval name (mkState c w))) as [c1 w1].
  cbn [ctl] in Hctl. subst c1. rewrite getSFPInfo_run. cbn [outcome fst].
  inversion Hc; subst. cbn.
  destruct (m_sfp_info c !! name) as [info|] eqn:E.
  - rewrite lookup_insert_eq. cbn. split; [by intros ? [= <-]|].
    split; [done|]. by eexists.
  - rewrite E. cbn. split; [done|]. split; [done|]. by eexists.
Qed.

Lemma commits_frame op c c' ev :
  commits op c c' ev ->
  (forall q, q <> op_port op ->
     m_port_states (publish ev c') !! q = m_port_states c !! q
     /\ m_sfp_info (publish ev c') !! q = m_sfp_info c !! q)
  /\ match op with
     | CableInsertion _ | CableRemoval _ =>
         m_sfp_info (publish ev c') = m_sfp_info c
     | SFPInsertion _ _ | SFPRemoval _ =>
         m_port_states (publish ev c') = m_port_states c
     end
  /\ m_event_handlers (publish ev c') = m_event_handlers c
  /\ m_global_handlers (publish ev c') = m_global_handlers c
  /\ m_initialized (publish ev c') = m_initialized c
  /\ m_monitoring (publish ev c') = m_monitoring c
  /\ m_sonic_container_name (publish ev c') = m_sonic_container_name c
  /\ m_verbose_debug (publish ev c') = m_verbose_debug c
  /\ m_last_poll_time (publish ev c') = m_last_poll_time c.
Proof.
  destruct 1; cbn; (split; [intros q Hq|done]).
  - by rewrite lookup_insert_ne.
  - by rewrite lookup_insert_ne.
  - by rewrite lookup_insert_ne.
  - destruct (m_sfp_info c !! name); [by rewrite lookup_insert_ne|done].
Qed.

(** X10. Port isolation: whatever way it ends, a simulate operation on
    one port leaves the LinkState and the SFP entry of every other port
    as they were. The cable operations never touch the SFP map (although
    they write the transceiver's "present" field to the system of
    record), the SFP operations never touch the port table, and none of
    them changes the handler registries or the controller's settings. *)
Theorem simulate_touches_only_its_port (op : SimulateOp) (s : State) (q : string) :
  q <> op_port op ->
  m_port_states (ctl (final (run (simulate op) s))) !! q = m_port_states (ctl s) !! q
  /\ m_sfp_info (ctl (final (run (simulate op) s))) !! q = m_sfp_info (ctl s) !! q
  /\ match op with
     | CableInsertion _ | CableRemoval _ =>
         m_sfp_info (ctl (final (run (simulate op) s))) = m_sfp_info (ctl s)
     | SFPInsertion _ _ | SFPRemoval _ =>
         m_port_states (ctl (final (run (simulate op) s))) = m_port_states (ctl s)
     end
  /\ m_event_handlers (ctl (final (run (simulate op) s))) = m_event_handlers (ctl s)
  /\ m_global_handlers (ctl (final (run (simulate op) s))) = m_global_handlers (ctl s)
  /\ m_initialized (ctl (final (run (simulate op) s))) = m_initialized (ctl s)
  /\ m_sonic_container_name (ctl (final (run (simulate op) s)))
     = m_sonic_container_name (ctl s)
  /\ m_verbose_debug (ctl (final (run (simulate op) s))) = m_verbose_debug (ctl s).
Proof.
  intros Hq. destruct s as [c w]. unfold run. cbn [ctl].
  destruct (simulate_final_ctl op c w) as [-> | (c' & ev & _ & Hc & -> & _)].
  - repeat split. by destruct op.
  - destruct (commits_frame _ _ _ _ Hc) as (Hf & Hm & Hh & Hg & Hi & _ & Hn & Hv & _).
    destruct (Hf q Hq). by repeat split.
Qed.

(** X11. The event of a successful cable operation records the
    transition: its [old_status] is the operational status the port had
    in the State Store when the operation started (UNKNOWN for a port
    without an entry), its [new_status] is the one stored when it
    returns, and speed and duplex are those of the stored state. *)
Theorem cable_event_records_the_transition (name : string) (insertion : bool)
    (s : State) :
  let op := if insertion then CableInsertion name else CableRemoval name in
  outcome (run (simulate op) s) = Ret true ->
  exists ev st,
    m_event_history (ctl (final (run (simulate op) s)))
    = m_event_history (ctl s) ++ [ev]
    /\ m_port_states (ctl (final (run (simulate op) s))) !! name = Some st
    /\ ev_port_name ev = name
    /\ event_type ev = (if insertion then CABLE_INSERTED else CABLE_REMOVED)
    /\ old_status ev = oper_of (ctl s) name
    /\ new_status ev = oper_status st
    /\ new_status ev = (if insertion then UP else DOWN)
    /\ ev_speed_mbps ev = speed_mbps st
    /\ ev_duplex ev = duplex st.
Proof.
  intros op Ho. destruct s as [c w]. unfold run in *. cbn [ctl].
  destruct (simulate_success op c w Ho) as (c' & ev & dtr & Hc & -> & _).
  subst op. destruct insertion; inversion Hc; subst; cbn.
  all: eexists _, _; rewrite lookup_insert_eq.
  all: repeat split; apply oper_current_state.
Qed.

(** ** Further properties: the bulk refresh *)

Lemma lock_actions_app t1 t2 :
  lock_actions (t1 ++ t2) = lock_actions t1 ++ lock_actions t2.
Proof.
  induction t1 as [|a t1 IH]; [reflexivity|].
  destruct a; cbn; rewrite ?IH; reflexivity.
Qed.

Lemma lock_actions_exec_trace c cmd r : lock_actions (exec_trace c cmd r) = [].
Proof.
  unfold exec_trace.
  destruct (m_verbose_debug c), r as [[out z]|]; cbn;
    try destruct (z =? 0)%Z; reflexivity.
Qed.

(** Putting the goal in the form [Q e], so that [e] can be computed in
    one place. *)
Ltac focus_run e :=
  pattern e;
  match goal with
  | |- ?P e => let Q := fresh "Q" in set (Q := P)
  end.

(** Evaluating [lock_actions] and [invocations] on a trace built from
    known pieces. *)
Ltac obs_locks :=
  repeat first
    [ progress cbn [lock_actions invocations app]
    | rewrite lock_actions_app | rewrite invocations_app
    | rewrite lock_actions_exec_trace | rewrite invocations_exec_trace ].

Lemma set_port_states_id c : set_port_states (fun _ => m_port_states c) c = c.
Proof. by destruct c. Qed.

Lemma stoul_cases str s :
  (exists v, stoul str s = (Ret v, s, []))
  \/ stoul str s = (Throw (StdException "stoul"), s, []).
Proof.
  unfold stoul.
  destruct (match skip_spaces str with
            | EmptyString => (false, skip_spaces str)
            | String a s' =>
                if Ascii.eqb a "-" then (true, s')
                else if Ascii.eqb a "+" then (false, s') else (false, skip_spaces str)
            end) as [neg body].
  destruct (digits_value 0 false body) as [v|]; [|by right].
  destruct (UINT64_MOD <=? v)%N; [by right|left; by eexists].
Qed.

(** A number read from a field, or the default for an empty field. *)
Lemma field_number_cases (str : string) (dflt : N) (s : State) :
  (exists v, (if String.eqb str EmptyString then mret dflt else stoul str) s
             = (Ret v, s, []))
  \/ (if String.eqb str EmptyString then mret dflt else stoul str) s
     = (Throw (StdException "stoul"), s, []).
Proof.
  destruct (String.eqb str EmptyString); [left; by eexists|apply stoul_cases].
Qed.

(** One round of the loop over the lines of the KEYS answer. *)
Lemma refresh_line_cases line rest c w :
  (strip_prefix "PORT|" line = None
   /\ refresh_lines (line :: rest) (mkState c w) = refresh_lines rest (mkState c w))
  \/ exists name,
       strip_prefix "PORT|" line = Some name
       /\ ((exists w' tr,
              refresh_lines (line :: rest) (mkState c w)
              = (Throw (StdException "stoul"), mkState c w', tr)
              /\ lock_actions tr = [] /\ invocations tr = [])
           \/ (exists st w' tr,
                 refreshed name st
                 /\ lock_actions tr = [] /\ invocations tr = []
                 /\ refresh_lines (line :: rest) (mkState c w)
                    = match refresh_lines rest
                              (mkState (set_port_states <[name := st]> c) w') with
                      | (o, s2, t2) => (o, s2, tr ++ t2)
                      end)).
Proof.
  cbn [refresh_lines].
  destruct (strip_prefix "PORT|" line) as [name|]; [right; exists name|left].
  2:{ split; [done|]. mred.
      destruct (refresh_lines rest (mkState c w)) as [[o s'] t]. by destruct o. }
  split; [done|].
  rewrite !run_bind, getRedisHashField_run. cbn zeta.
  destruct (popen_pclose _ w) as [r1 w1]. cbn [fst snd].
  rewrite !run_bind, getRedisHashField_run. cbn zeta.
  destruct (popen_pclose _ w1) as [r2 w2]. cbn [fst snd].
  rewrite !run_bind, getRedisHashField_run. cbn zeta.
  destruct (popen_pclose _ w2) as [r3 w3]. cbn [fst snd].
  rewrite run_bind.
  destruct (field_number_cases (hget_value r3) 100000%N (mkState c w3))
    as [[speed ->] | ->].
  2:{ left. eexists _, _. split; [by mred|].
      rewrite !app_nil_r, !lock_actions_app, !invocations_app,
        !lock_actions_exec_trace, !invocations_exec_trace. done. }
  rewrite !run_bind, getRedisHashField_run. cbn zeta.
  destruct (popen_pclose _ w3) as [r4 w4]. cbn [fst snd].
  rewrite run_bind.
  destruct (field_number_cases (hget_value r4) 9100%N (mkState c w4))
    as [[mtu_val ->] | ->].
  2:{ left. eexists _, _. split; [by mred|].
      rewrite !app_nil_r, !lock_actions_app, !invocations_app,
        !lock_actions_exec_trace, !invocations_exec_trace. done. }
  right. mred. destruct (system_clock_now w4) as [t w5].
  exists {| port_name := name;
            admin_status := parseSONiCLinkStatus (hget_value r1);
            oper_status := parseSONiCLinkStatus (hget_value r2);
            speed_mbps := (speed mod UINT32_MOD)%N;
            duplex := "full"; auto_neg := true;
            mtu := (mtu_val mod UINT32_MOD)%N;
            mac_address := "02:42:ac:19:00:0a";
            last_change := t;
            link_up_count := 0; link_down_count := 0 |}, w5,
    (exec_trace c (hget_command c ("PORT|" +:+ name) "admin_status" 4) r1
     ++ exec_trace c (hget_command c ("PORT_TABLE:" +:+ name) "oper_status" 0) r2
     ++ exec_trace c (hget_command c ("PORT|" +:+ name) "speed" 4) r3
     ++ exec_trace c (hget_command c ("PORT|" +:+ name) "mtu" 4) r4).
  split; [|split; [|split]].
  4:{ destruct (refresh_lines rest _) as [[o s'] t2].
      destruct o; rewrite <- ?app_assoc; cbn [app]; reflexivity. }
  - unfold refreshed. cbn. repeat split; by apply N.mod_lt.
  - by rewrite !lock_actions_app, !lock_actions_exec_trace.
  - by rewrite !invocations_app, !invocations_exec_trace.
Qed.

(** The table the loop leaves, from the one it started with. *)
Lemma refresh_lines_table lines : forall c w,
  exists table,
    ctl (final (refresh_lines lines (mkState c w))) = set_port_states (fun _ => table) c
    /\ (outcome (refresh_lines lines (mkState c w)) = Ret tt
        \/ outcome (refresh_lines lines (mkState c w)) = Throw (StdException "stoul"))
    /\ lock_actions (trace (refresh_lines lines (mkState c w))) = []
    /\ invocations (trace (refresh_lines lines (mkState c w))) = []
    /\ (forall name st, table !! name = Some st ->
          m_port_states c !! name = Some st
          \/ (refreshed name st /\ ("PORT|" +:+ name) ∈ lines))
    /\ (forall name, is_Some (m_port_states c !! name) -> is_Some (table !! name))
    /\ (outcome (refresh_lines lines (mkState c w)) = Ret tt ->
        forall name, ("PORT|" +:+ name) ∈ lines ->
                     exists st, table !! name = Some st /\ refreshed name st).
Proof.
  induction lines as [|line rest IH]; intros c w.
  - exists (m_port_states c). cbn. rewrite set_port_states_id.
    repeat split; auto. intros _ name Hin. by apply elem_of_nil in Hin.
  - destruct (refresh_line_cases line rest c w)
      as [[Hnone ->] | (name & Hname & [(w' & tr & -> & Hl & Hi)
                                      | (st & w' & tr & Hst & Hl & Hi & ->)])].
    + destruct (IH c w) as (table & Hctl & Ho & Hlk & Hinv & Hfrom & Hkeep & Hall).
      exists table. repeat split; try done.
      * intros n st Hn. destruct (Hfrom n st Hn) as [?|[??]]; [by left|right].
        split; [done|]. by apply elem_of_cons; right.
      * intros Hr n [Heq|Hin]%elem_of_cons; [|by apply Hall].
        subst line. by rewrite strip_prefix_app in Hnone.
    + exists (m_port_states c). cbn. rewrite set_port_states_id.
      repeat split; auto. discriminate.
    + apply strip_prefix_Some in Hname. subst line.
      destruct (IH (set_port_states <[name := st]> c) w')
        as (table & Hctl & Ho & Hlk & Hinv & Hfrom & Hkeep & Hall).
      destruct (refresh_lines rest _) as [[o s'] t2].
      cbn [outcome final trace ctl fst snd] in *.
      exists table. split; [exact Hctl|]. split; [exact Ho|].
      split; [by rewrite lock_actions_app, Hl, Hlk|].
      split; [by rewrite invocations_app, Hi, Hinv|].
      split; [|split].
      * intros n st' Hn. destruct (Hfrom n st' Hn) as [Hold|[Hr Hin]].
        -- cbn in Hold. destruct (decide (name = n)) as [->|Hne].
           ++ rewrite lookup_insert_eq in Hold. injection Hold as <-.
              right. split; [done|]. apply elem_of_cons. by left.
           ++ rewrite lookup_insert_ne in Hold by done. by left.
        -- right. split; [done|]. apply elem_of_cons. by right.
      * intros n Hn. apply Hkeep. cbn.
        destruct (decide (name = n)) as [->|Hne];
          [by rewrite lookup_insert_eq | by rewrite lookup_insert_ne].
      * intros Hr n [Heq|Hin]%elem_of_cons; [|by apply Hall].
        apply string_app_inj in Heq. subst n.
        destruct (Hkeep name) as [st' Hst'];
          [cbn; by rewrite lookup_insert_eq|].
        exists st'. split; [done|].
        destruct (Hfrom name st' Hst') as [Hold|[? _]]; [|done].
        cbn in Hold. rewrite lookup_insert_eq in Hold. by injection Hold as <-.
Qed.

Lemma refresh_run c w :
  exists table,
    ctl (final (refreshPortStatusFromSONiC (mkState c w)))
    = set_port_states (fun _ => table) c
    /\ (outcome (refreshPortStatusFromSONiC (mkState c w)) = Ret true
        \/ outcome (refreshPortStatusFromSONiC (mkState c w)) = Ret false
        \/ outcome (refreshPortStatusFromSONiC (mkState c w))
           = Throw (StdException "stoul"))
    /\ lock_actions (trace (refreshPortStatusFromSONiC (mkState c w)))
       = [(true, m_state_mutex); (false, m_state_mutex)]
    /\ invocations (trace (refreshPortStatusFromSONiC (mkState c w))) = []
    /\ (forall name st, table !! name = Some st ->
          refreshed name st
          /\ popen_ok (fst (popen_pclose (c_str (keys_command c)) w)) = true
          /\ ("PORT|" +:+ name)
             ∈ getlines (answer_of (fst (popen_pclose (c_str (keys_command c)) w))))
    /\ (outcome (refreshPortStatusFromSONiC (mkState c w)) = Ret false
        <-> popen_ok (fst (popen_pclose (c_str (keys_command c)) w)) = false)
    /\ (outcome (refreshPortStatusFromSONiC (mkState c w)) = Ret true ->
        forall name,
          ("PORT|" +:+ name)
          ∈ getlines (answer_of (fst (popen_pclose (c_str (keys_command c)) w))) ->
          is_Some (table !! name)).
Proof.
  unfold keys_command.
  focus_run (refreshPortStatusFromSONiC (mkState c w)).
  unfold refreshPortStatusFromSONiC.
  rewrite run_bind. unfold cout at 1, emit at 1.
  unfold lock_guard. rewrite run_bind.
  unfold modify_ctl at 1. cbn [ctl world].
  rewrite run_bind, executeRedisCommand_run. cbn zeta.
  change (redis_cli (set_port_states (fun _ => ∅) c))
    with (redis_cli c).
  destruct (popen_pclose _ w) as [r w1]. cbn [fst snd].
  destruct (popen_ok r) eqn:Hok; cbn [negb].
  2:{ mred. subst Q. cbn beta. exists ∅. mred. obs_locks.
      repeat split; auto; done. }
  rewrite run_bind.
  destruct (refresh_lines_table (getlines (answer_of r))
              (set_port_states (fun _ => ∅) c) w1)
    as (table & Hctl & Ho & Hlk & Hinv & Hfrom & _ & Hall).
  replace (match r with Some _ => answer_of r | None => EmptyString end)
    with (answer_of r) by (by destruct r).
  destruct (refresh_lines (getlines (answer_of r)) _) as [[o [c' w']] tr].
  cbn [outcome final trace ctl fst snd] in *.
  destruct Ho as [-> | ->]; mred; subst Q; cbn beta; exists table; mred.
  all: obs_locks; rewrite ?Hlk, ?Hinv; obs_locks.
  all: (split; [exact Hctl|]); (split; [auto|]); (split; [done|]); (split; [done|]).
  all: split; [intros name st Hn; destruct (Hfrom name st Hn) as [Hold|[??]];
               [cbn in Hold; by rewrite lookup_empty in Hold | done] |].
  all: split; [split; intros ?; congruence|].
  - intros _ name Hin. destruct (Hall eq_refl name Hin) as [st [Hst _]]. by eexists.
  - discriminate.
Qed.

(** X12. A refresh replaces the port table and nothing else: SFP map,
    event history, statistics, handler registries and settings are as
    before and no handler is called. When the KEYS command fails the
    refresh returns [false] and leaves the table empty: the port states
    held before are lost. *)
Theorem refresh_replaces_only_the_port_table (c : Controller) (w : World) :
  m_sfp_info (ctl (final (run refreshPortStatusFromSONiC (mkState c w)))) = m_sfp_info c
  /\ m_event_history (ctl (final (run refreshPortStatusFromSONiC (mkState c w))))
     = m_event_history c
  /\ m_event_statistics (ctl (final (run refreshPortStatusFromSONiC (mkState c w))))
     = m_event_statistics c
  /\ m_event_handlers (ctl (final (run refreshPortStatusFromSONiC (mkState c w))))
     = m_event_handlers c
  /\ m_global_handlers (ctl (final (run refreshPortStatusFromSONiC (mkState c w))))
     = m_global_handlers c
  /\ m_initialized (ctl (final (run refreshPortStatusFromSONiC (mkState c w))))
     = m_initialized c
  /\ invocations (trace (run refreshPortStatusFromSONiC (mkState c w))) = []
  /\ (outcome (run refreshPortStatusFromSONiC (mkState c w)) = Ret false
      <-> popen_ok (fst (popen_pclose (c_str (keys_command c)) w)) = false)
  /\ (popen_ok (fst (popen_pclose (c_str (keys_command c)) w)) = false ->
      m_port_states (ctl (final (run refreshPortStatusFromSONiC (mkState c w)))) = ∅).
Proof.
  unfold run.
  destruct (refresh_run c w) as (table & -> & Ho & Hlk & Hinv & Hfrom & Hfalse & Hall).
  cbn. repeat split; try done; try apply Hfalse.
  intros Hfail. apply map_empty. intros name.
  destruct (table !! name) as [st|] eqn:E; [|done].
  destruct (Hfrom name st E) as (_ & Hok & _). congruence.
Qed.

(** X13. After a refresh that returns [true] the port table holds
    exactly the ports listed on lines starting with "PORT|" (other
    lines are skipped) of the output that the read loop of
    [executeSONiCCommand] accumulated from the KEYS answer, chunk by
    chunk and each chunk up to its first NUL byte; each port is stored
    under its own name, with both counters at zero, duplex "full",
    auto-negotiation on and the default MAC address, and speed and MTU
    within 32 bits. *)
Theorem refresh_lists_the_ports_of_config_db (c : Controller) (w : World) :
  outcome (run refreshPortStatusFromSONiC (mkState c w)) = Ret true ->
  (forall name,
     is_Some (m_port_states
                (ctl (final (run refreshPortStatusFromSONiC (mkState c w)))) !! name)
     <-> ("PORT|" +:+ name)
         ∈ getlines (answer_of (fst (popen_pclose (c_str (keys_command c)) w))))
  /\ (forall name st,
        m_port_states (ctl (final (run refreshPortStatusFromSONiC (mkState c w))))
          !! name = Some st ->
        refreshed name st).
Proof.
  unfold run.
  destruct (refresh_run c w) as (table & -> & Ho & Hlk & Hinv & Hfrom & Hfalse & Hall).
  cbn. intros Hr. split.
  - intros name. split; [|by apply Hall].
    intros [st Hst]. by destruct (Hfrom name st Hst) as (_ & _ & ?).
  - intros name st Hst. by destruct (Hfrom name st Hst).
Qed.

(** ** Further properties: every call, step by step *)

Lemma simulate_commit_steps op s :
  rtc commit_step (ctl s) (ctl (final (run (simulate op) s))).
Proof.
  destruct s as [c w]. unfold run. cbn [ctl].
  destruct (simulate_final_ctl op c w) as [-> | (c' & ev & Hv & Hc & -> & _)];
    [done|].
  apply rtc_once. by eapply commit_step_intro.
Qed.

Lemma link_flap_loop_commit_steps name flap_count remaining : forall i c w,
  rtc commit_step c
      (ctl (final (link_flap_loop name flap_count remaining i (mkState c w)))).
Proof.
  induction remaining as [|k IH]; intros i c w; [done|].
  cbn [link_flap_loop]. mred.
  pose proof (simulate_commit_steps (CableRemoval name) (mkState c w)) as H1.
  unfold run in H1. cbn [simulate ctl] in H1.
  destruct (simulateCableRemoval name (mkState c w)) as [[o1 [c1 w1]] t1].
  cbn [final fst snd ctl] in H1.
  destruct o1 as [[|]|e1]; mred; try done.
  pose proof (simulate_commit_steps (CableInsertion name) (mkState c1 w1)) as H2.
  unfold run in H2. cbn [simulate ctl] in H2.
  destruct (simulateCableInsertion name (mkState c1 w1)) as [[o2 [c2 w2]] t2].
  cbn [final fst snd ctl] in H2.
  destruct o2 as [[|]|e2]; mred; try by etrans.
  specialize (IH (i + 1)%Z c2 w2).
  destruct (i <? flap_count - 1)%Z; mred;
    destruct (link_flap_loop name flap_count k (i + 1) (mkState c2 w2))
      as [[o3 [c3 w3]] t3]; cbn [final fst snd ctl] in IH;
    destruct o3; mred; by do 2 (etrans; [eassumption|]).
Qed.

Lemma simulateLinkFlap_commit_steps name flap_count s :
  rtc commit_step (ctl s) (ctl (final (run (simulateLinkFlap name flap_count) s))).
Proof.
  destruct s as [c w]. unfold run, simulateLinkFlap. cbn [ctl]. mred.
  pose proof (link_flap_loop_commit_steps name flap_count (Z.to_nat flap_count) 0 c w)
    as Hl.
  destruct (link_flap_loop name flap_count (Z.to_nat flap_count) 0 (mkState c w))
    as [[o [c' w']] t]. cbn [final fst snd ctl] in Hl.
  destruct o as [[|]|e]; by mred.
Qed.

Lemma commit_step_ctl_step c c' : commit_step c c' -> ctl_step c c'.
Proof. destruct 1. by eapply step_commit. Qed.

Lemma simulate_steps op s :
  rtc ctl_step (ctl s) (ctl (final (run (simulate op) s))).
Proof.
  eapply rtc_subrel; [|apply simulate_commit_steps]. apply commit_step_ctl_step.
Qed.

Lemma simulateLinkFlap_steps name flap_count s :
  rtc ctl_step (ctl s) (ctl (final (run (simulateLinkFlap name flap_count) s))).
Proof.
  eapply rtc_subrel; [|apply simulateLinkFlap_commit_steps].
  apply commit_step_ctl_step.
Qed.

Lemma refresh_steps s :
  rtc ctl_step (ctl s) (ctl (final (run refreshPortStatusFromSONiC s))).
Proof.
  destruct s as [c w]. unfold run. cbn [ctl].
  destruct (refresh_run c w) as (table & -> & _ & _ & _ & Hfrom & _).
  apply rtc_once, step_refresh. intros name st Hst.
  by destruct (Hfrom name st Hst).
Qed.

Lemma initialize_cases c w :
  (popen_ok (fst (popen_pclose (c_str (echo_command c)) w)) = false
   /\ outcome (initialize (mkState c w)) = Ret false
   /\ ctl (final (initialize (mkState c w))) = c)
  \/ (popen_ok (fst (popen_pclose (c_str (echo_command c)) w)) = true
      /\ exists r2,
           r2 = refreshPortStatusFromSONiC
                  (mkState c (snd (popen_pclose (c_str (echo_command c)) w)))
           /\ ((outcome r2 = Ret true
                /\ outcome (initialize (mkState c w)) = Ret true
                /\ exists t, ctl (final (initialize (mkState c w)))
                             = set_ready t (ctl (final r2)))
               \/ (outcome r2 <> Ret true
                   /\ outcome (initialize (mkState c w)) = outcome r2
                   /\ ctl (final (initialize (mkState c w))) = ctl (final r2)))).
Proof.
  unfold echo_command.
  focus_run (initialize (mkState c w)).
  unfold initialize.
  rewrite run_bind. unfold cout at 1, emit at 1.
  rewrite run_bind, executeSONiCCommand_run. cbn zeta.
  destruct (popen_pclose _ w) as [r w1]. cbn [fst snd].
  destruct (popen_ok r) eqn:Hok; cbn [negb].
  2:{ mred. subst Q. cbn beta. left. by mred. }
  rewrite run_bind.
  destruct (refreshPortStatusFromSONiC (mkState c w1)) as [[o2 [c2 w2]] t2] eqn:E2.
  destruct o2 as [[|]|e2]; mred.
  - destruct (system_clock_now w2) as [t w3]. mred. subst Q. cbn beta.
    right. split; [done|]. eexists. split; [reflexivity|]. cbn [fst snd]. rewrite E2. left. mred.
    split; [done|]. split; [done|]. by eexists.
  - subst Q. cbn beta. right. split; [done|]. eexists. split; [reflexivity|].
    cbn [fst snd]. rewrite E2. right. by mred.
  - subst Q. cbn beta. right. split; [done|]. eexists. split; [reflexivity|].
    cbn [fst snd]. rewrite E2. right. by mred.
Qed.

Lemma initialize_steps s : rtc ctl_step (ctl s) (ctl (final (run initialize s))).
Proof.
  destruct s as [c w]. unfold run. cbn [ctl].
  destruct (initialize_cases c w)
    as [(_ & _ & ->) | (_ & r2 & -> & [(_ & _ & t & ->) | (_ & _ & ->)])]; [done| |].
  - eapply rtc_r; [|apply step_ready].
    apply (refresh_steps (mkState c (snd (popen_pclose (c_str (echo_command c)) w)))).
  - apply (refresh_steps (mkState c (snd (popen_pclose (c_str (echo_command c)) w)))).
Qed.

Lemma registerEventHandler_run k h c w :
  registerEventHandler k h (mkState c w)
  = (Ret tt,
     mkState (set_handlers (fun hs => <[k := default [] (hs !! k) ++ [h]]> hs)
                           (fun g => g) c) w,
     [Lock m_handler_mutex;
      Cout ("[INTERRUPT] Registered handler for event: " +:+ cableEventToString k);
      Unlock m_handler_mutex]).
Proof. reflexivity. Qed.

Lemma registerGlobalEventHandler_run h c w :
  registerGlobalEventHandler h (mkState c w)
  = (Ret tt, mkState (set_handlers (fun hs => hs) (fun g => g ++ [h]) c) w,
     [Lock m_handler_mutex; Cout "[INTERRUPT] Registered global event handler";
      Unlock m_handler_mutex]).
Proof. reflexivity. Qed.

Lemma getPortLinkState_run name c w :
  getPortLinkState name (mkState c w)
  = (Ret (current_state c name (fst (system_clock_now w))),
     mkState c (match m_port_states c !! name with
                | Some _ => w
                | None => snd (system_clock_now w)
                end),
     [Lock m_state_mutex; Unlock m_state_mutex]).
Proof.
  unfold getPortLinkState, lock_guard, current_state.
  rewrite getPortLinkStateUnsafe_run. by destruct (m_port_states c !! name).
Qed.

Lemma getAllPortStates_run c w :
  getAllPortStates (mkState c w)
  = (Ret (snd <$> merge_sort key_le (map_to_list (m_port_states c))), mkState c w,
     [Lock m_state_mutex; Unlock m_state_mutex]).
Proof. reflexivity. Qed.

Lemma verifySONiCPortStatus_ctl name expected c w :
  ctl (final (verifySONiCPortStatus name expected (mkState c w))) = c
  /\ lock_actions (trace (verifySONiCPortStatus name expected (mkState c w))) = []
  /\ invocations (trace (verifySONiCPortStatus name expected (mkState c w))) = [].
Proof.
  focus_run (verifySONiCPortStatus name expected (mkState c w)).
  unfold verifySONiCPortStatus.
  rewrite run_bind. unfold cout at 1, emit at 1.
  rewrite run_bind, getRedisHashField_run. cbn zeta.
  destruct (popen_pclose _ w) as [r w1]. cbn [fst snd]. mred.
  subst Q. cbn beta. mred. obs_locks. done.
Qed.

Lemma getSONiCInterfaceStatus_ctl name c w :
  ctl (final (getSONiCInterfaceStatus name (mkState c w))) = c
  /\ lock_actions (trace (getSONiCInterfaceStatus name (mkState c w))) = []
  /\ invocations (trace (getSONiCInterfaceStatus name (mkState c w))) = [].
Proof.
  focus_run (getSONiCInterfaceStatus name (mkState c w)).
  unfold getSONiCInterfaceStatus.
  rewrite run_bind, getRedisHashField_run. cbn zeta.
  destruct (popen_pclose _ w) as [r1 w1]. cbn [fst snd].
  rewrite run_bind, getRedisHashField_run. cbn zeta.
  destruct (popen_pclose _ w1) as [r2 w2]. cbn [fst snd]. mred.
  subst Q. cbn beta. mred. obs_locks. done.
Qed.

Lemma getSONiCTransceiverInfo_ctl name c w :
  ctl (final (getSONiCTransceiverInfo name (mkState c w))) = c
  /\ lock_actions (trace (getSONiCTransceiverInfo name (mkState c w))) = []
  /\ invocations (trace (getSONiCTransceiverInfo name (mkState c w))) = [].
Proof.
  focus_run (getSONiCTransceiverInfo name (mkState c w)).
  unfold getSONiCTransceiverInfo.
  rewrite run_bind, getRedisHashField_run. cbn zeta.
  destruct (popen_pclose _ w) as [r1 w1]. cbn [fst snd].
  rewrite run_bind, getRedisHashField_run. cbn zeta.
  destruct (popen_pclose _ w1) as [r2 w2]. cbn [fst snd]. mred.
  subst Q. cbn beta. mred. obs_locks. done.
Qed.

(** Every call changes the controller by elementary updates only. *)
Lemma api_steps a s : rtc ctl_step (ctl s) (ctl (api_final a s)).
Proof.
  destruct a; unfold api_final, api_run, forget; cbn [fst snd].
  - apply simulate_steps.
  - apply simulateLinkFlap_steps.
  - apply refresh_steps.
  - apply initialize_steps.
  - destruct s as [c w]. unfold run. rewrite registerEventHandler_run.
    apply rtc_once, step_register.
  - destruct s as [c w]. unfold run. rewrite registerGlobalEventHandler_run.
    apply rtc_once, step_register_global.
  - destruct s as [c w]. unfold run. by rewrite getPortLinkState_run.
  - destruct s as [c w]. unfold run. by rewrite getAllPortStates_run.
  - destruct s as [c w]. unfold run. by rewrite getSFPInfo_run.
  - destruct s as [c w]. unfold run.
    by rewrite (proj1 (verifySONiCPortStatus_ctl _ _ c w)).
  - destruct s as [c w]. unfold run.
    by rewrite (proj1 (getSONiCInterfaceStatus_ctl _ c w)).
  - destruct s as [c w]. unfold run.
    by rewrite (proj1 (getSONiCTransceiverInfo_ctl _ c w)).
Qed.

(** ** Further properties: invariants of the controller *)

Lemma cableEventToString_inj k k' :
  cableEventToString k = cableEventToString k' -> k = k'.
Proof. by destruct k, k'. Qed.

Lemma count_kind_snoc k h ev :
  count_kind k (h ++ [ev])
  = count_kind k h + (if decide (event_type ev = k) then 1 else 0).
Proof.
  unfold count_kind. rewrite filter_app, length_app. f_equal.
  rewrite filter_cons, filter_nil. by destruct (decide _).
Qed.

Lemma ctl_step_log c c' :
  ctl_step c c' ->
  (m_event_history c' = m_event_history c
   /\ m_event_statistics c' = m_event_statistics c)
  \/ exists ev,
       well_formed_event ev
       /\ m_event_history c' = m_event_history c ++ [ev]
       /\ m_event_statistics c'
          = updateEventStatistics (event_type ev) (m_event_statistics c).
Proof.
  destruct 1 as [op c c1 ev Hv Hc| | | |]; try by left.
  right. exists ev. unfold well_formed_event.
  destruct Hc; cbn in *; naive_solver.
Qed.

Lemma stats_agree_step c c' : ctl_step c c' -> stats_agree c -> stats_agree c'.
Proof.
  intros Hs [H1 H2].
  destruct (ctl_step_log c c' Hs) as [[Hh Hst] | (ev & _ & Hh & Hst)];
    unfold stats_agree; rewrite Hh, Hst; [done|].
  unfold updateEventStatistics. split.
  - intros k. rewrite count_kind_snoc.
    destruct (decide (event_type ev = k)) as [->|Hne].
    + rewrite lookup_insert_eq. cbn. rewrite H1. unfold incr_u64.
      rewrite Nat2N.inj_add. change (N.of_nat 1) with 1%N.
      by rewrite N.Div0.add_mod_idemp_l.
    + rewrite lookup_insert_ne
        by (intros E; by apply cableEventToString_inj in E).
      rewrite Nat.add_0_r. apply H1.
  - intros key [x Hx].
    destruct (decide (key = cableEventToString (event_type ev))) as [->|Hne].
    + exists (event_type ev). split; [done|].
      rewrite count_kind_snoc, decide_True by done. lia.
    + rewrite lookup_insert_ne in Hx by done.
      destruct (H2 key) as (k & -> & Hk); [by eexists|].
      exists k. split; [done|]. rewrite count_kind_snoc. lia.
Qed.

Lemma port_name_current_state c name t :
  (forall q st, m_port_states c !! q = Some st -> port_name st = q) ->
  port_name (current_state c name t) = name.
Proof.
  intros Hk. unfold current_state.
  destruct (m_port_states c !! name) as [st|] eqn:E; cbn; [by apply Hk|done].
Qed.

Lemma keys_consistent_step c c' :
  ctl_step c c' -> keys_consistent c -> keys_consistent c'.
Proof.
  intros Hs [Hp Hi]. destruct Hs as [op c c1 ev Hv Hc|c table Ht| | |]; try done.
  - destruct Hc; cbn in Hv; split; cbn; try done.
    + intros q st. destruct (decide (q = name)) as [->|Hne].
      * rewrite lookup_insert_eq. intros [= <-]. cbn.
        by apply port_name_current_state.
      * rewrite lookup_insert_ne by done. apply Hp.
    + intros q st. destruct (decide (q = name)) as [->|Hne].
      * rewrite lookup_insert_eq. intros [= <-]. cbn.
        by apply port_name_current_state.
      * rewrite lookup_insert_ne by done. apply Hp.
    + intros q info. destruct (decide (q = name)) as [->|Hne]; [done|].
      rewrite lookup_insert_ne by done. apply Hi.
    + intros q info. destruct (m_sfp_info c !! name); [|apply Hi].
      destruct (decide (q = name)) as [->|Hne]; [done|].
      rewrite lookup_insert_ne by done. apply Hi.
  - split; cbn; [|done]. intros q st Hq. by destruct (Ht q st Hq).
Qed.

Lemma rtc_ctl_step_preserves (P : Controller -> Prop) :
  (forall c c', ctl_step c c' -> P c -> P c') ->
  forall c c', rtc ctl_step c c' -> P c -> P c'.
Proof. intros Hstep c c'. induction 1; eauto. Qed.

Lemma reachable_ind_ctl (P : Controller -> Prop) :
  P SONiCInterruptController_new ->
  (forall c c', ctl_step c c' -> P c -> P c') ->
  forall s, reachable s -> P (ctl s).
Proof.
  intros H0 Hstep s. induction 1 as [w|a s _ IH|c w w' _ IH]; cbn; auto.
  eapply rtc_ctl_step_preserves; [apply Hstep|apply api_steps|apply IH].
Qed.

(** X14. In every state a new controller reaches by calls of its
    public operations, the statistics count the history: the entry under
    the name of an event kind is the number of events of that kind in
    the history (modulo 2^64), and a kind with no event has no entry. *)
Theorem statistics_count_the_history (s : State) :
  reachable s -> stats_agree (ctl s).
Proof.
  apply (reachable_ind_ctl stats_agree); [|apply stats_agree_step].
  split; [done|]. intros key [x Hx]. cbn in Hx. by rewrite lookup_empty in Hx.
Qed.

(** X15. In every such state the history holds only events the
    simulate operations publish: each is for a valid port name and is
    either an insertion (cable or SFP) with new status UP or a removal
    with new status DOWN; no LINK_UP, LINK_DOWN, SPEED_CHANGE or
    DUPLEX_CHANGE event is ever recorded. *)
Theorem history_holds_simulated_events (s : State) :
  reachable s -> Forall well_formed_event (m_event_history (ctl s)).
Proof.
  apply (reachable_ind_ctl (fun c => Forall well_formed_event (m_event_history c)));
    [by constructor|].
  intros c c' Hs Hc.
  destruct (ctl_step_log c c' Hs) as [[-> _] | (ev & Hev & -> & _)]; [done|].
  apply Forall_app. split; [done|]. by constructor.
Qed.

(** X16. In every such state each entry of the port table carries the
    name it is stored under, and the SFP map has entries for valid port
    names only (the port table can hold any name a refresh has read). *)
Theorem maps_are_keyed_by_their_ports (s : State) :
  reachable s -> keys_consistent (ctl s).
Proof.
  apply (reachable_ind_ctl keys_consistent); [|apply keys_consistent_step].
  split; intros q x Hq; cbn in Hq; by rewrite lookup_empty in Hq.
Qed.

#[local] Instance grows_preorder : PreOrder grows.
Proof.
  split.
  - by intros c.
  - intros c1 c2 c3 (H1 & H2 & H3) (H1' & H2' & H3').
    repeat split; [by etrans|by etrans|]. intros k. etrans; [apply H3|apply H3'].
Qed.

Lemma grows_step c c' : ctl_step c c' -> grows c c'.
Proof.
  destruct 1 as [op c c1 ev Hv Hc| | |c k h|c h]; try done.
  - destruct (commits_handlers op c c1 ev Hc) as [He Hg].
    split; [|split].
    + rewrite (commits_history op c c1 ev Hc). by apply prefix_app_r.
    + by rewrite Hg.
    + intros k. by rewrite He.
  - split; [done|]. split; [done|]. intros k'. cbn.
    destruct (decide (k' = k)) as [->|Hne].
    + rewrite lookup_insert_eq. cbn. by apply prefix_app_r.
    + by rewrite lookup_insert_ne.
  - split; [done|]. split; [|done]. cbn. by apply prefix_app_r.
Qed.

(** X17. No call removes anything from the history or from a handler
    registry: for every operation, from every state, the history before
    is a prefix of the history after, and so are the list of global
    handlers and the list of handlers of each kind. *)
Theorem history_and_registries_only_grow (a : ApiCall) (s : State) :
  grows (ctl s) (ctl (api_final a s)).
Proof.
  pose proof (api_steps a s) as Hr.
  eapply (rtc_ctl_step_preserves (grows (ctl s))); [|apply Hr|done].
  intros c c' Hs Hc. etrans; [apply Hc|by apply grows_step].
Qed.

(** X18. [initialize] returns [true] exactly when the connection test
    succeeded and the refresh that follows it returned [true]; only then
    does it mark the controller initialised, over the table the refresh
    built. When the connection test fails it returns [false] and changes
    nothing. When the refresh does not return [true] (its KEYS command
    failed, or it ended in an exception) [initialize] ends the same way
    and leaves the controller as the refresh left it, so never with
    [true] after a failed KEYS; whenever it does not return [true] the
    initialised flag keeps the value it had. *)
Theorem initialize_marks_ready_only_on_success (c : Controller) (w : World) :
  (popen_ok (fst (popen_pclose (c_str (echo_command c)) w)) = false ->
   outcome (run initialize (mkState c w)) = Ret false
   /\ ctl (final (run initialize (mkState c w))) = c)
  /\ (outcome (run initialize (mkState c w)) = Ret true
      <-> popen_ok (fst (popen_pclose (c_str (echo_command c)) w)) = true
          /\ outcome (run refreshPortStatusFromSONiC
                          (mkState c (snd (popen_pclose (c_str (echo_command c)) w))))
             = Ret true)
  /\ (popen_ok (fst (popen_pclose (c_str (echo_command c)) w)) = true ->
      outcome (run refreshPortStatusFromSONiC
                   (mkState c (snd (popen_pclose (c_str (echo_command c)) w))))
      <> Ret true ->
      outcome (run initialize (mkState c w))
      = outcome (run refreshPortStatusFromSONiC
                     (mkState c (snd (popen_pclose (c_str (echo_command c)) w))))
      /\ ctl (final (run initialize (mkState c w)))
         = ctl (final (run refreshPortStatusFromSONiC
                           (mkState c (snd (popen_pclose (c_str (echo_command c)) w))))))
  /\ (popen_ok (fst (popen_pclose (c_str (keys_command c))
                                  (snd (popen_pclose (c_str (echo_command c)) w))))
      = false ->
      outcome (run initialize (mkState c w)) = Ret false)
  /\ (outcome (run initialize (mkState c w)) = Ret true ->
      m_initialized (ctl (final (run initialize (mkState c w)))) = true
      /\ m_port_states (ctl (final (run initialize (mkState c w))))
         = m_port_states
             (ctl (final (run refreshPortStatusFromSONiC
                              (mkState c (snd (popen_pclose (c_str (echo_command c)) w))))))
      /\ forall name st,
           m_port_states (ctl (final (run initialize (mkState c w)))) !! name
           = Some st ->
           refreshed name st)
  /\ (outcome (run initialize (mkState c w)) <> Ret true ->
      m_initialized (ctl (final (run initialize (mkState c w)))) = m_initialized c).
Proof.
  unfold run.
  destruct (refresh_run c (snd (popen_pclose (c_str (echo_command c)) w)))
    as (table & Hctl & _ & _ & _ & Hfrom & Hfalse & _).
  destruct (initialize_cases c w)
    as [(Hf & Ho & Hc) | (Hok & r2 & -> & Hr)].
  - rewrite Ho, Hc, Hf.
    split; [done|]. split; [split; [done|by intros [? _]]|].
    split; [done|]. split; [done|]. split; [done|done].
  - rewrite Hok.
    destruct Hr as [(Hr2 & Ho & t & Hc) | (Hr2 & Ho & Hc)]; rewrite Ho, Hc.
    + rewrite Hr2. split; [done|]. split; [done|]. split; [done|].
      split; [intros Hk; apply Hfalse in Hk; congruence|].
      split; [|done]. intros _. rewrite Hctl. cbn.
      split; [done|]. split; [done|].
      intros name st Hst. by destruct (Hfrom name st Hst).
    + split; [done|]. split; [split; [done|by intros [_ ?]]|].
      split; [done|]. split; [by intros Hk; apply Hfalse in Hk|].
      split; [done|]. intros _. by rewrite Hctl.
Qed.

(** X19. The calls that only read (port state, all port states, SFP
    info, the verification against the system of record, interface
    status, transceiver info) leave the controller object as it is and
    call no handler. *)
Theorem queries_leave_the_controller_alone (a : ApiCall) (s : State) :
  is_query a = true ->
  ctl (api_final a s) = ctl s /\ invocations (api_trace a s) = [].
Proof.
  destruct s as [c w].
  destruct a as [op|name n| | |k h|h|name| |name|name expected|name|name];
    try discriminate; intros _;
    unfold api_final, api_trace, api_run, forget, run; cbn [fst snd].
  - by rewrite getPortLinkState_run.
  - by rewrite getAllPortStates_run.
  - by rewrite getSFPInfo_run.
  - by destruct (verifySONiCPortStatus_ctl name expected c w) as (-> & _ & ->).
  - by destruct (getSONiCInterfaceStatus_ctl name c w) as (-> & _ & ->).
  - by destruct (getSONiCTransceiverInfo_ctl name c w) as (-> & _ & ->).
Qed.

(** ** Further properties: sequences of operations *)

Lemma simulate_outcome_ctl op c w :
  (outcome (simulate op (mkState c w)) = Ret false
   /\ ctl (final (simulate op (mkState c w))) = c)
  \/ (outcome (simulate op (mkState c w)) <> Ret false
      /\ exists c' ev,
           validatePortName (op_port op) = true
           /\ commits op c c' ev
           /\ ctl (final (simulate op (mkState c w))) = publish ev c').
Proof.
  destruct (simulate_cases op c w) as [tr Hv Hp Hi | w' tr Hv Hw Hi Hh
                                      | c' ev w' o dtr tr Hv Hc Hf Hw Hn Hi Hl Hh];
    cbn [outcome final trace ctl fst snd]; auto.
  right. split; [by destruct o|]. by exists c', ev.
Qed.

Lemma commits_cable_status op c c' ev :
  commits op c c' ev ->
  (exists name, op = CableInsertion name \/ op = CableRemoval name) ->
  oper_of (publish ev c') (op_port op) = new_status ev.
Proof.
  destruct 1; intros (n & [Hn | Hn]); try discriminate;
    unfold oper_of; cbn; by rewrite lookup_insert_eq.
Qed.

Lemma link_flap_loop_history name flap_count remaining : forall i c w,
  exists evs,
    m_event_history
      (ctl (final (link_flap_loop name flap_count remaining i (mkState c w))))
    = m_event_history c ++ evs
    /\ Forall (fun ev => ev_port_name ev = name) evs
    /\ event_type <$> evs `prefix_of` flap_kinds remaining
    /\ (outcome (link_flap_loop name flap_count remaining i (mkState c w)) = Ret false ->
        List.length evs < 2 * remaining)
    /\ oper_of (ctl (final (link_flap_loop name flap_count remaining i (mkState c w))))
               name
       = from_option new_status (oper_of c name) (last evs).
Proof.
  induction remaining as [|k IH]; intros i c w.
  { exists []. cbn. rewrite app_nil_r. repeat split; try done. }
  change (flap_kinds (S k)) with (CABLE_REMOVED :: CABLE_INSERTED :: flap_kinds k).
  cbn [link_flap_loop]. mred.
  pose proof (simulate_outcome_ctl (CableRemoval name) c w) as H1.
  cbn [simulate] in H1.
  destruct (simulateCableRemoval name (mkState c w)) as [[o1 [c1 w1]] t1].
  cbn [outcome final fst snd ctl] in H1.
  destruct H1 as [[-> ->] | (Ho1 & c1' & ev1 & Hv1 & Hc1 & ->)].
  { mred. exists []. rewrite app_nil_r. repeat split; try done.
    - apply prefix_nil.
    - cbn. lia. }
  pose proof (commits_history _ _ _ _ Hc1) as Hh1.
  pose proof (commits_kind _ _ _ _ Hc1) as Hk1.
  pose proof (commits_port _ _ _ _ Hc1) as Hp1.
  pose proof (commits_cable_status _ _ _ _ Hc1) as Hs1.
  cbn [op_kind op_port] in Hk1, Hp1, Hs1.
  specialize (Hs1 (ex_intro _ name (or_intror eq_refl))).
  destruct o1 as [[|]|e1]; [|done|].
  2:{ mred. exists [ev1]. rewrite Hh1. repeat split; try done.
      - by repeat constructor.
      - cbn. rewrite Hk1. apply prefix_cons, prefix_nil. }
  mred.
  pose proof (simulate_outcome_ctl (CableInsertion name) (publish ev1 c1') w1) as H2.
  cbn [simulate] in H2.
  destruct (simulateCableInsertion name (mkState (publish ev1 c1') w1))
    as [[o2 [c2 w2]] t2].
  cbn [outcome final fst snd ctl] in H2.
  destruct H2 as [[-> ->] | (Ho2 & c2' & ev2 & Hv2 & Hc2 & ->)].
  { mred. exists [ev1]. rewrite Hh1. repeat split; try done.
    - by repeat constructor.
    - cbn. rewrite Hk1. apply prefix_cons, prefix_nil.
    - cbn. lia. }
  pose proof (commits_history _ _ _ _ Hc2) as Hh2.
  pose proof (commits_kind _ _ _ _ Hc2) as Hk2.
  pose proof (commits_port _ _ _ _ Hc2) as Hp2.
  pose proof (commits_cable_status _ _ _ _ Hc2) as Hs2.
  cbn [op_kind op_port] in Hk2, Hp2, Hs2.
  specialize (Hs2 (ex_intro _ name (or_introl eq_refl))).
  destruct o2 as [[|]|e2]; [|done|].
  2:{ mred. exists [ev1; ev2]. rewrite Hh2, Hh1, <- app_assoc.
      repeat split; try done.
      - by repeat constructor.
      - cbn. rewrite Hk1, Hk2. apply prefix_cons, prefix_cons, prefix_nil. }
  destruct (IH (i + 1)%Z (publish ev2 c2') w2) as (evs & Hh & Hp & Hk & Hlen & Hop).
  exists (ev1 :: ev2 :: evs).
  destruct (i <? flap_count - 1)%Z; mred.
  all: destruct (link_flap_loop name flap_count k (i + 1) (mkState (publish ev2 c2') w2))
         as [[o3 [c3 w3]] t3]; cbn [outcome final fst snd ctl] in *.
  all: destruct o3 as [b|e]; mred.
  all: rewrite Hh, Hh2, Hh1, <- !app_assoc; cbn [app].
  all: split; [done|].
  all: split; [by repeat constructor|].
  all: split; [cbn [fmap list_fmap]; rewrite Hk1, Hk2; by apply prefix_cons, prefix_cons|].
  all: split; [intros Hb; cbn [List.length]; try specialize (Hlen Hb);
               try discriminate; lia|].
  all: rewrite Hop, !last_cons; destruct (last evs); cbn; by rewrite ?Hs2.
Qed.

(** X20. A link flap is not rolled back. Whatever its outcome, the
    history has gained events of the port only, their kinds an initial
    part of removal, insertion, removal, insertion, ...; when the flap
    returns [false] fewer than 2n events were recorded, and the port is
    left in the status of the last recorded event (as before if there
    is none): a flap that fails at an insertion leaves the port DOWN. *)
Theorem link_flap_is_not_rolled_back (name : string) (flap_count : Z) (s : State) :
  exists evs,
    m_event_history (ctl (final (run (simulateLinkFlap name flap_count) s)))
    = m_event_history (ctl s) ++ evs
    /\ Forall (fun ev => ev_port_name ev = name) evs
    /\ event_type <$> evs `prefix_of` flap_kinds (Z.to_nat flap_count)
    /\ (outcome (run (simulateLinkFlap name flap_count) s) = Ret false ->
        List.length evs < 2 * Z.to_nat flap_count)
    /\ oper_of (ctl (final (run (simulateLinkFlap name flap_count) s))) name
       = from_option new_status (oper_of (ctl s) name) (last evs).
Proof.
  destruct s as [c w]. unfold run, simulateLinkFlap. cbn [ctl]. mred.
  destruct (link_flap_loop_history name flap_count (Z.to_nat flap_count) 0 c w)
    as (evs & Hh & Hp & Hk & Hlen & Hop).
  exists evs.
  destruct (link_flap_loop name flap_count (Z.to_nat flap_count) 0 (mkState c w))
    as [[o [c' w']] t]. cbn [outcome final fst snd ctl] in *.
  destruct o as [[|]|e]; mred; repeat split; try done.
Qed.

(** X21. Operations compose: when a list of simulate operations is run
    one after the other and each returns [true], the history has gained
    exactly one event per operation, in call order, with the kind and
    the port of its operation; and every port's counters and
    operational status are what the operations, applied in order to the
    values before, give. *)
Theorem simulate_all_composes (ops : list SimulateOp) (s : State) :
  fst (simulate_all ops s) = true ->
  exists evs,
    m_event_history (ctl (snd (simulate_all ops s))) = m_event_history (ctl s) ++ evs
    /\ event_type <$> evs = op_kind <$> ops
    /\ ev_port_name <$> evs = op_port <$> ops
    /\ forall name,
         up_count (ctl (snd (simulate_all ops s))) name
         = foldl (fun x op => up_count_after op name x) (up_count (ctl s) name) ops
         /\ down_count (ctl (snd (simulate_all ops s))) name
            = foldl (fun x op => down_count_after op name x)
                    (down_count (ctl s) name) ops
         /\ oper_of (ctl (snd (simulate_all ops s))) name
            = foldl (fun x op => oper_after op name x) (oper_of (ctl s) name) ops.
Proof.
  revert s. induction ops as [|op ops IH]; intros [c w]; cbn [simulate_all].
  { intros _. exists []. cbn. by rewrite app_nil_r. }
  unfold run.
  destruct (outcome (simulate op (mkState c w))) as [[|]|e] eqn:Ho; try done.
  destruct (simulate_success op c w Ho) as (c' & ev & dtr & Hc & Hctl & _).
  destruct (final (simulate op (mkState c w))) as [c1 w1]. cbn [ctl] in Hctl. subst c1.
  intros Hall. destruct (IH _ Hall) as (evs & Hh & Hk & Hp & Hn).
  exists (ev :: evs). cbn [ctl] in *.
  rewrite Hh, (commits_history _ _ _ _ Hc), <- app_assoc. split; [done|].
  cbn [fmap list_fmap foldl].
  rewrite Hk, Hp, (commits_kind _ _ _ _ Hc), (commits_port _ _ _ _ Hc).
  repeat split; try done.
  - rewrite (proj1 (Hn name)). by rewrite (proj1 (commits_counters _ _ _ _ name Hc)).
  - rewrite (proj1 (proj2 (Hn name))).
    by rewrite (proj2 (commits_counters _ _ _ _ name Hc)).
  - rewrite (proj2 (proj2 (Hn name))). by rewrite (commits_oper _ _ _ _ name Hc).
Qed.


(** ** Further properties: handlers and mutexes *)

Lemma sync_view_app t1 t2 : sync_view (t1 ++ t2) = sync_view t1 ++ sync_view t2.
Proof.
  induction t1 as [|a t1 IH]; [reflexivity|].
  destruct a; cbn; rewrite ?IH; reflexivity.
Qed.

Lemma sync_view_exec_trace c cmd r : sync_view (exec_trace c cmd r) = [].
Proof.
  unfold exec_trace.
  destruct (m_verbose_debug c), r as [[out z]|]; cbn;
    try destruct (z =? 0)%Z; reflexivity.
Qed.

Ltac obs_sync :=
  unfold invoked_slots;
  repeat first
    [ progress cbn [sync_view invocations app fmap list_fmap]
    | rewrite sync_view_app | rewrite invocations_app
    | rewrite sync_view_exec_trace | rewrite invocations_exec_trace
    | rewrite fmap_app ].

Lemma dispatch_sync slot_of label ev hs : forall i s,
  sync_view (trace (dispatch slot_of label i hs ev s))
  = Call <$> invoked_slots (trace (dispatch slot_of label i hs ev s)).
Proof.
  induction hs as [|h hs IH]; intros i [c w]; [reflexivity|].
  cbn [dispatch]. rewrite run_bind.
  unfold try_catch_std, call_handler. cbn [ctl world].
  destruct (h ev w) as [[[what|]|] w1]; mred.
  - specialize (IH (S i) (mkState c w1)).
    destruct (dispatch slot_of label (S i) hs ev (mkState c w1)) as [[o s'] tr].
    unfold trace in IH. cbn [snd] in IH. obs_sync. by rewrite IH.
  - reflexivity.
  - specialize (IH (S i) (mkState c w1)).
    destruct (dispatch slot_of label (S i) hs ev (mkState c w1)) as [[o s'] tr].
    unfold trace in IH. cbn [snd] in IH. obs_sync. by rewrite IH.
Qed.

(** Running a dispatch loop whose synchronisation view is known. *)
Ltac sync_dispatch :=
  match goal with
  | |- context [dispatch ?slot_of ?label ?i ?hs ?ev ?s] =>
      let H := fresh "Hd" in
      pose proof (dispatch_sync slot_of label ev hs i s) as H;
      destruct (dispatch slot_of label i hs ev s) as [[[[]|?] [? ?]] ?];
      unfold trace in H; cbn [snd] in H; mred
  end.

Lemma triggerEvent_sync ev s :
  sync_view (trace (triggerEvent ev s))
  = bracket [m_event_mutex; m_handler_mutex]
            (Call <$> invoked_slots (trace (triggerEvent ev s))).
Proof.
  destruct s as [c w]. unfold triggerEvent, logEvent, bracket. mred.
  unfold set_event_log. cbn [m_event_handlers m_global_handlers].
  destruct (m_event_handlers c !! event_type ev) as [hs|]; mred.
  - sync_dispatch; [sync_dispatch|].
    all: obs_sync; rewrite ?Hd, ?Hd0; unfold invoked_slots; cbn;
      by rewrite <- ?app_assoc.
  - sync_dispatch.
    all: obs_sync; rewrite ?Hd; unfold invoked_slots; cbn; by rewrite <- ?app_assoc.
Qed.

(** One step of running a simulate operation, keeping the
    synchronisation view of [triggerEvent]. *)
Ltac sync_step :=
  mred;
  first
    [ rewrite getPortLinkStateUnsafe_run
    | rewrite setRedisHashField_run; cbn zeta
    | match goal with
      | |- context [m_port_states ?c !! ?n] =>
          destruct (m_port_states c !! n) eqn:?
      | |- context [popen_pclose ?cmd ?w] =>
          let r := fresh "r" in
          let w' := fresh "w" in
          destruct (popen_pclose cmd w) as [r w'] eqn:?; cbn [fst snd]
      | |- context [popen_ok ?r] => is_var r; destruct (popen_ok r) eqn:?
      | |- context [system_clock_now ?w] =>
          let t := fresh "t" in
          let w' := fresh "w" in
          destruct (system_clock_now w) as [t w'] eqn:?; cbn [fst snd]
      | |- context [triggerEvent ?ev ?s] =>
          let H := fresh "Hsync" in
          pose proof (triggerEvent_sync ev s) as H;
          destruct (triggerEvent ev s) as [[[[]|?] [? ?]] ?];
          unfold trace in H; cbn [snd] in H
      end ].

Ltac sync_done :=
  mred; unfold sync_shape, bracket; mred;
  first
    [ left; split; [reflexivity|]; split; [obs_sync; reflexivity|];
      obs_sync; first [by left | by right]
    | right; split; [discriminate|];
      obs_sync;
      match goal with H : sync_view _ = _ |- _ => rewrite H end;
      unfold bracket, invoked_slots; cbn; rewrite ?app_nil_r, <- ?app_assoc;
      reflexivity ].

(** X22. Handlers run inside all three mutexes. A simulate operation
    that gets as far as an event takes the state mutex, then the event
    mutex, then the handler mutex, calls its handlers, and releases the
    three in reverse order, also when an exception of a handler ends
    the operation; a handler that calls back into an operation taking
    one of these mutexes would therefore block. A run that returns
    [false] calls no handler and at most takes and releases the state
    mutex. *)
Theorem handlers_run_inside_all_three_mutexes (op : SimulateOp) (s : State) :
  sync_shape (run (simulate op) s).
Proof.
  destruct s as [c w]. unfold run.
  destruct op as [name|name|name sfp_info|name]; cbn [simulate].
  - unfold simulateCableInsertion.
    destruct (validatePortName name); [|sync_done].
    repeat sync_step; sync_done.
  - unfold simulateCableRemoval.
    destruct (validatePortName name); [|sync_done].
    repeat sync_step; sync_done.
  - unfold simulateSFPInsertion.
    destruct (validatePortName name); [|sync_done].
    repeat sync_step; sync_done.
  - unfold simulateSFPRemoval.
    destruct (validatePortName name); [|sync_done].
    repeat sync_step; sync_done.
Qed.

(** ** Further properties: listing the port table *)

Lemma string_leb_trans s1 s2 s3 :
  String.leb s1 s2 = true -> String.leb s2 s3 = true -> String.leb s1 s3 = true.
Proof.
  unfold String.leb. revert s2 s3.
  induction s1 as [|a s1 IH]; intros [|b s2] [|c s3]; cbn; try done.
  unfold Ascii.compare.
  destruct (N.compare_spec (N_of_ascii a) (N_of_ascii b)),
           (N.compare_spec (N_of_ascii b) (N_of_ascii c)),
           (N.compare_spec (N_of_ascii a) (N_of_ascii c));
    try done; try lia.
  apply IH.
Qed.

#[local] Instance key_le_total : Total key_le.
Proof. intros p q. apply String.leb_total. Qed.

#[local] Instance key_le_trans : Transitive key_le.
Proof. intros p q r. apply string_leb_trans. Qed.

Lemma StronglySorted_values (l : list (string * LinkState)) :
  Forall (fun p => port_name (snd p) = fst p) l ->
  StronglySorted key_le l ->
  StronglySorted (fun a b => String.leb (port_name a) (port_name b) = true)
                 (snd <$> l).
Proof.
  intros Hk. induction 1 as [|p l Hs IH Hall]; cbn; constructor.
  - apply IH. by inversion Hk.
  - inversion Hk as [|? ? Hp Hl]; subst.
    apply Forall_fmap. rewrite Forall_forall in Hall, Hl |- *.
    intros q Hq. cbn. rewrite Hp, (Hl q Hq). by apply Hall.
Qed.

(** X23. In every state a new controller reaches by calls of its
    public operations, [getAllPortStates] returns every entry of the
    port table exactly once, in increasing order of port name (the
    byte-wise order of [std::map]), and changes nothing. *)
Theorem getAllPortStates_lists_the_table_in_name_order (s : State) :
  reachable s ->
  exists l,
    outcome (run getAllPortStates s) = Ret l
    /\ final (run getAllPortStates s) = s
    /\ StronglySorted (fun a b => String.leb (port_name a) (port_name b) = true) l
    /\ NoDup (port_name <$> l)
    /\ List.length l = size (m_port_states (ctl s))
    /\ forall st, st ∈ l <-> m_port_states (ctl s) !! port_name st = Some st.
Proof.
  intros Hr.
  assert (Hkeys : forall name st,
             m_port_states (ctl s) !! name = Some st -> port_name st = name).
  { apply (reachable_ind_ctl keys_consistent) in Hr as [Hk _]; [done| |].
    - split; intros q x Hq; cbn in Hq; by rewrite lookup_empty in Hq.
    - apply keys_consistent_step. }
  destruct s as [c w]. unfold run. rewrite getAllPortStates_run. cbn [ctl] in *.
  eexists. split; [reflexivity|]. split; [reflexivity|].
  set (L := merge_sort key_le (map_to_list (m_port_states c))).
  assert (HP : L ≡ₚ map_to_list (m_port_states c)) by apply merge_sort_Permutation.
  assert (HL : Forall (fun p => port_name (snd p) = fst p) L).
  { rewrite HP. apply Forall_forall. intros [k st] Hin.
    apply elem_of_map_to_list in Hin. cbn. by apply Hkeys. }
  split; [|split; [|split]].
  - apply StronglySorted_values; [done|].
    apply StronglySorted_merge_sort; apply _.
  - rewrite <- list_fmap_compose.
    rewrite (list_fmap_ext (port_name ∘ snd) fst L).
    + rewrite HP. apply NoDup_fst_map_to_list.
    + intros i p Hp. cbn. rewrite Forall_forall in HL.
      apply HL. by eapply list_elem_of_lookup_2.
  - rewrite length_fmap, HP. apply length_map_to_list.
  - intros st. rewrite list_elem_of_fmap. split.
    + intros ([k st'] & -> & Hin). rewrite HP in Hin.
      apply elem_of_map_to_list in Hin. cbn.
      by rewrite (Hkeys k st' Hin).
    + intros Hst. exists (port_name st, st). split; [done|].
      rewrite HP. by apply elem_of_map_to_list.
Qed.

(** ** Counters under every operation *)

(** Case analysis on every decision of the goal. *)
Ltac decide_all :=
  repeat match goal with
         | |- context [decide ?P] => destruct (decide P)
         | |- context [bool_decide ?P] => destruct (bool_decide_reflect P)
         end.

Lemma transitions_app k name l1 l2 :
  transitions k name (l1 ++ l2) = transitions k name l1 + transitions k name l2.
Proof. unfold transitions. by rewrite filter_app, length_app. Qed.

Lemma transitions_le_length k name evs : transitions k name evs <= List.length evs.
Proof. unfold transitions. apply length_filter. Qed.

Lemma counted_refl name c : counted name [] c c.
Proof. split; [by rewrite app_nil_r|done]. Qed.

Lemma counted_trans name e1 e2 c1 c2 c3 :
  counted name e1 c1 c2 -> counted name e2 c2 c3 -> counted name (e1 ++ e2) c1 c3.
Proof.
  intros (Hh1 & Hu1 & Hd1) (Hh2 & Hu2 & Hd2). split; [|split].
  - by rewrite Hh2, Hh1, app_assoc.
  - rewrite Hu2, Hu1, transitions_app, Nat.add_comm. symmetry. apply Nat.iter_add.
  - rewrite Hd2, Hd1, transitions_app, Nat.add_comm. symmetry. apply Nat.iter_add.
Qed.

Lemma counted_commit name c c' :
  commit_step c c' -> exists ev, counted name [ev] c c'.
Proof.
  destruct 1 as [op c c1 ev Hv Hc]. exists ev.
  split; [by eapply commits_history|].
  destruct (commits_counters op c c1 ev name Hc) as [-> ->].
  pose proof (commits_kind op c c1 ev Hc) as Hk.
  pose proof (commits_port op c c1 ev Hc) as Hp.
  unfold transitions. rewrite !filter_cons, !filter_nil, Hk, Hp.
  destruct op; cbn [up_count_after down_count_after op_kind op_port];
    decide_all; cbn; first [done | intuition congruence].
Qed.

Lemma counted_rtc name c c' :
  rtc commit_step c c' -> exists evs, counted name evs c c'.
Proof.
  induction 1 as [c|c c1 c2 Hs _ (evs & IH)]; [exists []; apply counted_refl|].
  destruct (counted_commit name c c1 Hs) as (ev & Hev).
  exists ([ev] ++ evs). by eapply counted_trans.
Qed.

Lemma iter_incr_no_wrap k x :
  (x + N.of_nat k < UINT64_MOD)%N -> Nat.iter k incr_u64 x = (x + N.of_nat k)%N.
Proof.
  induction k as [|k IH]; intros Hx; [cbn; lia|].
  rewrite Nat.iter_succ, IH by lia. unfold incr_u64.
  rewrite N.mod_small by lia. lia.
Qed.

Lemma count_flap_kinds k n :
  k = CABLE_INSERTED \/ k = CABLE_REMOVED ->
  List.length (filter (fun x => x = k) (flap_kinds n)) = n.
Proof.
  intros Hk. induction n as [|n IH]; [done|].
  change (flap_kinds (S n)) with (CABLE_REMOVED :: CABLE_INSERTED :: flap_kinds n).
  rewrite !filter_cons.
  destruct Hk as [-> | ->]; decide_all; try done; cbn; by rewrite IH.
Qed.

Lemma transitions_le_kinds k name evs :
  transitions k name evs
  <= List.length (filter (fun x => x = k) (event_type <$> evs)).
Proof.
  unfold transitions. induction evs as [|ev evs IH]; [done|].
  cbn [fmap list_fmap]. rewrite !filter_cons.
  decide_all; cbn [List.length]; first [lia | intuition congruence].
Qed.

Lemma transitions_prefix_flap k name evs n :
  k = CABLE_INSERTED \/ k = CABLE_REMOVED ->
  event_type <$> evs `prefix_of` flap_kinds n ->
  transitions k name evs <= n.
Proof.
  intros Hk [rest Hr]. etrans; [apply transitions_le_kinds|].
  rewrite <- (count_flap_kinds k n Hk), Hr, filter_app, length_app. lia.
Qed.

Lemma transitions_flap k name port : forall n evs,
  k = CABLE_INSERTED \/ k = CABLE_REMOVED ->
  event_type <$> evs = flap_kinds n ->
  Forall (fun ev => ev_port_name ev = port) evs ->
  transitions k name evs = if bool_decide (port = name) then n else 0.
Proof.
  induction n as [|n IH]; intros evs Hk He Hp.
  { destruct evs; [by case_bool_decide|done]. }
  change (flap_kinds (S n)) with (CABLE_REMOVED :: CABLE_INSERTED :: flap_kinds n) in He.
  destruct evs as [|e1 [|e2 evs]]; try done.
  cbn [fmap list_fmap] in He. injection He as He1 He2 He.
  inversion Hp as [|? ? Hp1 Hp']; subst. inversion Hp' as [|? ? Hp2 Hp'']; subst.
  specialize (IH evs Hk He Hp''). unfold transitions in *.
  rewrite !filter_cons, He1, He2, Hp2.
  destruct Hk as [-> | ->]; decide_all;
    cbn [List.length]; first [lia | intuition congruence].
Qed.

(** The events of a link flap. *)
Lemma simulateLinkFlap_events name flap_count c w :
  exists evs,
    m_event_history
      (ctl (final (simulateLinkFlap name flap_count (mkState c w))))
    = m_event_history c ++ evs
    /\ Forall (fun ev => ev_port_name ev = name) evs
    /\ event_type <$> evs `prefix_of` flap_kinds (Z.to_nat flap_count)
    /\ (outcome (simulateLinkFlap name flap_count (mkState c w)) = Ret true ->
        event_type <$> evs = flap_kinds (Z.to_nat flap_count)).
Proof.
  unfold simulateLinkFlap. mred.
  destruct (link_flap_loop_history name flap_count (Z.to_nat flap_count) 0 c w)
    as (evs & Hh & Hp & Hk & _).
  pose proof (link_flap_loop_success name flap_count (Z.to_nat flap_count) 0 c w)
    as Hs.
  exists evs.
  destruct (link_flap_loop name flap_count (Z.to_nat flap_count) 0 (mkState c w))
    as [[o [c' w']] t]. cbn [outcome final fst snd ctl] in *.
  destruct o as [[|]|e]; mred; repeat split; try done.
  intros _. destruct (Hs eq_refl) as (evs' & Hh' & Hk' & _).
  rewrite Hh in Hh'. by apply app_inv_head in Hh' as ->.
Qed.

(** What a call that does not rebuild the table does to the counters. *)
Lemma api_counted a s name :
  resets_counters a = false ->
  exists evs,
    counted name evs (ctl s) (ctl (api_final a s))
    /\ transitions CABLE_INSERTED name evs <= max_transitions a
    /\ transitions CABLE_REMOVED name evs <= max_transitions a.
Proof.
  destruct s as [c w].
  destruct a as [op|port n| | |k h|h|port| |port|port expected|port|port];
    try discriminate; intros _;
    unfold api_final, api_run, forget, run; cbn [fst snd ctl max_transitions].
  - destruct (simulate_final_ctl op c w) as [-> | (c' & ev & Hv & Hc & -> & _)].
    + exists []. split; [apply counted_refl|]. cbn. lia.
    + destruct (counted_commit name c (publish ev c')) as (ev' & Hev);
        [by eapply commit_step_intro|].
      exists [ev']. split; [done|].
      split; (etrans; [apply transitions_le_length|done]).
  - destruct (counted_rtc name c _
                (simulateLinkFlap_commit_steps port n (mkState c w)))
      as (evs & Hev).
    destruct (simulateLinkFlap_events port n c w) as (evs' & Hh & _ & Hk & _).
    unfold run in Hev. cbn [ctl] in Hev.
    assert (evs' = evs) as ->.
    { destruct Hev as (Hh' & _). rewrite Hh in Hh'. by apply app_inv_head in Hh'. }
    exists evs. split; [done|].
    split; apply transitions_prefix_flap; auto.
  - rewrite registerEventHandler_run. exists []. split; [|cbn; lia].
    split; [by rewrite app_nil_r|done].
  - rewrite registerGlobalEventHandler_run. exists []. split; [|cbn; lia].
    split; [by rewrite app_nil_r|done].
  - rewrite getPortLinkState_run. exists []. split; [apply counted_refl|cbn; lia].
  - rewrite getAllPortStates_run. exists []. split; [apply counted_refl|cbn; lia].
  - rewrite getSFPInfo_run. exists []. split; [apply counted_refl|cbn; lia].
  - rewrite (proj1 (verifySONiCPortStatus_ctl _ _ c w)).
    exists []. split; [apply counted_refl|cbn; lia].
  - rewrite (proj1 (getSONiCInterfaceStatus_ctl _ c w)).
    exists []. split; [apply counted_refl|cbn; lia].
  - rewrite (proj1 (getSONiCTransceiverInfo_ctl _ c w)).
    exists []. split; [apply counted_refl|cbn; lia].
Qed.

(** C2, as the code has it. Every call other than the refresh, and
    [initialize] which runs it, leaves each counter of each port
    incremented exactly once per transition it recorded: [link_up_count]
    once per CABLE_INSERTED event of the port among the events the call
    appended to the history, [link_down_count] once per CABLE_REMOVED
    event; these are at most one for a simulate operation, at most n
    for a link flap of n rounds, and none for the registrations and the
    reads, so short of the wrap-around of [uint64_t] no such call
    lowers a counter. A simulate operation that returns [true] leaves
    every counter as it was except that a cable insertion has counted
    exactly one more link-up on its port and a cable removal exactly
    one more link-down; one that returns [false] changes none; a link
    flap of n rounds that returns [true] has counted n more of each on
    its port. [refreshPortStatusFromSONiC] rebuilds the table with both
    counters of every port at zero, and [initialize] either does the
    same or leaves the counters alone. *)
Theorem counters_under_every_operation (a : ApiCall) (op : SimulateOp) (s : State)
    (name : string) :
  (resets_counters a = false ->
   exists evs,
     m_event_history (ctl (api_final a s)) = m_event_history (ctl s) ++ evs
     /\ up_count (ctl (api_final a s)) name
        = Nat.iter (transitions CABLE_INSERTED name evs) incr_u64
                   (up_count (ctl s) name)
     /\ down_count (ctl (api_final a s)) name
        = Nat.iter (transitions CABLE_REMOVED name evs) incr_u64
                   (down_count (ctl s) name)
     /\ transitions CABLE_INSERTED name evs <= max_transitions a
     /\ transitions CABLE_REMOVED name evs <= max_transitions a
     /\ ((up_count (ctl s) name + N.of_nat (max_transitions a) < UINT64_MOD)%N ->
         up_count (ctl (api_final a s)) name
         = (up_count (ctl s) name
            + N.of_nat (transitions CABLE_INSERTED name evs))%N
         /\ (up_count (ctl s) name <= up_count (ctl (api_final a s)) name)%N)
     /\ ((down_count (ctl s) name + N.of_nat (max_transitions a) < UINT64_MOD)%N ->
         down_count (ctl (api_final a s)) name
         = (down_count (ctl s) name
            + N.of_nat (transitions CABLE_REMOVED name evs))%N
         /\ (down_count (ctl s) name <= down_count (ctl (api_final a s)) name)%N))
  /\ ((up_count (ctl s) name + 1 < UINT64_MOD)%N ->
      (up_count (ctl s) name <= up_count (ctl (final (run (simulate op) s))) name)%N)
  /\ ((down_count (ctl s) name + 1 < UINT64_MOD)%N ->
      (down_count (ctl s) name
       <= down_count (ctl (final (run (simulate op) s))) name)%N)
  /\ (outcome (run (simulate op) s) = Ret true ->
      up_count (ctl (final (run (simulate op) s))) name
      = up_count_after op name (up_count (ctl s) name)
      /\ down_count (ctl (final (run (simulate op) s))) name
         = down_count_after op name (down_count (ctl s) name))
  /\ (outcome (run (simulate op) s) = Ret false ->
      up_count (ctl (final (run (simulate op) s))) name = up_count (ctl s) name
      /\ down_count (ctl (final (run (simulate op) s))) name
         = down_count (ctl s) name)
  /\ (forall port n,
        outcome (run (simulateLinkFlap port n) s) = Ret true ->
        up_count (ctl (final (run (simulateLinkFlap port n) s))) name
        = Nat.iter (if bool_decide (port = name) then Z.to_nat n else 0) incr_u64
                   (up_count (ctl s) name)
        /\ down_count (ctl (final (run (simulateLinkFlap port n) s))) name
           = Nat.iter (if bool_decide (port = name) then Z.to_nat n else 0) incr_u64
                      (down_count (ctl s) name))
  /\ up_count (ctl (final (run refreshPortStatusFromSONiC s))) name = 0%N
  /\ down_count (ctl (final (run refreshPortStatusFromSONiC s))) name = 0%N
  /\ (ctl (final (run initialize s)) = ctl s
      \/ up_count (ctl (final (run initialize s))) name = 0%N
         /\ down_count (ctl (final (run initialize s))) name = 0%N).
Proof.
  split.
  { intros Ha. destruct (api_counted a s name Ha) as (evs & (Hh & Hu & Hd) & Hmu & Hmd).
    exists evs. split; [done|]. split; [done|]. split; [done|].
    split; [done|]. split; [done|]. split.
    - intros Hx. rewrite Hu, iter_incr_no_wrap by lia. split; [done|lia].
    - intros Hx. rewrite Hd, iter_incr_no_wrap by lia. split; [done|lia]. }
  destruct s as [c w]. unfold run. cbn [ctl].
  split; [|split; [|split; [|split; [|split; [|split; [|split]]]]]].
  - intros Hx. destruct (simulate_counters op c w name) as [[-> _] | [-> _]];
      [lia | by apply up_count_after_ge].
  - intros Hx. destruct (simulate_counters op c w name) as [[_ ->] | [_ ->]];
      [lia | by apply down_count_after_ge].
  - intros Ho. destruct (simulate_success op c w Ho) as (c' & ev & dtr & Hc & -> & _).
    by apply commits_counters.
  - destruct (simulate_cases op c w) as [tr Hv Hp Hi | w' tr Hv Hw Hi Hh
                                        | c' ev w' o dtr tr Hv Hc Hf Hw Hn Hi Hl Hh];
      cbn [outcome final trace ctl fst snd]; try done.
    by destruct o.
  - intros port n Ho.
    destruct (counted_rtc name c _
                (simulateLinkFlap_commit_steps port n (mkState c w)))
      as (evs & Hh' & Hu & Hd).
    destruct (simulateLinkFlap_events port n c w) as (evs' & Hh & Hp & _ & Hk).
    unfold run in *. cbn [ctl] in *.
    assert (evs' = evs) as ->.
    { rewrite Hh in Hh'. by apply app_inv_head in Hh'. }
    rewrite Hu, Hd.
    rewrite !(transitions_flap _ name port (Z.to_nat n) evs) by auto. done.
  - apply zeroed_counts, refresh_zeroed.
  - apply zeroed_counts, refresh_zeroed.
  - destruct (initialize_cases c w)
      as [(_ & _ & ->) | (_ & r2 & -> & [(_ & _ & t & ->) | (_ & _ & ->)])];
      [by left| |]; right.
    + apply (zeroed_counts
               (ctl (final (refreshPortStatusFromSONiC
                              (mkState c (snd (popen_pclose (c_str (echo_command c)) w))))))),
        refresh_zeroed.
    + apply zeroed_counts, refresh_zeroed.
Qed.

End Theory.

(** ** Concrete runs *)

Section Checks.
#[local] Existing Instance test_platform.

Example validatePortName_examples :
  validatePortName "Ethernet0" = true /\ validatePortName "Ethernet124" = true
  /\ validatePortName "Ethernet" = false /\ validatePortName "Ethernet1a" = false
  /\ validatePortName "eth0" = false.
Proof. vm_compute. repeat split. Qed.

Example getlines_examples :
  getlines (line "a" +:+ line EmptyString +:+ "b") = ["a"; EmptyString; "b"]
  /\ getlines (line "a") = ["a"] /\ getlines EmptyString = [].
Proof. vm_compute. repeat split. Qed.

Example stoul_examples :
  outcome (run (stoul "40000") s_fresh) = Ret 40000%N
  /\ outcome (run (stoul " +12abc") s_fresh) = Ret 12%N
  /\ outcome (run (stoul "fast") s_fresh) = Throw (StdException "stoul").
Proof. vm_compute. repeat split. Qed.

Example refresh_reads_two_ports :
  outcome (run refreshPortStatusFromSONiC s_two_ports) = Ret true
  /\ (fun st => (admin_status st, oper_status st, speed_mbps st, mtu st))
       <$> m_port_states (ctl (final (run refreshPortStatusFromSONiC s_two_ports)))
           !! "Ethernet0"
     = Some (UP, DOWN, 40000%N, 9100%N)
  /\ (fun st => (admin_status st, oper_status st, speed_mbps st, mtu st))
       <$> m_port_states (ctl (final (run refreshPortStatusFromSONiC s_two_ports)))
           !! "Ethernet4"
     = Some (UNKNOWN, UNKNOWN, 100000%N, 9100%N)
  /\ size (m_port_states (ctl (final (run refreshPortStatusFromSONiC s_two_ports))))
     = 2.
Proof. vm_compute. repeat split. Qed.

Example initialize_on_two_ports :
  outcome (run initialize s_echo_two_ports) = Ret true
  /\ m_initialized (ctl (final (run initialize s_echo_two_ports))) = true
  /\ size (m_port_states (ctl (final (run initialize s_echo_two_ports)))) = 2
  /\ outcome (run initialize s_fail) = Ret false.
Proof. vm_compute. repeat split. Qed.

(** The third HSET of an SFP insertion fails: the fourth one is still
    issued ([result &= ...]), the call returns [false] and the SFP map is
    untouched. *)
Example sfp_insertion_runs_all_four_commands :
  let s := {| ctl := SONiCInterruptController_new;
              world := {| tw_clock := 100;
                          tw_script := [Some (EmptyString, 0%Z); Some (EmptyString, 0%Z);
                                        Some ("ERR", 1%Z)];
                          tw_log := [] |} |} in
  outcome (run (simulateSFPInsertion "Ethernet0" test_sfp) s) = Ret false
  /\ popen_ok <$> popens (trace (run (simulateSFPInsertion "Ethernet0" test_sfp) s))
     = [true; true; false; true]
  /\ m_sfp_info (ctl (final (run (simulateSFPInsertion "Ethernet0" test_sfp) s)))
       !! "Ethernet0" = None.
Proof. vm_compute. repeat split. Qed.

(** The [std::exception] of the kind-specific subscriber is reported on
    [std::cerr] and the global subscriber still runs. *)
Example std_exception_is_reported :
  Cerr "[INTERRUPT] Event handler exception: boom"
  ∈ trace (run (simulateCableInsertion "Ethernet0")
               (subscribed (std_throwing_handler "specific")
                           (logging_handler "global")))
  /\ tw_log (world (final (run (simulateCableInsertion "Ethernet0")
                               (subscribed (std_throwing_handler "specific")
                                           (logging_handler "global")))))
     = ["specific"; "global"].
Proof.
  split; [|vm_compute; reflexivity].
  apply list_elem_of_In. vm_compute. tauto.
Qed.

Example registry_after_subscribing :
  dispatch_order (ctl (subscribed (logging_handler "specific")
                                  (logging_handler "global"))) CABLE_INSERTED
  = [SpecificSlot CABLE_INSERTED 0; GlobalSlot 0].
Proof. vm_compute. reflexivity. Qed.

(** The callbacks really run in that order: the log the two subscribers
    write to reads kind-specific first, global second. *)
Example handlers_log_in_dispatch_order :
  tw_log (world (final (run (simulateCableInsertion "Ethernet0")
                            (subscribed (logging_handler "specific")
                                        (logging_handler "global")))))
  = ["specific"; "global"].
Proof. vm_compute. reflexivity. Qed.

Example verify_against_system_of_record :
  outcome (run (verifySONiCPortStatus "Ethernet0" UP) s_reads_up) = Ret true
  /\ outcome (run (verifySONiCPortStatus "Ethernet0" DOWN) s_reads_up) = Ret false
  /\ outcome (run (verifySONiCPortStatus "Ethernet0" UNKNOWN) s_fail) = Ret true.
Proof. vm_compute. repeat split. Qed.

(** The read loop appends each chunk as a C string: what follows a NUL
    byte in a chunk is lost, its newline included; a line longer than
    the buffer comes in several chunks. *)
Example read_pipe_examples :
  read_pipe (line "up") = line "up"
  /\ read_pipe (line ("u" +:+ String nul "p")) = "u"
  /\ read_pipe (line ("a" +:+ String nul "b") +:+ line "c") = "a" +:+ line "c"
  /\ fst (fgets 3 (line "abcde")) = "abc"
  /\ read_pipe (line "PORT|Ethernet0" +:+ line "PORT|Ethernet4")
     = line "PORT|Ethernet0" +:+ line "PORT|Ethernet4"
  /\ c_str ("redis-cli" +:+ String nul "rest") = "redis-cli".
Proof. vm_compute. repeat split. Qed.

(** The answer u, p, NUL, x, newline is read as "up". *)
Example verify_reads_up_before_a_nul :
  let s := {| ctl := SONiCInterruptController_new;
              world := {| tw_clock := 100;
                          tw_script := [Some (line ("up" +:+ String nul "x"), 0%Z)];
                          tw_log := [] |} |} in
  outcome (run (getRedisHashField "PORT_TABLE:Ethernet0" "oper_status" 0) s)
  = Ret "up"
  /\ outcome (run (verifySONiCPortStatus "Ethernet0" UP) s) = Ret true.
Proof. vm_compute. repeat split. Qed.

(** A key with a NUL byte in the KEYS answer swallows its newline: the
    line that follows is glued to it, and the port of that line is not
    listed under its own name. *)
Example refresh_with_a_nul_in_the_listing :
  let s := {| ctl := SONiCInterruptController_new;
              world := {| tw_clock := 100;
                          tw_script := [Some (line ("PORT|Ethernet0" +:+ String nul "x")
                                              +:+ line "PORT|Ethernet4", 0%Z)];
                          tw_log := [] |} |} in
  outcome (run refreshPortStatusFromSONiC s) = Ret true
  /\ (map_to_list (m_port_states (ctl (final (run refreshPortStatusFromSONiC s))))).*1
     = ["Ethernet0PORT|Ethernet4"].
Proof. vm_compute. repeat split. Qed.

(** Two subscribers of the kind and two global ones, registered in
    turn: the log reads in registration order, kind-specific first. *)
Example handlers_run_in_registration_order :
  let s := final (run (registerGlobalEventHandler (logging_handler "g1");;
                       registerEventHandler CABLE_INSERTED (logging_handler "k1");;
                       registerEventHandler CABLE_REMOVED (logging_handler "other");;
                       registerGlobalEventHandler (logging_handler "g2");;
                       registerEventHandler CABLE_INSERTED (logging_handler "k2"))
                      s_fresh) in
  tw_log (world (final (run (simulateCableInsertion "Ethernet0") s)))
  = ["k1"; "k2"; "g1"; "g2"]
  /\ invoked_slots (trace (run (simulateCableInsertion "Ethernet0") s))
     = [SpecificSlot CABLE_INSERTED 0; SpecificSlot CABLE_INSERTED 1;
        GlobalSlot 0; GlobalSlot 1].
Proof. vm_compute. repeat split. Qed.

Lemma write_failure_is_atomic_witness :
  write_failed (trace (run (simulate (CableInsertion "Ethernet0")) s_fail)) = true
  /\ outcome (run (simulate (CableInsertion "Ethernet0")) s_fail) = Ret false
  /\ ctl (final (run (simulate (CableInsertion "Ethernet0")) s_fail)) = ctl s_fail
  /\ invocations (trace (run (simulate (CableInsertion "Ethernet0")) s_fail)) = [].
Proof.
  assert (Hw : write_failed (trace (run (simulate (CableInsertion "Ethernet0")) s_fail))
               = true) by (vm_compute; reflexivity).
  split; [exact Hw|].
  destruct (write_failure_is_atomic (CableInsertion "Ethernet0") s_fail Hw)
    as (Ho & Hc & _ & _ & _ & _ & Hi).
  repeat split; assumption.
Defined.

Lemma refresh_lowers_link_up_count :
  up_count (ctl s_counted) "Ethernet0" = 1%N
  /\ outcome (run refreshPortStatusFromSONiC s_counted) = Ret true
  /\ (up_count (ctl (final (run refreshPortStatusFromSONiC s_counted))) "Ethernet0"
      < up_count (ctl s_counted) "Ethernet0")%N.
Proof. vm_compute. repeat split. Qed.

Lemma counters_under_every_operation_witness :
  resets_counters (CallLinkFlap "Ethernet0" 3) = false
  /\ (up_count (ctl s_fresh) "Ethernet0"
      + N.of_nat (max_transitions (CallLinkFlap "Ethernet0" 3)) < UINT64_MOD)%N
  /\ outcome (run (simulate (CableInsertion "Ethernet0")) s_fresh) = Ret true
  /\ outcome (run (simulate (CableInsertion "Ethernet0")) s_fail) = Ret false
  /\ outcome (run (simulateLinkFlap "Ethernet0" 3) s_fresh) = Ret true
  /\ (up_count (ctl s_fresh) "Ethernet0"
      <= up_count (ctl (api_final (CallLinkFlap "Ethernet0" 3) s_fresh)) "Ethernet0")%N
  /\ up_count (ctl (final (run (simulate (CableInsertion "Ethernet0")) s_fresh)))
              "Ethernet0" = 1%N
  /\ up_count (ctl (final (run (simulate (CableInsertion "Ethernet0")) s_fail)))
              "Ethernet0" = 0%N
  /\ up_count (ctl (final (run (simulateLinkFlap "Ethernet0" 3) s_fresh))) "Ethernet0"
     = 3%N.
Proof.
  assert (H0 : resets_counters (CallLinkFlap "Ethernet0" 3) = false) by reflexivity.
  assert (H1 : (up_count (ctl s_fresh) "Ethernet0"
                + N.of_nat (max_transitions (CallLinkFlap "Ethernet0" 3))
                < UINT64_MOD)%N) by (vm_compute; reflexivity).
  assert (H2 : outcome (run (simulate (CableInsertion "Ethernet0")) s_fresh) = Ret true)
    by (vm_compute; reflexivity).
  assert (H3 : outcome (run (simulate (CableInsertion "Ethernet0")) s_fail) = Ret false)
    by (vm_compute; reflexivity).
  assert (H4 : outcome (run (simulateLinkFlap "Ethernet0" 3) s_fresh) = Ret true)
    by (vm_compute; reflexivity).
  destruct (counters_under_every_operation (CallLinkFlap "Ethernet0" 3)
              (CableInsertion "Ethernet0") s_fresh "Ethernet0")
    as (Hany & _ & _ & Hok & _ & Hflap & _).
  destruct (counters_under_every_operation (CallLinkFlap "Ethernet0" 3)
              (CableInsertion "Ethernet0") s_fail "Ethernet0")
    as (_ & _ & _ & _ & Hfail & _).
  destruct (Hany H0) as (evs & _ & _ & _ & _ & _ & Hmono & _).
  split; [exact H0|]. split; [exact H1|]. split; [exact H2|]. split; [exact H3|].
  split; [exact H4|]. split; [exact (proj2 (Hmono H1))|].
  split; [exact (proj1 (Hok H2))|]. split; [exact (proj1 (Hfail H3))|].
  exact (proj1 (Hflap "Ethernet0" 3%Z H4)).
Defined.

(** The port has no entry, so its status reads UNKNOWN, yet the event of a
    successful SFP insertion says it was DOWN. *)
Lemma sfp_insertion_old_status_is_not_the_stored_one :
  outcome (run (simulateSFPInsertion "Ethernet0" test_sfp) s_fresh) = Ret true
  /\ oper_of (ctl s_fresh) "Ethernet0" = UNKNOWN
  /\ old_status <$> last (m_event_history
       (ctl (final (run (simulateSFPInsertion "Ethernet0" test_sfp) s_fresh))))
     = Some DOWN
  /\ old_status <$> last (m_event_history
       (ctl (final (run (simulateSFPInsertion "Ethernet0" test_sfp) s_fresh))))
     <> Some (oper_of (ctl s_fresh) "Ethernet0").
Proof. vm_compute. repeat split. discriminate. Qed.

Lemma sfp_event_statuses_are_fixed_witness :
  outcome (run (simulateSFPInsertion "Ethernet0" test_sfp) s_fresh) = Ret true
  /\ outcome (run (simulateSFPRemoval "Ethernet0") s_fresh) = Ret true
  /\ (exists ev,
        m_event_history
          (ctl (final (run (simulateSFPInsertion "Ethernet0" test_sfp) s_fresh)))
        = m_event_history (ctl s_fresh) ++ [ev]
        /\ old_status ev = DOWN /\ new_status ev = UP)
  /\ (exists ev,
        m_event_history (ctl (final (run (simulateSFPRemoval "Ethernet0") s_fresh)))
        = m_event_history (ctl s_fresh) ++ [ev]
        /\ old_status ev = UP /\ new_status ev = DOWN).
Proof.
  assert (H1 : outcome (run (simulateSFPInsertion "Ethernet0" test_sfp) s_fresh)
               = Ret true) by (vm_compute; reflexivity).
  assert (H2 : outcome (run (simulateSFPRemoval "Ethernet0") s_fresh) = Ret true)
    by (vm_compute; reflexivity).
  destruct (sfp_event_statuses_are_fixed "Ethernet0" test_sfp s_fresh) as [Hi Hr].
  destruct (Hi H1) as [t1 E1]. destruct (Hr H2) as [t2 E2].
  split; [exact H1|]. split; [exact H2|]. split.
  - eexists. split; [exact E1|]. split; reflexivity.
  - eexists. split; [exact E2|]. split; reflexivity.
Defined.



(** A kind-specific subscriber throws something that is not a
    [std::exception]: the exception leaves [simulateCableInsertion], which
    therefore does not return success, and the global subscriber is never
    called. *)
Lemma foreign_exception_escapes_dispatch :
  outcome (run (simulate (CableInsertion "Ethernet0"))
               (subscribed (nonstd_throwing_handler "specific")
                           (logging_handler "global")))
  = Throw NonStdException
  /\ invoked_slots (trace (run (simulate (CableInsertion "Ethernet0"))
       (subscribed (nonstd_throwing_handler "specific") (logging_handler "global"))))
     = [SpecificSlot CABLE_INSERTED 0]
  /\ tw_log (world (final (run (simulate (CableInsertion "Ethernet0"))
       (subscribed (nonstd_throwing_handler "specific") (logging_handler "global")))))
     = ["specific"]
  /\ write_failed (trace (run (simulate (CableInsertion "Ethernet0"))
       (subscribed (nonstd_throwing_handler "specific") (logging_handler "global"))))
     = false.
Proof. vm_compute. repeat split. Qed.

Lemma subscribed_std_only specific global :
  std_only specific -> std_only global ->
  handlers_std_only (ctl (subscribed specific global)).
Proof.
  intros Hs Hg. split.
  - intros k hs Hk. destruct k; vm_compute in Hk; try discriminate.
    injection Hk as <-. by repeat constructor.
  - vm_compute. by repeat constructor.
Qed.

Lemma std_exceptions_are_isolated_witness :
  validatePortName (op_port (CableInsertion "Ethernet0")) = true
  /\ write_failed (trace (run (simulate (CableInsertion "Ethernet0")) s_mixed)) = false
  /\ cut_short (invocations (trace (run (simulate (CableInsertion "Ethernet0"))
                                        s_mixed))) = false
  /\ outcome (run (simulate (CableInsertion "Ethernet0")) s_mixed) = Ret true
  /\ invoked_slots (trace (run (simulate (CableInsertion "Ethernet0")) s_mixed))
     = [SpecificSlot CABLE_INSERTED 0; GlobalSlot 0]
  /\ errors_logged (trace (run (simulate (CableInsertion "Ethernet0")) s_mixed)) = true
  /\ handlers_std_only (ctl (subscribed (std_throwing_handler "specific")
                                        (logging_handler "global")))
  /\ outcome (run (simulate (CableInsertion "Ethernet0"))
                  (subscribed (std_throwing_handler "specific")
                              (logging_handler "global"))) = Ret true.
Proof.
  assert (H1 : validatePortName (op_port (CableInsertion "Ethernet0")) = true)
    by reflexivity.
  assert (H2 : write_failed (trace (run (simulate (CableInsertion "Ethernet0"))
                                        s_mixed)) = false) by (vm_compute; reflexivity).
  assert (H3 : cut_short (invocations (trace (run (simulate (CableInsertion "Ethernet0"))
                                                  s_mixed))) = false)
    by (vm_compute; reflexivity).
  assert (H4 : write_failed (trace (run (simulate (CableInsertion "Ethernet0"))
                 (subscribed (std_throwing_handler "specific")
                             (logging_handler "global")))) = false)
    by (vm_compute; reflexivity).
  assert (Hstd : handlers_std_only
                   (ctl (subscribed (std_throwing_handler "specific")
                                    (logging_handler "global")))).
  { apply subscribed_std_only; intros ev w; cbn; discriminate. }
  destruct (std_exceptions_are_isolated (CableInsertion "Ethernet0") s_mixed)
    as [Hrun _].
  destruct (Hrun H1 H2) as (Hl & _ & Hgood & _).
  destruct (Hgood H3) as (Ho & Hs & _).
  destruct (std_exceptions_are_isolated (CableInsertion "Ethernet0")
              (subscribed (std_throwing_handler "specific") (logging_handler "global")))
    as [_ Hall].
  destruct (Hall Hstd) as [_ Hpub]. destruct (Hpub H1 H4) as (Ho' & _).
  split; [exact H1|]. split; [exact H2|]. split; [exact H3|]. split; [exact Ho|].
  split; [rewrite Hs; vm_compute; reflexivity|]. split; [exact Hl|].
  split; [exact Hstd|]. exact Ho'.
Defined.

Lemma verify_reads_system_of_record_witness :
  fst (popen_pclose
         (c_str (hget_command (ctl s_reads_up) ("PORT_TABLE:" +:+ "Ethernet0")
                              "oper_status" 0)) (world s_reads_up))
  = Some ("up" +:+ nl, 0%Z)
  /\ popen_ok (fst (popen_pclose
         (c_str (hget_command (ctl s_fail) ("PORT_TABLE:" +:+ "Ethernet0")
                              "oper_status" 0)) (world s_fail))) = false
  /\ outcome (run (verifySONiCPortStatus "Ethernet0" UP)
                  (mkState (ctl s_reads_up) (world s_reads_up))) = Ret true
  /\ outcome (run (verifySONiCPortStatus "Ethernet0" DOWN)
                  (mkState (ctl s_reads_up) (world s_reads_up))) = Ret false
  /\ outcome (run (verifySONiCPortStatus "Ethernet0" UP)
                  (mkState (ctl s_fail) (world s_fail))) = Ret false.
Proof.
  assert (H1 : fst (popen_pclose
                 (c_str (hget_command (ctl s_reads_up) ("PORT_TABLE:" +:+ "Ethernet0")
                                      "oper_status" 0)) (world s_reads_up))
               = Some ("up" +:+ nl, 0%Z)) by (vm_compute; reflexivity).
  assert (H2 : popen_ok (fst (popen_pclose
                 (c_str (hget_command (ctl s_fail) ("PORT_TABLE:" +:+ "Ethernet0")
                                      "oper_status" 0)) (world s_fail))) = false)
    by (vm_compute; reflexivity).
  destruct (verify_reads_system_of_record "Ethernet0" UP (ctl s_reads_up)
              (world s_reads_up)) as (_ & _ & Hup & _).
  destruct (verify_reads_system_of_record "Ethernet0" DOWN (ctl s_reads_up)
              (world s_reads_up)) as (_ & _ & Hdown & _).
  destruct (verify_reads_system_of_record "Ethernet0" UP (ctl s_fail) (world s_fail))
    as (_ & _ & _ & _ & Hfail & _).
  split; [exact H1|]. split; [exact H2|]. split; [exact (Hup H1)|].
  split; [exact (Hdown H1)|]. exact (Hfail H2).
Defined.

(** A flap count of 0: every sub-step succeeds, there being none, the call
    returns [true], and the port is left as it was, here UNKNOWN. *)
Lemma zero_flaps_leave_the_port_as_it_was :
  outcome (run (simulateLinkFlap "Ethernet0" 0) s_fresh) = Ret true
  /\ m_event_history (ctl (final (run (simulateLinkFlap "Ethernet0" 0) s_fresh))) = []
  /\ oper_of (ctl (final (run (simulateLinkFlap "Ethernet0" 0) s_fresh))) "Ethernet0"
     = UNKNOWN
  /\ oper_of (ctl (final (run (simulateLinkFlap "Ethernet0" 0) s_fresh))) "Ethernet0"
     <> UP.
Proof. vm_compute. repeat split. discriminate. Qed.

Example three_flaps_six_events :
  outcome (run (simulateLinkFlap "Ethernet0" 3) s_fresh) = Ret true
  /\ event_type <$> m_event_history
       (ctl (final (run (simulateLinkFlap "Ethernet0" 3) s_fresh)))
     = [CABLE_REMOVED; CABLE_INSERTED; CABLE_REMOVED; CABLE_INSERTED;
        CABLE_REMOVED; CABLE_INSERTED]
  /\ oper_of (ctl (final (run (simulateLinkFlap "Ethernet0" 3) s_fresh))) "Ethernet0"
     = UP.
Proof. vm_compute. repeat split. Qed.

Lemma link_flap_publishes_2n_events_witness :
  (1 <= 3)%Z
  /\ outcome (run (simulateLinkFlap "Ethernet0" 3) s_fresh) = Ret true
  /\ (exists evs,
        m_event_history (ctl (final (run (simulateLinkFlap "Ethernet0" 3) s_fresh)))
        = m_event_history (ctl s_fresh) ++ evs
        /\ List.length evs = 6
        /\ Forall (fun ev => ev_port_name ev = "Ethernet0") evs)
  /\ oper_of (ctl (final (run (simulateLinkFlap "Ethernet0" 3) s_fresh))) "Ethernet0"
     = UP
  /\ (0 <= 0)%Z
  /\ final (run (simulateLinkFlap "Ethernet0" 0) s_fresh) = s_fresh.
Proof.
  assert (H1 : (1 <= 3)%Z) by lia.
  assert (H2 : outcome (run (simulateLinkFlap "Ethernet0" 3) s_fresh) = Ret true)
    by (vm_compute; reflexivity).
  assert (H3 : (0 <= 0)%Z) by lia.
  destruct (link_flap_publishes_2n_events "Ethernet0" 3 s_fresh) as [Hpos _].
  destruct (link_flap_publishes_2n_events "Ethernet0" 0 s_fresh) as [_ Hzero].
  destruct (Hpos H1 H2) as (evs & Hh & Hlen & Hport & _ & _ & Hup).
  destruct (Hzero H3) as (_ & Hsame & _).
  split; [exact H1|]. split; [exact H2|]. split.
  - exists evs. split; [exact Hh|]. split; [exact Hlen|exact Hport].
  - split; [exact Hup|]. split; [exact H3|exact Hsame].
Defined.


Example sfp_insertion_writes_without_mutex :
  held_at_io [] (trace (run (simulate (SFPInsertion "Ethernet0" test_sfp)) s_fresh))
  = [[]; []; []; []].
Proof. vm_compute. reflexivity. Qed.

Lemma insertion_then_removal_round_trip_witness :
  m_port_states (ctl s_fresh) !! "Ethernet0" = None
  /\ outcome (run (simulateCableInsertion "Ethernet0") s_fresh) = Ret true
  /\ outcome (run (simulateCableRemoval "Ethernet0")
                  (final (run (simulateCableInsertion "Ethernet0") s_fresh))) = Ret true
  /\ exists st,
       m_port_states (ctl (final (run (simulateCableRemoval "Ethernet0")
                                      (final (run (simulateCableInsertion "Ethernet0")
                                                  s_fresh)))))
         !! "Ethernet0" = Some st
       /\ oper_status st = DOWN
       /\ link_up_count st = 1%N
       /\ link_down_count st = 1%N.
Proof.
  assert (H1 : m_port_states (ctl s_fresh) !! "Ethernet0" = None)
    by (vm_compute; reflexivity).
  assert (H2 : outcome (run (simulateCableInsertion "Ethernet0") s_fresh) = Ret true)
    by (vm_compute; reflexivity).
  assert (H3 : outcome (run (simulateCableRemoval "Ethernet0")
                  (final (run (simulateCableInsertion "Ethernet0") s_fresh))) = Ret true)
    by (vm_compute; reflexivity).
  split; [exact H1|]. split; [exact H2|]. split; [exact H3|].
  exact (insertion_then_removal_round_trip "Ethernet0" s_fresh H1 H2 H3).
Defined.

(** Two reads of a port without an entry, one after the other: the
    results differ, in [last_change]. *)
Lemma repeated_default_reads_differ :
  outcome (run (getPortLinkState "Ethernet0") s_fresh)
  <> outcome (run (getPortLinkState "Ethernet0")
                  (final (run (getPortLinkState "Ethernet0") s_fresh)))
  /\ last_change <$> (match outcome (run (getPortLinkState "Ethernet0") s_fresh) with
                      | Ret st => Some st
                      | Throw _ => None
                      end) = Some 100%Z
  /\ last_change <$> (match outcome (run (getPortLinkState "Ethernet0")
                              (final (run (getPortLinkState "Ethernet0") s_fresh))) with
                      | Ret st => Some st
                      | Throw _ => None
                      end) = Some 101%Z.
Proof. vm_compute. repeat split. discriminate. Qed.

Lemma reads_of_unknown_ports_witness :
  m_port_states (ctl s_fresh) !! "Ethernet0" = None
  /\ m_sfp_info (ctl s_fresh) !! "Ethernet0" = None
  /\ (exists st1 st2,
        outcome (run (getPortLinkState "Ethernet0") s_fresh) = Ret st1
        /\ outcome (run (getPortLinkState "Ethernet0")
                        (final (run (getPortLinkState "Ethernet0") s_fresh))) = Ret st2
        /\ st1 = default_state "Ethernet0" (last_change st1)
        /\ st2 = default_state "Ethernet0" (last_change st2))
  /\ outcome (run (getSFPInfo "Ethernet0") s_fresh) = Ret (default_sfp "Ethernet0")
  /\ final (run (getSFPInfo "Ethernet0") s_fresh) = s_fresh.
Proof.
  assert (H1 : m_port_states (ctl s_fresh) !! "Ethernet0" = None)
    by (vm_compute; reflexivity).
  assert (H2 : m_sfp_info (ctl s_fresh) !! "Ethernet0" = None)
    by (vm_compute; reflexivity).
  destruct (reads_of_unknown_ports "Ethernet0" s_fresh) as [Hlink Hsfp].
  destruct (Hlink H1) as (st1 & st2 & E1 & E2 & D1 & D2 & _).
  destruct (Hsfp H2) as (E3 & _ & E4).
  split; [exact H1|]. split; [exact H2|]. split.
  - exists st1, st2. repeat split; assumption.
  - split; [exact E3|exact E4].
Defined.

(** ** The further properties on concrete runs *)

Example sync_view_of_a_cable_insertion :
  sync_view (trace (run (simulate (CableInsertion "Ethernet0"))
                        (subscribed (logging_handler "a") (logging_handler "b"))))
  = [Acquire m_state_mutex; Acquire m_event_mutex; Acquire m_handler_mutex;
     Call (SpecificSlot CABLE_INSERTED 0); Call (GlobalSlot 0);
     Release m_handler_mutex; Release m_event_mutex; Release m_state_mutex].
Proof. vm_compute. reflexivity. Qed.

Example all_port_states_of_two_ports :
  port_name <$> match outcome (run (refreshPortStatusFromSONiC;; getAllPortStates)
                                   s_two_ports) with
                | Ret l => l
                | Throw _ => []
                end
  = ["Ethernet0"; "Ethernet4"].
Proof. vm_compute. reflexivity. Qed.

Lemma validatePortName_accepts_ethernet_digits_witness :
  validatePortName "Ethernet12" = true
  /\ exists digits,
       "Ethernet12" = "Ethernet" +:+ digits
       /\ digits <> EmptyString
       /\ Forall (fun ch => is_digit ch = true) (list_ascii_of_string digits).
Proof.
  assert (H1 : validatePortName "Ethernet12" = true) by reflexivity.
  split; [exact H1|].
  exact (proj1 (validatePortName_accepts_ethernet_digits "Ethernet12") H1).
Defined.

Lemma invalid_port_is_rejected_untouched_witness :
  validatePortName "eth0" = false
  /\ outcome (run (simulate (CableInsertion "eth0")) s_fresh) = Ret false
  /\ final (run (simulate (CableInsertion "eth0")) s_fresh) = s_fresh
  /\ outcome (run (simulateLinkFlap "eth0" 2) s_fresh) = Ret false.
Proof.
  assert (H1 : validatePortName (op_port (CableInsertion "eth0")) = false)
    by reflexivity.
  destruct (invalid_port_is_rejected_untouched (CableInsertion "eth0") s_fresh H1)
    as (Ho & Hf & _ & _ & Hflap).
  assert (H2 : (1 <= 2)%Z) by lia.
  split; [exact H1|]. split; [exact Ho|]. split; [exact Hf|].
  exact (proj1 (Hflap 2%Z H2)).
Defined.

Lemma test_ports_are_valid_and_distinct_witness :
  32 <= 40
  /\ getTestPorts 3 = ["Ethernet0"; "Ethernet4"; "Ethernet8"]
  /\ test_ports_loop 40 3 0 [] = getTestPorts 3.
Proof.
  assert (H1 : 32 <= 40) by lia.
  destruct (test_ports_are_valid_and_distinct 3) as (Hp & _ & _ & _ & _ & Hfuel).
  split; [exact H1|]. split; [exact Hp|]. exact (Hfuel 40 H1).
Defined.

Lemma generateTestSFPInfo_on_port_names_witness :
  validatePortName "Ethernet0" = true
  /\ String.length "eth" < 8
  /\ (exists digits,
        "Ethernet0" = "Ethernet" +:+ digits
        /\ run (generateTestSFPInfo "Ethernet0") s_fresh
           = (Ret {| sfp_port_name := "Ethernet0"; is_present := true;
                     vendor_name := "Test Vendor"; part_number := "TEST-SFP-001";
                     serial_number := "TST" +:+ digits; connector_type := "LC";
                     cable_length := "1m";
                     supported_speeds := [1000; 10000; 25000; 100000]%N;
                     status := "OK" |}, s_fresh, []))
  /\ exists what,
       run (generateTestSFPInfo "eth") s_fresh
       = (Throw (StdException what), s_fresh, []).
Proof.
  assert (H1 : validatePortName "Ethernet0" = true) by reflexivity.
  assert (H2 : String.length "eth" < 8) by (cbn; lia).
  split; [exact H1|]. split; [exact H2|]. split.
  - exact (proj1 (generateTestSFPInfo_on_port_names "Ethernet0" s_fresh) H1).
  - exact (proj2 (generateTestSFPInfo_on_port_names "eth" s_fresh) H2).
Defined.

Lemma getRedisHashField_value_witness :
  nul_free "up" = true
  /\ fst (popen_pclose (c_str (hget_command (ctl s_reads_up) "PORT_TABLE:Ethernet0"
                                            "oper_status" 0)) (world s_reads_up))
     = Some ("up" +:+ nl, 0%Z)
  /\ newline_free ("u" +:+ String nul "p") = true
  /\ String.length ("u" +:+ String nul "p") < 255
  /\ fst (popen_pclose (c_str (hget_command (ctl s_nul) "PORT_TABLE:Ethernet0"
                                            "oper_status" 0)) (world s_nul))
     = Some (("u" +:+ String nul "p") +:+ nl, 0%Z)
  /\ popen_ok (fst (popen_pclose
                      (c_str (hget_command (ctl s_fail) "PORT_TABLE:Ethernet0"
                                           "oper_status" 0)) (world s_fail)))
     = false
  /\ outcome (run (getRedisHashField "PORT_TABLE:Ethernet0" "oper_status" 0)
                  (mkState (ctl s_reads_up) (world s_reads_up))) = Ret "up"
  /\ outcome (run (getRedisHashField "PORT_TABLE:Ethernet0" "oper_status" 0)
                  (mkState (ctl s_nul) (world s_nul))) = Ret "u"
  /\ outcome (run (getRedisHashField "PORT_TABLE:Ethernet0" "oper_status" 0)
                  (mkState (ctl s_fail) (world s_fail))) = Ret EmptyString.
Proof.
  assert (H0 : nul_free "up" = true) by reflexivity.
  assert (H1 : fst (popen_pclose (c_str (hget_command (ctl s_reads_up)
                                           "PORT_TABLE:Ethernet0" "oper_status" 0))
                                 (world s_reads_up))
               = Some ("up" +:+ nl, 0%Z)) by (vm_compute; reflexivity).
  assert (H2 : popen_ok (fst (popen_pclose
                  (c_str (hget_command (ctl s_fail) "PORT_TABLE:Ethernet0"
                                       "oper_status" 0))
                  (world s_fail))) = false) by (vm_compute; reflexivity).
  assert (H3 : nul_free "u" = true) by reflexivity.
  assert (H4 : newline_free ("u" +:+ String nul "p") = true) by reflexivity.
  assert (H5 : String.length ("u" +:+ String nul "p") < 255) by (vm_compute; lia).
  assert (H6 : fst (popen_pclose (c_str (hget_command (ctl s_nul)
                                           "PORT_TABLE:Ethernet0" "oper_status" 0))
                                 (world s_nul))
               = Some (("u" +:+ String nul "p") +:+ nl, 0%Z))
    by (vm_compute; reflexivity).
  destruct (getRedisHashField_value "PORT_TABLE:Ethernet0" "oper_status" 0
              (ctl s_reads_up) (world s_reads_up)) as (_ & _ & Hval & _).
  destruct (getRedisHashField_value "PORT_TABLE:Ethernet0" "oper_status" 0
              (ctl s_nul) (world s_nul)) as (_ & _ & _ & Hnul & _).
  destruct (getRedisHashField_value "PORT_TABLE:Ethernet0" "oper_status" 0
              (ctl s_fail) (world s_fail)) as (_ & _ & _ & _ & Hfail & _).
  split; [exact H0|]. split; [exact H1|]. split; [exact H4|]. split; [exact H5|].
  split; [exact H6|]. split; [exact H2|]. split; [exact (Hval "up" H0 H1)|].
  split; [exact (Hnul "u" "p" H3 H4 H5 H6)|]. exact (Hfail H2).
Defined.

Lemma verify_without_an_answer_witness :
  popen_ok (fst (popen_pclose
     (c_str (hget_command (ctl s_fail) ("PORT_TABLE:" +:+ "Ethernet0") "oper_status" 0))
     (world s_fail))) = false
  /\ outcome (run (verifySONiCPortStatus "Ethernet0" UNKNOWN)
                  (mkState (ctl s_fail) (world s_fail))) = Ret true
  /\ outcome (run (verifySONiCPortStatus "Ethernet0" DOWN)
                  (mkState (ctl s_fail) (world s_fail))) = Ret false.
Proof.
  assert (H1 : popen_ok (fst (popen_pclose
     (c_str (hget_command (ctl s_fail) ("PORT_TABLE:" +:+ "Ethernet0") "oper_status" 0))
     (world s_fail))) = false) by (vm_compute; reflexivity).
  split; [exact H1|]. split.
  - exact (verify_without_an_answer "Ethernet0" UNKNOWN (ctl s_fail) (world s_fail)
             (or_introl H1)).
  - exact (verify_without_an_answer "Ethernet0" DOWN (ctl s_fail) (world s_fail)
             (or_introl H1)).
Defined.

Lemma sfp_insertion_then_get_witness :
  outcome (run (simulateSFPInsertion "Ethernet0" test_sfp) s_fresh) = Ret true
  /\ outcome (run (getSFPInfo "Ethernet0")
                  (final (run (simulateSFPInsertion "Ethernet0" test_sfp) s_fresh)))
     = Ret test_sfp.
Proof.
  assert (H1 : outcome (run (simulateSFPInsertion "Ethernet0" test_sfp) s_fresh)
               = Ret true) by (vm_compute; reflexivity).
  split; [exact H1|].
  exact (sfp_insertion_then_get "Ethernet0" test_sfp s_fresh H1).
Defined.

Lemma sfp_removal_then_get_witness :
  outcome (run (simulateSFPRemoval "Ethernet0") s_fresh) = Ret true
  /\ m_sfp_info (ctl s_fresh) !! "Ethernet0" = None
  /\ outcome (run (getSFPInfo "Ethernet0")
                  (final (run (simulateSFPRemoval "Ethernet0") s_fresh)))
     = Ret (default_sfp "Ethernet0")
  /\ m_sfp_info (ctl (final (run (simulateSFPRemoval "Ethernet0") s_fresh)))
       !! "Ethernet0" = None.
Proof.
  assert (H1 : outcome (run (simulateSFPRemoval "Ethernet0") s_fresh) = Ret true)
    by (vm_compute; reflexivity).
  assert (H2 : m_sfp_info (ctl s_fresh) !! "Ethernet0" = None)
    by (vm_compute; reflexivity).
  destruct (sfp_removal_then_get "Ethernet0" s_fresh H1) as (_ & Hnone & _).
  split; [exact H1|]. split; [exact H2|]. exact (Hnone H2).
Defined.

Lemma simulate_touches_only_its_port_witness :
  "Ethernet4" <> op_port (CableInsertion "Ethernet0")
  /\ m_port_states (ctl (final (run (simulate (CableInsertion "Ethernet0")) s_one_up)))
       !! "Ethernet4"
     = m_port_states (ctl s_one_up) !! "Ethernet4".
Proof.
  assert (H1 : "Ethernet4" <> op_port (CableInsertion "Ethernet0"))
    by (cbn; discriminate).
  split; [exact H1|].
  exact (proj1 (simulate_touches_only_its_port (CableInsertion "Ethernet0") s_one_up
                  "Ethernet4" H1)).
Defined.

Lemma cable_event_records_the_transition_witness :
  outcome (run (simulate (CableRemoval "Ethernet0")) s_one_up) = Ret true
  /\ exists ev st,
       m_event_history (ctl (final (run (simulate (CableRemoval "Ethernet0")) s_one_up)))
       = m_event_history (ctl s_one_up) ++ [ev]
       /\ m_port_states (ctl (final (run (simulate (CableRemoval "Ethernet0")) s_one_up)))
            !! "Ethernet0" = Some st
       /\ old_status ev = oper_of (ctl s_one_up) "Ethernet0"
       /\ new_status ev = oper_status st.
Proof.
  assert (H1 : outcome (run (simulate (CableRemoval "Ethernet0")) s_one_up) = Ret true)
    by (vm_compute; reflexivity).
  split; [exact H1|].
  destruct (cable_event_records_the_transition "Ethernet0" false s_one_up H1)
    as (ev & st & Hh & Hst & _ & _ & Hold & Hnew & _).
  exists ev, st. split; [exact Hh|]. split; [exact Hst|]. split; [exact Hold|].
  exact Hnew.
Defined.

Lemma refresh_replaces_only_the_port_table_witness :
  popen_ok (fst (popen_pclose (c_str (keys_command (ctl s_one_up))) (world s_fail))) = false
  /\ outcome (run refreshPortStatusFromSONiC (mkState (ctl s_one_up) (world s_fail)))
     = Ret false
  /\ m_port_states
       (ctl (final (run refreshPortStatusFromSONiC
                        (mkState (ctl s_one_up) (world s_fail))))) = ∅
  /\ m_event_history
       (ctl (final (run refreshPortStatusFromSONiC
                        (mkState (ctl s_one_up) (world s_fail)))))
     = m_event_history (ctl s_one_up).
Proof.
  assert (H1 : popen_ok (fst (popen_pclose (c_str (keys_command (ctl s_one_up)))
                                           (world s_fail))) = false)
    by (vm_compute; reflexivity).
  destruct (refresh_replaces_only_the_port_table (ctl s_one_up) (world s_fail))
    as (_ & Hh & _ & _ & _ & _ & _ & Hfalse & Hempty).
  split; [exact H1|]. split; [exact (proj2 Hfalse H1)|].
  split; [exact (Hempty H1)|]. exact Hh.
Defined.

Lemma refresh_lists_the_ports_of_config_db_witness :
  outcome (run refreshPortStatusFromSONiC
               (mkState (ctl s_two_ports) (world s_two_ports))) = Ret true
  /\ (forall name,
        is_Some (m_port_states
                   (ctl (final (run refreshPortStatusFromSONiC
                                    (mkState (ctl s_two_ports) (world s_two_ports)))))
                   !! name)
        <-> ("PORT|" +:+ name)
            ∈ getlines (answer_of (fst (popen_pclose (c_str (keys_command (ctl s_two_ports)))
                                                     (world s_two_ports))))).
Proof.
  assert (H1 : outcome (run refreshPortStatusFromSONiC
                            (mkState (ctl s_two_ports) (world s_two_ports))) = Ret true)
    by (vm_compute; reflexivity).
  split; [exact H1|].
  exact (proj1 (refresh_lists_the_ports_of_config_db (ctl s_two_ports)
                  (world s_two_ports) H1)).
Defined.

Lemma s_one_up_reachable : reachable s_one_up.
Proof. apply reachable_call, reachable_new. Defined.

Lemma statistics_count_the_history_witness :
  reachable s_one_up /\ stats_agree (ctl s_one_up).
Proof.
  split; [exact s_one_up_reachable|].
  exact (statistics_count_the_history s_one_up s_one_up_reachable).
Defined.

Lemma history_holds_simulated_events_witness :
  reachable s_one_up /\ Forall well_formed_event (m_event_history (ctl s_one_up)).
Proof.
  split; [exact s_one_up_reachable|].
  exact (history_holds_simulated_events s_one_up s_one_up_reachable).
Defined.

Lemma maps_are_keyed_by_their_ports_witness :
  reachable s_one_up /\ keys_consistent (ctl s_one_up).
Proof.
  split; [exact s_one_up_reachable|].
  exact (maps_are_keyed_by_their_ports s_one_up s_one_up_reachable).
Defined.

Lemma initialize_marks_ready_only_on_success_witness :
  popen_ok (fst (popen_pclose (c_str (echo_command (ctl s_fail))) (world s_fail))) = false
  /\ popen_ok (fst (popen_pclose (c_str (echo_command (ctl s_keys_fail)))
                                 (world s_keys_fail))) = true
  /\ popen_ok (fst (popen_pclose (c_str (keys_command (ctl s_keys_fail)))
         (snd (popen_pclose (c_str (echo_command (ctl s_keys_fail)))
                            (world s_keys_fail))))) = false
  /\ outcome (run initialize (mkState (ctl s_echo_two_ports) (world s_echo_two_ports)))
     = Ret true
  /\ outcome (run initialize (mkState (ctl s_fail) (world s_fail))) = Ret false
  /\ outcome (run initialize (mkState (ctl s_keys_fail) (world s_keys_fail)))
     = Ret false
  /\ m_initialized
       (ctl (final (run initialize
                        (mkState (ctl s_echo_two_ports) (world s_echo_two_ports)))))
     = true.
Proof.
  assert (H1 : popen_ok (fst (popen_pclose (c_str (echo_command (ctl s_fail)))
                                           (world s_fail))) = false)
    by (vm_compute; reflexivity).
  assert (H2 : outcome (run initialize
                            (mkState (ctl s_echo_two_ports) (world s_echo_two_ports)))
               = Ret true) by (vm_compute; reflexivity).
  assert (H3 : popen_ok (fst (popen_pclose (c_str (echo_command (ctl s_keys_fail)))
                                           (world s_keys_fail))) = true)
    by (vm_compute; reflexivity).
  assert (H4 : popen_ok (fst (popen_pclose (c_str (keys_command (ctl s_keys_fail)))
                 (snd (popen_pclose (c_str (echo_command (ctl s_keys_fail)))
                                    (world s_keys_fail))))) = false)
    by (vm_compute; reflexivity).
  destruct (initialize_marks_ready_only_on_success (ctl s_fail) (world s_fail))
    as (Hfail & _).
  destruct (initialize_marks_ready_only_on_success (ctl s_echo_two_ports)
              (world s_echo_two_ports)) as (_ & _ & _ & _ & Hok & _).
  destruct (initialize_marks_ready_only_on_success (ctl s_keys_fail)
              (world s_keys_fail)) as (_ & _ & _ & Hkeys & _).
  split; [exact H1|]. split; [exact H3|]. split; [exact H4|]. split; [exact H2|].
  split; [exact (proj1 (Hfail H1))|]. split; [exact (Hkeys H4)|].
  exact (proj1 (Hok H2)).
Defined.

Lemma queries_leave_the_controller_alone_witness :
  is_query (CallVerify "Ethernet0" UP) = true
  /\ ctl (api_final (CallVerify "Ethernet0" UP) s_one_up) = ctl s_one_up
  /\ invocations (api_trace (CallVerify "Ethernet0" UP) s_one_up) = [].
Proof.
  assert (H1 : is_query (CallVerify "Ethernet0" UP) = true) by reflexivity.
  split; [exact H1|].
  exact (queries_leave_the_controller_alone (CallVerify "Ethernet0" UP) s_one_up H1).
Defined.

Lemma link_flap_is_not_rolled_back_witness :
  outcome (run (simulateLinkFlap "Ethernet0" 2) s_flap_fails) = Ret false
  /\ exists evs,
       m_event_history (ctl (final (run (simulateLinkFlap "Ethernet0" 2) s_flap_fails)))
       = m_event_history (ctl s_flap_fails) ++ evs
       /\ List.length evs < 2 * Z.to_nat 2
       /\ oper_of (ctl (final (run (simulateLinkFlap "Ethernet0" 2) s_flap_fails)))
                  "Ethernet0"
          = from_option new_status (oper_of (ctl s_flap_fails) "Ethernet0") (last evs).
Proof.
  assert (H1 : outcome (run (simulateLinkFlap "Ethernet0" 2) s_flap_fails) = Ret false)
    by (vm_compute; reflexivity).
  split; [exact H1|].
  destruct (link_flap_is_not_rolled_back "Ethernet0" 2 s_flap_fails)
    as (evs & Hh & _ & _ & Hlen & Hop).
  exists evs. split; [exact Hh|]. split; [exact (Hlen H1)|]. exact Hop.
Defined.

Lemma simulate_all_composes_witness :
  fst (simulate_all [CableInsertion "Ethernet0"; CableRemoval "Ethernet0";
                     CableInsertion "Ethernet4"] s_fresh) = true
  /\ exists evs,
       m_event_history
         (ctl (snd (simulate_all [CableInsertion "Ethernet0"; CableRemoval "Ethernet0";
                                  CableInsertion "Ethernet4"] s_fresh)))
       = m_event_history (ctl s_fresh) ++ evs
       /\ event_type <$> evs = [CABLE_INSERTED; CABLE_REMOVED; CABLE_INSERTED]
       /\ ev_port_name <$> evs = ["Ethernet0"; "Ethernet0"; "Ethernet4"].
Proof.
  assert (H1 : fst (simulate_all [CableInsertion "Ethernet0"; CableRemoval "Ethernet0";
                                  CableInsertion "Ethernet4"] s_fresh) = true)
    by (vm_compute; reflexivity).
  split; [exact H1|].
  destruct (simulate_all_composes
              [CableInsertion "Ethernet0"; CableRemoval "Ethernet0";
               CableInsertion "Ethernet4"] s_fresh H1) as (evs & Hh & Hk & Hp & _).
  exists evs. split; [exact Hh|]. split; [exact Hk|]. exact Hp.
Defined.

Lemma getAllPortStates_lists_the_table_in_name_order_witness :
  reachable s_one_up
  /\ exists l,
       outcome (run getAllPortStates s_one_up) = Ret l
       /\ final (run getAllPortStates s_one_up) = s_one_up
       /\ List.length l = size (m_port_states (ctl s_one_up)).
Proof.
  split; [exact s_one_up_reachable|].
  destruct (getAllPortStates_lists_the_table_in_name_order s_one_up s_one_up_reachable)
    as (l & Ho & Hf & _ & _ & Hlen & _).
  exists l. split; [exact Ho|]. split; [exact Hf|]. exact Hlen.
Defined.

End Checks.
